(** * code-sandbox-mcp: the copy-project tool

    A shallow embedding of [tools/copy-project.go] and the properties its
    specification states about it.  The file holds the two revisions of the
    tool that the repository carries: [V1], where [createTarArchive] has a
    contents-only flag and the copy creates parent directories itself, and
    [V2], where the archive is always nested under the base name of the
    source directory and the destination is created with [mkdir -p] first.
    [getContainerHomeDir], which nothing in the file calls, is left out. *)

From Stdlib Require Import String Ascii List ZArith Bool Lia DecimalString.
From stdpp Require Import gmap strings.
Import ListNotations.
Local Open Scope string_scope.
Local Open Scope list_scope.
Set Warnings "-register-all".

(** ** Strings *)

Module Str.

(** [strings.Split(s, "/")]: the pieces of [s] between separators. *)
Fixpoint split_sep (s : string) : list string :=
  match s with
  | EmptyString => [EmptyString]
  | String c rest =>
      if Ascii.eqb c "/"%char then EmptyString :: split_sep rest
      else match split_sep rest with
           | seg :: segs => String c seg :: segs
           | [] => [String c EmptyString]
           end
  end.

(** [strings.Join(segs, "/")]. *)
Fixpoint join_sep (segs : list string) : string :=
  match segs with
  | [] => EmptyString
  | [seg] => seg
  | seg :: rest => seg +:+ "/" +:+ join_sep rest
  end.

(** [strings.HasPrefix(s, "/")]. *)
Definition has_slash_prefix (s : string) : bool :=
  match s with
  | String c _ => Ascii.eqb c "/"%char
  | EmptyString => false
  end.

(** Does the separator occur in [s]? *)
Fixpoint has_sep (s : string) : bool :=
  match s with
  | EmptyString => false
  | String c rest => Ascii.eqb c "/"%char || has_sep rest
  end.

(** [fmt.Sprintf("%d", z)]. *)
Definition of_Z (z : Z) : string := NilZero.string_of_int (Z.to_int z).

End Str.

(** ** Go's [path/filepath] on a Unix host

    The functions below follow the library's algorithms element by element
    rather than byte by byte: a path is cut at its separators, the elements
    are processed, and the result is joined again. *)

Module filepath.
Import Str.

(** One step of [Clean]'s loop.  [stk] holds the elements written so far,
    last one first.  Empty elements and [.] are dropped; [..] removes the
    last real element, is dropped at the root, and is kept as part of a
    leading run of [..] otherwise. *)
Definition clean_step (rooted : bool) (stk : list string) (seg : string)
  : list string :=
  if String.eqb seg "" then stk
  else if String.eqb seg "." then stk
  else if String.eqb seg ".." then
    match stk with
    | top :: rest =>
        if String.eqb top ".." then (if rooted then stk else ".." :: stk)
        else rest
    | [] => if rooted then [] else [".."]
    end
  else seg :: stk.

Definition clean_elems (rooted : bool) (segs : list string) : list string :=
  rev (fold_left (clean_step rooted) segs []).

(** The text of a cleaned path with the given elements. *)
Definition render (rooted : bool) (elems : list string) : string :=
  if rooted then "/" +:+ join_sep elems
  else match elems with
       | [] => "."
       | _ => join_sep elems
       end.

Definition Clean (path : string) : string :=
  if String.eqb path "" then "."
  else
    let rooted := has_slash_prefix path in
    render rooted (clean_elems rooted (split_sep path)).

(** [Join] skips leading empty elements, joins the rest with the separator
    and cleans the result; with nothing to join it returns the empty string. *)
Fixpoint Join (elem : list string) : string :=
  match elem with
  | [] => ""
  | e :: rest => if String.eqb e "" then Join rest else Clean (join_sep elem)
  end.

(** Drop the empty elements at the front of a list of elements. *)
Fixpoint drop_empty (segs : list string) : list string :=
  match segs with
  | seg :: rest => if String.eqb seg "" then drop_empty rest else segs
  | [] => []
  end.

(** Drop the empty elements at the end of a split path. *)
Definition strip_trailing (segs : list string) : list string :=
  rev (drop_empty (rev segs)).

(** [Base]: the last element of the path, after trailing separators are
    removed; [.] for the empty path and [/] for a path of separators only. *)
Definition Base (path : string) : string :=
  if String.eqb path "" then "."
  else match rev (strip_trailing (split_sep path)) with
       | [] => "/"
       | last :: _ => last
       end.

(** [Dir]: everything up to and including the last separator, cleaned. *)
Definition Dir (path : string) : string :=
  match rev (split_sep path) with
  | _ :: before =>
      match before with
      | [] => Clean ""
      | _ => Clean (join_sep (rev before) +:+ "/")
      end
  | [] => Clean ""
  end.

(** The elements [Rel] compares: the pieces between separators, without the
    empty piece after a final separator. *)
Definition rel_elems (path : string) : list string :=
  match rev (split_sep path) with
  | last :: before => if String.eqb last "" then rev before else split_sep path
  | [] => []
  end.

(** Remove the common leading elements of two paths. *)
Fixpoint strip_common (bs ts : list string) : list string * list string :=
  match bs, ts with
  | b :: bs', t :: ts' =>
      if String.eqb t b then strip_common bs' ts' else (bs, ts)
  | _, _ => (bs, ts)
  end.

(** [Rel(basepath, targpath)]; [None] is the library's "can't make ...
    relative to ..." error. *)
Definition Rel (basepath targpath : string) : option string :=
  let base := Clean basepath in
  let targ := Clean targpath in
  if String.eqb targ base then Some "."
  else
    let base := if String.eqb base "." then "" else base in
    if negb (Bool.eqb (has_slash_prefix base) (has_slash_prefix targ)) then None
    else
      match strip_common (rel_elems base) (rel_elems targ) with
      | (b :: brest, t :: trest) =>
          if String.eqb b ".." then None
          else Some (join_sep (map (fun _ => "..") (b :: brest) ++ t :: trest))
      | (b :: brest, []) => Some (join_sep (map (fun _ => "..") (b :: brest)))
      | ([], trest) => Some (join_sep trest)
      end.

End filepath.

(** ** Errors

    Go's [error] values that the tool meets: the sentinels of
    [filepath.Walk], the errors of the packages it calls, the wrapping done
    by [fmt.Errorf] with [%w], and the error [executeCommand] builds for a
    command that exits with a non-zero code. *)

Inductive error : Type :=
| SkipDir
| SkipAll
| ErrOS (msg : string)
| ErrTar (msg : string)
| ErrRel (basepath targpath : string)
| ErrDocker (msg : string)
| Errorf (context : string) (wrapped : error)
| ErrCommandExited (code : Z) (output : string).

(** [err.Error()]. *)
Fixpoint Error (e : error) : string :=
  match e with
  | SkipDir => "skip this directory"
  | SkipAll => "skip everything and stop the walk"
  | ErrOS msg => msg
  | ErrTar msg => "archive/tar: " +:+ msg
  | ErrRel b t => "Rel: can't make " +:+ t +:+ " relative to " +:+ b
  | ErrDocker msg => msg
  | Errorf context wrapped => context +:+ ": " +:+ Error wrapped
  | ErrCommandExited code output =>
      "command exited with code " +:+ Str.of_Z code +:+ ": " +:+ output
  end.

Definition is_SkipDir (e : error) : bool :=
  match e with SkipDir => true | _ => false end.

Definition is_SkipAll (e : error) : bool :=
  match e with SkipAll => true | _ => false end.

(** ** The host file system

    A snapshot of what [os.Lstat], the directory listing and [os.Open] answer
    below some path.  A directory lists its entries in the order
    [filepath.Walk] visits them (sorted by name).  Where a call fails the
    node holds the message of the [*os.PathError] it fails with. *)

Inductive kind : Type :=
| KSymlink | KNamedPipe | KSocket | KCharDevice | KBlockDevice | KIrregular.

Inductive node : Type :=
| NFile (perm : Z) (data : list Byte.byte) (open_err : option string)
| NDir (perm : Z) (read_err : option string) (entries : list (string * node))
| NOther (k : kind) (perm : Z)
| NBroken (lstat_err : string).

(** [os.FileInfo]: the name of the entry and what [Lstat] found there. *)
Record FileInfo : Type := { fi_Name : string; fi_node : node }.

Definition IsDir (n : node) : bool :=
  match n with NDir _ _ _ => true | _ => false end.

Definition IsRegular (n : node) : bool :=
  match n with NFile _ _ _ => true | _ => false end.

Definition Perm (n : node) : Z :=
  match n with
  | NFile p _ _ | NDir p _ _ | NOther _ p => p
  | NBroken _ => 0%Z
  end.

(** [fi.Size()] for a regular file: the length of its content. *)
Definition fi_Size (n : node) : Z :=
  match n with
  | NFile _ data _ => Z.of_nat (length data)
  | _ => 0%Z
  end.

(** [os.Open(file)] followed by reading the file to its end. *)
Definition Open (n : node) : error + list Byte.byte :=
  match n with
  | NFile _ data None => inr data
  | NFile _ _ (Some msg) => inl (ErrOS msg)
  | _ => inl (ErrOS "is not a regular file")
  end.

Record Host : Type := {
  (** [os.Stat]: follows symbolic links. *)
  os_Stat : string -> error + node;
  (** [os.Lstat] and everything below: the tree found at a path. *)
  os_Lstat : string -> node
}.

(** ** [archive/tar] *)

Module tar.

Inductive Typeflag : Type :=
| TypeReg | TypeDir | TypeSymlink | TypeChar | TypeBlock | TypeFifo.

Record Header : Type := {
  Typeflag_ : Typeflag;
  Name : string;
  Linkname : string;
  Size_ : Z;
  Mode : Z
}.

Definition with_Name (h : Header) (name : string) : Header :=
  {| Typeflag_ := Typeflag_ h; Name := name; Linkname := Linkname h;
     Size_ := Size_ h; Mode := Mode h |}.

(** [tar.FileInfoHeader(fi, link)]. *)
Definition FileInfoHeader (fi : FileInfo) (link : string) : error + Header :=
  let h t nm ln sz :=
    {| Typeflag_ := t; Name := nm; Linkname := ln; Size_ := sz;
       Mode := Perm (fi_node fi) |} in
  match fi_node fi with
  | NFile _ _ _ => inr (h TypeReg (fi_Name fi) "" (fi_Size (fi_node fi)))
  | NDir _ _ _ => inr (h TypeDir (fi_Name fi +:+ "/") "" 0%Z)
  | NOther KSymlink _ => inr (h TypeSymlink (fi_Name fi) link 0%Z)
  | NOther KNamedPipe _ => inr (h TypeFifo (fi_Name fi) "" 0%Z)
  | NOther KCharDevice _ => inr (h TypeChar (fi_Name fi) "" 0%Z)
  | NOther KBlockDevice _ => inr (h TypeBlock (fi_Name fi) "" 0%Z)
  | NOther KSocket _ => inl (ErrTar "sockets not supported")
  | NOther KIrregular _ => inl (ErrTar "unknown file mode")
  | NBroken _ => inl (ErrTar "FileInfo is nil")
  end.

(** An archive member: its header and the bytes written after it. *)
Record Entry : Type := { header : Header; body : list Byte.byte }.

(** The writer: the members written so far, in order, and the number of
    bytes the last header still promises. *)
Record Writer : Type := { members : list Entry; owed : Z }.

Definition NewWriter : Writer := {| members := []; owed := 0%Z |}.

Definition header_only (t : Typeflag) : bool :=
  match t with TypeReg => false | _ => true end.

(** [tw.WriteHeader(hdr)]: refuses while the previous member is short. *)
Definition WriteHeader (hdr : Header) (tw : Writer) : error + Writer :=
  if (0 <? owed tw)%Z then
    inl (ErrTar ("missed writing " +:+ Str.of_Z (owed tw) +:+ " bytes"))
  else if (Size_ hdr <? 0)%Z then inl (ErrTar "negative size on header-only type")
  else
    inr {| members := members tw ++ [{| header := hdr; body := [] |}];
           owed := if header_only (Typeflag_ hdr) then 0%Z else Size_ hdr |}.

(** Append bytes to the body of the last member. *)
Definition append_body (b : list Byte.byte) (es : list Entry) : list Entry :=
  match rev es with
  | last :: before =>
      rev before ++ [{| header := header last; body := body last ++ b |}]
  | [] => []
  end.

(** [tw.Write(b)], as [io.Copy(tw, f)] drives it: bytes beyond what the
    header promised are refused with [ErrWriteTooLong]. *)
Definition Write (b : list Byte.byte) (tw : Writer) : option error * Writer :=
  let n := Z.of_nat (length b) in
  if (owed tw <? n)%Z then
    (Some (ErrTar "write too long"),
     {| members := append_body (firstn (Z.to_nat (owed tw)) b) (members tw);
        owed := 0%Z |})
  else
    (None, {| members := append_body b (members tw); owed := (owed tw - n)%Z |}).

End tar.

(** ** [filepath.Walk] *)

Section Walk.
Context {St : Type}.

(** [filepath.WalkFunc], with the state the closure updates made explicit. *)
Definition WalkFunc : Type :=
  string -> FileInfo -> option error -> St -> option error * St.

Variable walkFn : WalkFunc.

(** The loop of [walk] over the names of a directory; [rec] is [walk]
    itself. *)
Definition walk_children (rec : string -> string -> node -> St -> option error * St)
  (path : string) : list (string * node) -> St -> option error * St :=
  fix children (es : list (string * node)) (st : St) : option error * St :=
    match es with
    | [] => (None, st)
    | (nm, child) :: rest =>
        let filename := filepath.Join [path; nm] in
        match child with
        | NBroken msg =>
            let '(err, st') :=
              walkFn filename {| fi_Name := nm; fi_node := child |}
                     (Some (ErrOS msg)) st in
            match err with
            | Some err' =>
                if is_SkipDir err' then children rest st'
                else (Some err', st')
            | None => children rest st'
            end
        | _ =>
            let '(err, st') := rec filename nm child st in
            match err with
            | Some err' =>
                if negb (IsDir child) || negb (is_SkipDir err')
                then (Some err', st')
                else children rest st'
            | None => children rest st'
            end
        end
    end.

(** [walk(path, info, walkFn)]; [name] is [info.Name()]. *)
Fixpoint walk (path : string) (name : string) (info : node) (st : St)
  : option error * St :=
  match info with
  | NDir _ read_err entries =>
      let '(err1, st1) :=
        walkFn path {| fi_Name := name; fi_node := info |}
               (option_map ErrOS read_err) st in
      match read_err, err1 with
      | None, None => walk_children walk path entries st1
      | _, _ => (err1, st1)
      end
  | _ => walkFn path {| fi_Name := name; fi_node := info |} None st
  end.

(** [filepath.Walk(root, walkFn)]. *)
Definition Walk (h : Host) (root : string) (st : St) : option error * St :=
  let info := os_Lstat h root in
  let '(err, st') :=
    match info with
    | NBroken msg =>
        walkFn root {| fi_Name := filepath.Base root; fi_node := info |}
               (Some (ErrOS msg)) st
    | _ => walk root (filepath.Base root) info st
    end in
  match err with
  | Some e => if is_SkipDir e || is_SkipAll e then (None, st') else (err, st')
  | None => (None, st')
  end.

End Walk.

(** ** The tool-call layer ([mcp-go]) *)

Module mcp.

(** What a tool argument may hold once the request is decoded. *)
Inductive value : Type :=
| VString (s : string)
| VNumber (z : Z)
| VBool (b : bool)
| VNull
| VList (l : list value)
| VObject (fields : list (string * value)).

Record CallToolRequest : Type := { Arguments : gmap string value }.

Inductive Content : Type :=
| TextContent (text : string).

Record CallToolResult : Type := { Content_ : list Content; IsError : bool }.

(** [mcp.NewToolResultText(text)]. *)
Definition NewToolResultText (text : string) : CallToolResult :=
  {| Content_ := [TextContent text]; IsError := false |}.

(** The type assertion [v.(string)] on a map lookup: the string and [ok]. *)
Definition as_string (v : option value) : string * bool :=
  match v with
  | Some (VString s) => (s, true)
  | _ => ("", false)
  end.

End mcp.

(** ** The container runtime ([docker/client]) *)

Record Docker : Type := {
  (** [client.NewClientWithOpts]: [None] when the client is created. *)
  NewClientWithOpts : option error;
  ContainerInspect : string -> option error;
  CopyToContainer : string -> string -> list tar.Entry -> option error;
  (** The ID of the new exec session. *)
  ContainerExecCreate : string -> list string -> error + string;
  (** The output stream of the attached session. *)
  ContainerExecAttach : string -> error + string;
  (** The answer to the [n]-th inspect of a session: running, exit code. *)
  ContainerExecInspect : string -> nat -> error + bool * Z;
  (** How many bytes of the attached stream the background copy has moved
      when the [n]-th inspect of the session answers. *)
  drained : string -> nat -> nat
}.

Record World : Type := { host : Host; docker : Docker }.

(** What the tool does to the outside, in order. *)
Inductive event : Type :=
| EvStat (path : string)
| EvWalk (root : string)
| EvNewClient
| EvClientClose
| EvContainerInspect (containerID : string)
| EvCopyToContainer (containerID destPath : string) (archive : list tar.Entry)
| EvExecCreate (containerID : string) (cmd : list string)
| EvExecAttach (execID : string)
| EvExecAttachClose (execID : string)
| EvExecInspect (execID : string)
| EvSleep.

Definition is_fs_event (e : event) : bool :=
  match e with EvStat _ | EvWalk _ => true | _ => false end.

Definition is_runtime_event (e : event) : bool :=
  match e with
  | EvStat _ | EvWalk _ | EvSleep => false
  | _ => true
  end.

(** What a call of the tool leaves behind: the two values [CopyProject]
    returns and the events it caused. *)
Record Outcome : Type := {
  result : mcp.CallToolResult;
  err : option error;
  trace : list event
}.

(** ** [executeCommand]

    Both revisions carry the same text of this function. *)

(** The choice of the text reported for a failed command: lines
    [errMsg := stderr.String(); if errMsg == "" { errMsg = stdout.String() }]. *)
Definition errMsg_of (stderr stdout : string) : string :=
  if String.eqb stderr "" then stdout else stderr.

(** The wait loop, started at the [n]-th inspect.  [stdout] and [stderr] give
    the contents of the two buffers at each inspect.  [None]: the loop is
    still running when the fuel is used up. *)
Fixpoint waitExec (d : Docker) (execID : string) (stdout stderr : nat -> string)
  (fuel n : nat) : option (list event * option error) :=
  match fuel with
  | O => None
  | S fuel' =>
      match ContainerExecInspect d execID n with
      | inl e =>
          Some ([EvExecInspect execID], Some (Errorf "failed to inspect exec" e))
      | inr (Running, ExitCode) =>
          if negb Running then
            if negb (ExitCode =? 0)%Z then
              let errMsg := errMsg_of (stderr n) (stdout n) in
              Some ([EvExecInspect execID],
                    Some (ErrCommandExited ExitCode errMsg))
            else Some ([EvExecInspect execID], None)
          else
            match waitExec d execID stdout stderr fuel' (S n) with
            | Some (tr, r) => Some (EvExecInspect execID :: EvSleep :: tr, r)
            | None => None
            end
      end
  end.

Definition executeCommand (fuel : nat) (d : Docker) (containerID : string)
  (cmd : list string) : option (list event * option error) :=
  match NewClientWithOpts d with
  | Some e => Some ([EvNewClient], Some (Errorf "failed to create Docker client" e))
  | None =>
      match ContainerExecCreate d containerID cmd with
      | inl e =>
          Some ([EvNewClient; EvExecCreate containerID cmd; EvClientClose],
                Some (Errorf "failed to create exec" e))
      | inr execID =>
          match ContainerExecAttach d execID with
          | inl e =>
              Some ([EvNewClient; EvExecCreate containerID cmd;
                     EvExecAttach execID; EvClientClose],
                    Some (Errorf "failed to attach to exec" e))
          | inr reader =>
              (* var stdout, stderr bytes.Buffer; only stdout is written,
                 by the background copy of the attached stream *)
              let stdout n := String.substring 0 (drained d execID n) reader in
              let stderr (_ : nat) := "" in
              match waitExec d execID stdout stderr fuel 0 with
              | Some (tr, r) =>
                  Some ([EvNewClient; EvExecCreate containerID cmd;
                         EvExecAttach execID] ++ tr ++
                        [EvExecAttachClose execID; EvClientClose], r)
              | None => None
              end
          end
      end
  end.

(** ** First revision: a contents-only flag, no [mkdir] *)

Module V1.
Import filepath.

(** The closure [createTarArchive] hands to [filepath.Walk]. *)
Definition archiveFn (srcPath baseDir : string) (copyContentsOnly : bool)
  : @WalkFunc tar.Writer :=
  fun file fi err tw =>
    match err with
    | Some e => (Some e, tw)
    | None =>
        match tar.FileInfoHeader fi (fi_Name fi) with
        | inl e => (Some e, tw)
        | inr header =>
            match Rel srcPath file with
            | None => (Some (ErrRel srcPath file), tw)
            | Some relPath =>
                if String.eqb relPath "." then (None, tw)
                else
                  let header :=
                    if copyContentsOnly then tar.with_Name header relPath
                    else tar.with_Name header (Join [baseDir; relPath]) in
                  match tar.WriteHeader header tw with
                  | inl e => (Some e, tw)
                  | inr tw =>
                      if IsRegular (fi_node fi) then
                        match Open (fi_node fi) with
                        | inl e => (Some e, tw)
                        | inr f => tar.Write f tw
                        end
                      else (None, tw)
                  end
            end
        end
    end.

(** The archive is given as the members written to the buffer; the
    deferred [tw.Close()] adds the end-of-archive blocks and its error is
    dropped. *)
Definition createTarArchive (h : Host) (srcPath : string)
  (copyContentsOnly : bool) : list event * (error + list tar.Entry) :=
  let tw := tar.NewWriter in
  let srcPath := Clean srcPath in
  let baseDir := Base srcPath in
  let '(err, tw) :=
    Walk (archiveFn srcPath baseDir copyContentsOnly) h srcPath tw in
  ([EvWalk srcPath],
   match err with
   | Some e => inl e
   | None => inr (tar.members tw)
   end).

Definition copyToContainer (d : Docker) (containerID destPath : string)
  (tarArchive : list tar.Entry) : list event * option error :=
  match NewClientWithOpts d with
  | Some e => ([EvNewClient], Some (Errorf "failed to create Docker client" e))
  | None =>
      match ContainerInspect d containerID with
      | Some e =>
          ([EvNewClient; EvContainerInspect containerID; EvClientClose],
           Some (Errorf "failed to inspect container" e))
      | None =>
          let tr := [EvNewClient; EvContainerInspect containerID;
                     EvCopyToContainer containerID destPath tarArchive;
                     EvClientClose] in
          match CopyToContainer d containerID destPath tarArchive with
          | Some e => (tr, Some (Errorf "failed to copy to container" e))
          | None => (tr, None)
          end
      end
  end.

(** The destination and the contents-only flag, lines 44-56. *)
Definition resolveDest (dest_dir : option mcp.value) : string * bool :=
  let '(destDir, ok) := mcp.as_string dest_dir in
  if negb ok || String.eqb destDir "" || String.eqb destDir "." then
    ("/app", true)
  else if negb (Str.has_slash_prefix destDir) then
    (Join ["/app"; destDir], false)
  else (destDir, false).

Definition text_outcome (text : string) (tr : list event) : Outcome :=
  {| result := mcp.NewToolResultText text; err := None; trace := tr |}.

Definition CopyProject (w : World) (request : mcp.CallToolRequest) : Outcome :=
  let '(containerID, ok) :=
    mcp.as_string (mcp.Arguments request !! "container_id") in
  if negb ok || String.eqb containerID "" then
    text_outcome "container_id is required" []
  else
  let '(localSrcDir, ok) :=
    mcp.as_string (mcp.Arguments request !! "local_src_dir") in
  if negb ok || String.eqb localSrcDir "" then
    text_outcome "local_src_dir is required" []
  else
  let localSrcDir := Clean localSrcDir in
  match os_Stat (host w) localSrcDir with
  | inl e =>
      text_outcome ("Error accessing source directory: " +:+ Error e)
                   [EvStat localSrcDir]
  | inr info =>
      if negb (IsDir info) then
        text_outcome "local_src_dir must be a directory" [EvStat localSrcDir]
      else
      let '(destDir, copyToHomeDir) :=
        resolveDest (mcp.Arguments request !! "dest_dir") in
      let '(tr1, archive) :=
        createTarArchive (host w) localSrcDir copyToHomeDir in
      match archive with
      | inl e =>
          text_outcome ("Error creating tar archive: " +:+ Error e)
                       (EvStat localSrcDir :: tr1)
      | inr tarBuffer =>
          let targetPath := if copyToHomeDir then destDir else Dir destDir in
          let '(tr2, cerr) :=
            copyToContainer (docker w) containerID targetPath tarBuffer in
          match cerr with
          | Some e =>
              text_outcome ("Error copying to container: " +:+ Error e)
                           (EvStat localSrcDir :: tr1 ++ tr2)
          | None =>
              text_outcome
                ("Successfully copied " +:+ localSrcDir +:+ " to " +:+ destDir
                 +:+ " in container " +:+ containerID)
                (EvStat localSrcDir :: tr1 ++ tr2)
          end
      end
  end.

End V1.

(** ** Second revision: always nested, [mkdir -p] before the copy *)

Module V2.
Import filepath.

Definition archiveFn (srcPath baseDir : string) : @WalkFunc tar.Writer :=
  fun file fi err tw =>
    match err with
    | Some e => (Some e, tw)
    | None =>
        match tar.FileInfoHeader fi (fi_Name fi) with
        | inl e => (Some e, tw)
        | inr header =>
            match Rel srcPath file with
            | None => (Some (ErrRel srcPath file), tw)
            | Some relPath =>
                if String.eqb relPath "." then (None, tw)
                else
                  let header := tar.with_Name header (Join [baseDir; relPath]) in
                  match tar.WriteHeader header tw with
                  | inl e => (Some e, tw)
                  | inr tw =>
                      if IsRegular (fi_node fi) then
                        match Open (fi_node fi) with
                        | inl e => (Some e, tw)
                        | inr f => tar.Write f tw
                        end
                      else (None, tw)
                  end
            end
        end
    end.

Definition createTarArchive (h : Host) (srcPath : string)
  : list event * (error + list tar.Entry) :=
  let tw := tar.NewWriter in
  let srcPath := Clean srcPath in
  let baseDir := Base srcPath in
  let '(err, tw) := Walk (archiveFn srcPath baseDir) h srcPath tw in
  ([EvWalk srcPath],
   match err with
   | Some e => inl e
   | None => inr (tar.members tw)
   end).

Definition copyToContainer (fuel : nat) (d : Docker)
  (containerID destPath : string) (tarArchive : list tar.Entry)
  : option (list event * option error) :=
  match NewClientWithOpts d with
  | Some e =>
      Some ([EvNewClient], Some (Errorf "failed to create Docker client" e))
  | None =>
      match ContainerInspect d containerID with
      | Some e =>
          Some ([EvNewClient; EvContainerInspect containerID; EvClientClose],
                Some (Errorf "failed to inspect container" e))
      | None =>
          let createDirCmd := ["mkdir"; "-p"; destPath] in
          match executeCommand fuel d containerID createDirCmd with
          | None => None
          | Some (trx, Some e) =>
              Some ([EvNewClient; EvContainerInspect containerID] ++ trx ++
                    [EvClientClose],
                    Some (Errorf "failed to create destination directory" e))
          | Some (trx, None) =>
              let tr := [EvNewClient; EvContainerInspect containerID] ++ trx ++
                        [EvCopyToContainer containerID destPath tarArchive;
                         EvClientClose] in
              match CopyToContainer d containerID destPath tarArchive with
              | Some e => Some (tr, Some (Errorf "failed to copy to container" e))
              | None => Some (tr, None)
              end
          end
      end
  end.

(** The destination, lines 319-328. *)
Definition resolveDest (localSrcDir : string) (dest_dir : option mcp.value)
  : string :=
  let '(destDir, ok) := mcp.as_string dest_dir in
  if negb ok || String.eqb destDir "" then
    Join ["/app"; Base localSrcDir]
  else if negb (Str.has_slash_prefix destDir) then Join ["/app"; destDir]
  else destDir.

Definition text_outcome (text : string) (tr : list event) : Outcome :=
  {| result := mcp.NewToolResultText text; err := None; trace := tr |}.

Definition CopyProject (fuel : nat) (w : World) (request : mcp.CallToolRequest)
  : option Outcome :=
  let '(containerID, ok) :=
    mcp.as_string (mcp.Arguments request !! "container_id") in
  if negb ok || String.eqb containerID "" then
    Some (text_outcome "container_id is required" [])
  else
  let '(localSrcDir, ok) :=
    mcp.as_string (mcp.Arguments request !! "local_src_dir") in
  if negb ok || String.eqb localSrcDir "" then
    Some (text_outcome "local_src_dir is required" [])
  else
  let localSrcDir := Clean localSrcDir in
  match os_Stat (host w) localSrcDir with
  | inl e =>
      Some (text_outcome ("Error accessing source directory: " +:+ Error e)
                         [EvStat localSrcDir])
  | inr info =>
      if negb (IsDir info) then
        Some (text_outcome "local_src_dir must be a directory"
                           [EvStat localSrcDir])
      else
      let destDir := resolveDest localSrcDir (mcp.Arguments request !! "dest_dir") in
      let '(tr1, archive) := createTarArchive (host w) localSrcDir in
      match archive with
      | inl e =>
          Some (text_outcome ("Error creating tar archive: " +:+ Error e)
                             (EvStat localSrcDir :: tr1))
      | inr tarBuffer =>
          let parentDir := Dir destDir in
          match copyToContainer fuel (docker w) containerID parentDir tarBuffer with
          | None => None
          | Some (tr2, Some e) =>
              Some (text_outcome ("Error copying to container: " +:+ Error e)
                                 (EvStat localSrcDir :: tr1 ++ tr2))
          | Some (tr2, None) =>
              Some (text_outcome
                      ("Successfully copied " +:+ localSrcDir +:+ " to "
                       +:+ destDir +:+ " in container " +:+ containerID)
                      (EvStat localSrcDir :: tr1 ++ tr2))
          end
      end
  end.

End V2.

(** ** What the archive of a tree should hold *)

(** A name a directory can list: not empty, not [.] or [..], no separator. *)
Definition proper_name (s : string) : bool :=
  negb (String.eqb s "") && negb (String.eqb s ".")
  && negb (String.eqb s "..") && negb (Str.has_sep s).

(** Every name listed in the tree is one a directory can hold. *)
Fixpoint wf_names (n : node) : bool :=
  match n with
  | NDir _ _ entries =>
      forallb (fun e => proper_name (fst e) && wf_names (snd e)) entries
  | _ => true
  end.

(** The kinds of file [tar.FileInfoHeader] accepts. *)
Definition archivable (n : node) : bool :=
  match n with
  | NFile _ _ None => true
  | NFile _ _ (Some _) => false
  | NDir _ None _ => true
  | NDir _ (Some _) _ => false
  | NOther KSocket _ | NOther KIrregular _ => false
  | NOther _ _ => true
  | NBroken _ => false
  end.

(** Nothing in the tree fails to be listed, opened or described. *)
Fixpoint readable (n : node) : bool :=
  archivable n &&
  match n with
  | NDir _ _ entries => forallb (fun e => readable (snd e)) entries
  | _ => true
  end.

(** The entries below a node, in the order of the walk, each with its path
    from the root of the walk as a list of names; [rel] is the path of the
    node itself. *)
Fixpoint below (rel : list string) (n : node) : list (list string * node) :=
  match n with
  | NDir _ _ entries =>
      flat_map
        (fun e => (rel ++ [fst e], snd e) :: below (rel ++ [fst e]) (snd e))
        entries
  | _ => []
  end.

Definition descendants (n : node) : list (list string * node) := below [] n.

(** The relative path of an entry as text. *)
Definition rel_path (d : list string * node) : string := Str.join_sep (fst d).

Definition typeflag_of (n : node) : tar.Typeflag :=
  match n with
  | NDir _ _ _ => tar.TypeDir
  | NOther KSymlink _ => tar.TypeSymlink
  | NOther KNamedPipe _ => tar.TypeFifo
  | NOther KCharDevice _ => tar.TypeChar
  | NOther KBlockDevice _ => tar.TypeBlock
  | _ => tar.TypeReg
  end.

Definition content_of (n : node) : list Byte.byte :=
  match n with
  | NFile _ data _ => data
  | _ => []
  end.

(** The member an entry of the tree becomes, under a given archive name. *)
Definition member_for (name : string) (d : list string * node) : tar.Entry :=
  let n := snd d in
  {| tar.header :=
       {| tar.Typeflag_ := typeflag_of n;
          tar.Name := name;
          tar.Linkname :=
            match n with
            | NOther KSymlink _ => List.last (fst d) ""
            | _ => ""
            end;
          tar.Size_ := fi_Size n;
          tar.Mode := Perm n |};
     tar.body := content_of n |}.

(** The name of a member: the relative path, under the base name of the
    source directory unless only the contents are copied. *)
Definition archive_name (copyContentsOnly : bool) (baseDir relPath : string)
  : string :=
  if copyContentsOnly then relPath else filepath.Join [baseDir; relPath].

(** The directory of the archive that stands for the root of the walk. *)
Definition archive_top (copyContentsOnly : bool) (baseDir : string) : string :=
  if copyContentsOnly then "." else baseDir.

(** The cleaned paths: a run of [..] (none below the root) followed by
    proper names. *)
Definition NF (rooted : bool) (es : list string) : Prop :=
  exists k real,
    es = repeat ".." k ++ real /\
    Forall (fun e => proper_name e = true) real /\
    (rooted = true -> k = 0).

Definition cleaned (p : string) : Prop :=
  exists rooted es, NF rooted es /\ p = filepath.render rooted es.

(** ** Vocabulary of the statements *)

(** Member [e] of the archive stands for entry [d] of the tree: its path
    from the top directory of the archive is the path of [d] from the root
    of the walk, it has the type of [d], and its body is the content of [d]
    (the bytes of a regular file, nothing for any other entry). *)
Definition entry_matches (top : string) (e : tar.Entry)
  (d : list string * node) : Prop :=
  filepath.Rel top (tar.Name (tar.header e)) = Some (rel_path d) /\
  tar.Typeflag_ (tar.header e) = typeflag_of (snd d) /\
  tar.body e = content_of (snd d).

(** A required argument that [CopyProject] refuses: missing, not a string,
    or the empty string. *)
Definition missing_or_empty (v : option mcp.value) : Prop :=
  match v with
  | Some (mcp.VString s) => s = ""
  | _ => True
  end.

(** The two texts with which [CopyProject] rejects a bad source directory. *)
Definition source_not_found_text (text : string) : Prop :=
  (exists e, text = "Error accessing source directory: " +:+ Error e) \/
  text = "local_src_dir must be a directory".

(** Every text with which [CopyProject] reports a failure. *)
Definition failure_text (text : string) : Prop :=
  text = "container_id is required" \/
  text = "local_src_dir is required" \/
  source_not_found_text text \/
  (exists e, text = "Error creating tar archive: " +:+ Error e) \/
  (exists e, text = "Error copying to container: " +:+ Error e).

Definition success_text (localSrcDir destDir containerID : string) : string :=
  "Successfully copied " +:+ localSrcDir +:+ " to " +:+ destDir
  +:+ " in container " +:+ containerID.

(** The trace holds no call of the container runtime. *)
Definition no_runtime_call (tr : list event) : Prop :=
  Forall (fun ev => is_runtime_event ev = false) tr.

(** Every exec session is at some inspect reported as not running, or the
    inspect fails. *)
Definition sessions_end (d : Docker) : Prop :=
  forall execID, exists k,
    match ContainerExecInspect d execID k with
    | inr (true, _) => False
    | _ => True
    end.

(** ** A sample host and runtime *)

Module Example.

Definition bytes (s : string) : list Byte.byte := list_byte_of_string s.

(** [proj/{a.txt, sub/b.txt}]. *)
Definition proj : node :=
  NDir 493 None
    [("a.txt", NFile 420 (bytes "hello") None);
     ("sub", NDir 493 None [("b.txt", NFile 420 (bytes "x") None)])].

Definition fs : Host :=
  {| os_Stat := fun p =>
       if String.eqb p "/tmp/proj" then inr proj
       else inl (ErrOS ("stat " +:+ p +:+ ": no such file or directory"));
     os_Lstat := fun p =>
       if String.eqb p "/tmp/proj" then proj
       else NBroken ("lstat " +:+ p +:+ ": no such file or directory") |}.

(** A runtime where every command runs for two inspects and exits with
    [code], having written [out]. *)
Definition engine (code : Z) (out : string) : Docker :=
  {| NewClientWithOpts := None;
     ContainerInspect := fun _ => None;
     CopyToContainer := fun _ _ _ => None;
     ContainerExecCreate := fun _ _ => inr "exec-1";
     ContainerExecAttach := fun _ => inr out;
     ContainerExecInspect := fun _ n =>
       if Nat.ltb n 2 then inr (true, 0%Z) else inr (false, code);
     drained := fun _ n => 4 * n |}.

Definition world : World := {| host := fs; docker := engine 0 "" |}.

Definition request (args : list (string * mcp.value)) : mcp.CallToolRequest :=
  {| mcp.Arguments := list_to_map args |}.

Definition base_args : list (string * mcp.value) :=
  [("container_id", mcp.VString "c1");
   ("local_src_dir", mcp.VString "/tmp/proj/")].

End Example.


(** ** Vocabulary of the further properties *)

(** The names of a list are pairwise different. *)
Fixpoint distinct (l : list string) : bool :=
  match l with
  | [] => true
  | x :: rest => negb (existsb (String.eqb x) rest) && distinct rest
  end.

(** Every directory of the tree lists each name once. *)
Fixpoint uniq_names (n : node) : bool :=
  match n with
  | NDir _ _ entries =>
      distinct (map fst entries) && forallb (fun e => uniq_names (snd e)) entries
  | _ => true
  end.

(** ** More sample hosts *)

Module Sample.

(** [app/{a.txt, run.sock}]: a directory that holds a socket. *)
Definition with_socket : node :=
  NDir 493 None
    [("a.txt", NFile 420 (Example.bytes "hello") None);
     ("run.sock", NOther KSocket 493)].

(** A host where [/srv/app] is that directory and [/srv/link] is a symbolic
    link to the sample project: [Stat] follows it, [Lstat] does not. *)
Definition fs : Host :=
  {| os_Stat := fun p =>
       if String.eqb p "/srv/app" then inr with_socket
       else if String.eqb p "/srv/link" then inr Example.proj
       else inl (ErrOS ("stat " +:+ p +:+ ": no such file or directory"));
     os_Lstat := fun p =>
       if String.eqb p "/srv/app" then with_socket
       else if String.eqb p "/srv/link" then NOther KSymlink 511
       else NBroken ("lstat " +:+ p +:+ ": no such file or directory") |}.

Definition world : World := {| host := fs; docker := Example.engine 0 "" |}.

(** A runtime whose exec sessions are reported running at every inspect. *)
Definition hung_engine : Docker :=
  {| NewClientWithOpts := None;
     ContainerInspect := fun _ => None;
     CopyToContainer := fun _ _ _ => None;
     ContainerExecCreate := fun _ _ => inr "exec-1";
     ContainerExecAttach := fun _ => inr "";
     ContainerExecInspect := fun _ _ => inr (true, 0%Z);
     drained := fun _ _ => 0 |}.

End Sample.

(** ** Counting the clients of the runtime *)

Definition is_client_new (ev : event) : bool :=
  match ev with EvNewClient => true | _ => false end.

Definition is_client_close (ev : event) : bool :=
  match ev with EvClientClose => true | _ => false end.

Definition count_events (f : event -> bool) (tr : list event) : nat :=
  length (List.filter f tr).

(** The events of a session that is inspected [k] times while running and
    once more: a sleep after every inspect but the last. *)
Definition poll_trace (execID : string) (k : nat) : list event :=
  concat (repeat [EvExecInspect execID; EvSleep] k) ++ [EvExecInspect execID].

(** What the wait loop returns for the answer of the last inspect, with the
    buffers as they are then. *)
Definition poll_outcome (answer : error + bool * Z) (stdout stderr : string)
  : option error :=
  match answer with
  | inl e => Some (Errorf "failed to inspect exec" e)
  | inr (_, code) =>
      if (code =? 0)%Z then None
      else Some (ErrCommandExited code (errMsg_of stderr stdout))
  end.

(** ** Go's [strings.TrimSpace]

    White space is what [unicode.IsSpace] accepts: the six ASCII characters
    tab, line feed, vertical tab, form feed, carriage return and space, and
    the runes U+0085, U+00A0, U+1680, U+2000 to U+200A, U+2028, U+2029,
    U+202F, U+205F and U+3000, which a string holds in their UTF-8 encoding
    of two or three bytes.  A byte sequence that is not the encoding of one
    of them is not white space. *)

Module gostrings.

Definition asciiSpace (c : ascii) : bool :=
  let n := nat_of_ascii c in
  (Nat.leb 9 n && Nat.leb n 13) || Nat.eqb n 32.

(** The two-byte encodings: U+0085 and U+00A0. *)
Definition space2 (c1 c2 : ascii) : bool :=
  Nat.eqb (nat_of_ascii c1) 194
  && (Nat.eqb (nat_of_ascii c2) 133 || Nat.eqb (nat_of_ascii c2) 160).

(** The three-byte encodings. *)
Definition space3 (c1 c2 c3 : ascii) : bool :=
  let n1 := nat_of_ascii c1 in
  let n2 := nat_of_ascii c2 in
  let n3 := nat_of_ascii c3 in
  (Nat.eqb n1 225 && Nat.eqb n2 154 && Nat.eqb n3 128)
  || (Nat.eqb n1 226 && Nat.eqb n2 128
      && ((Nat.leb 128 n3 && Nat.leb n3 138)
          || Nat.eqb n3 168 || Nat.eqb n3 169 || Nat.eqb n3 175))
  || (Nat.eqb n1 226 && Nat.eqb n2 129 && Nat.eqb n3 159)
  || (Nat.eqb n1 227 && Nat.eqb n2 128 && Nat.eqb n3 128).

(** Drop the leading white space of a list of bytes; [is2] and [is3] say
    which two and three bytes, in the order they are met, encode a white
    space rune. *)
Fixpoint trimFront (is2 : ascii -> ascii -> bool)
  (is3 : ascii -> ascii -> ascii -> bool) (l : list ascii) : list ascii :=
  match l with
  | [] => []
  | c1 :: rest1 =>
      if asciiSpace c1 then trimFront is2 is3 rest1
      else
        match rest1 with
        | [] => l
        | c2 :: rest2 =>
            if is2 c1 c2 then trimFront is2 is3 rest2
            else
              match rest2 with
              | [] => l
              | c3 :: rest3 =>
                  if is3 c1 c2 c3 then trimFront is2 is3 rest3 else l
              end
        end
  end.

(** [TrimLeftFunc(s, unicode.IsSpace)]. *)
Definition trimLeft (l : list ascii) : list ascii := trimFront space2 space3 l.

(** The same from the end, on the bytes last first: the encodings are met
    in reverse. *)
Definition trimEnd (l : list ascii) : list ascii :=
  trimFront (fun c1 c2 => space2 c2 c1) (fun c1 c2 c3 => space3 c3 c2 c1) l.

(** [TrimRightFunc(s, unicode.IsSpace)]. *)
Definition trimRight (l : list ascii) : list ascii := rev (trimEnd (rev l)).

Definition TrimSpace (s : string) : string :=
  string_of_list_ascii (trimRight (trimLeft (list_ascii_of_string s))).

End gostrings.

(** ** [getContainerHomeDir] (first revision) *)

(** What [getContainerHomeDir] returns: the home directory with a nil error,
    or the empty string with one of the wrapped errors of the runtime, or
    the empty string with the error [command exited with code N], which
    carries nothing of what the command wrote. *)
Inductive HomeDirResult : Type :=
| HomeDir (homeDir : string)
| HomeDirError (e : error)
| HomeDirExited (code : Z).

Definition HomeDirResult_Error (r : HomeDirResult) : option string :=
  match r with
  | HomeDir _ => None
  | HomeDirError e => Some (Error e)
  | HomeDirExited code => Some ("command exited with code " +:+ Str.of_Z code)
  end.

(** Its wait loop, started at the [n]-th inspect; the inner [None] is the
    [break]. *)
Fixpoint waitHomeDir (d : Docker) (execID : string) (fuel n : nat)
  : option (list event * option HomeDirResult) :=
  match fuel with
  | O => None
  | S fuel' =>
      match ContainerExecInspect d execID n with
      | inl e =>
          Some ([EvExecInspect execID],
                Some (HomeDirError (Errorf "failed to inspect exec" e)))
      | inr (Running, ExitCode) =>
          if negb Running then
            if negb (ExitCode =? 0)%Z then
              Some ([EvExecInspect execID], Some (HomeDirExited ExitCode))
            else Some ([EvExecInspect execID], None)
          else
            match waitHomeDir d execID fuel' (S n) with
            | Some (tr, r) => Some (EvExecInspect execID :: EvSleep :: tr, r)
            | None => None
            end
      end
  end.

(** The client is the caller's.  The attached stream is read to its end
    before the first inspect. *)
Definition getContainerHomeDir (fuel : nat) (d : Docker) (containerID : string)
  : option (list event * HomeDirResult) :=
  let cmd := ["sh"; "-c"; "echo $HOME"] in
  match ContainerExecCreate d containerID cmd with
  | inl e =>
      Some ([EvExecCreate containerID cmd],
            HomeDirError (Errorf "failed to create exec" e))
  | inr execID =>
      match ContainerExecAttach d execID with
      | inl e =>
          Some ([EvExecCreate containerID cmd; EvExecAttach execID],
                HomeDirError (Errorf "failed to attach to exec" e))
      | inr reader =>
          let stdout := reader in
          match waitHomeDir d execID fuel 0 with
          | None => None
          | Some (tr, Some failure) =>
              Some ([EvExecCreate containerID cmd; EvExecAttach execID] ++ tr
                    ++ [EvExecAttachClose execID], failure)
          | Some (tr, None) =>
              let homeDir := gostrings.TrimSpace stdout in
              let homeDir := if String.eqb homeDir "" then "/root" else homeDir in
              Some ([EvExecCreate containerID cmd; EvExecAttach execID] ++ tr
                    ++ [EvExecAttachClose execID], HomeDir homeDir)
          end
      end
  end.


(** ** Facts about splitting and joining *)

Section StrFacts.
Import Str.

Lemma eqb_false_iff (a b : string) : String.eqb a b = false <-> a <> b.
Proof. apply String.eqb_neq. Qed.

Lemma split_sep_nonempty s : split_sep s <> [].
Proof.
  destruct s as [|c s]; simpl; [discriminate|].
  destruct (Ascii.eqb c "/"); [discriminate|].
  destruct (split_sep s); discriminate.
Qed.

Lemma split_sep_nosep s : has_sep s = false -> split_sep s = [s].
Proof.
  induction s as [|c s IH]; simpl; [reflexivity|].
  destruct (Ascii.eqb c "/"); simpl; [discriminate|].
  intros H. rewrite (IH H). reflexivity.
Qed.

Lemma split_sep_app a b :
  split_sep (a +:+ "/" +:+ b) = split_sep a ++ split_sep b.
Proof.
  induction a as [|c a IH]; simpl; [reflexivity|].
  destruct (Ascii.eqb c "/"); simpl.
  - f_equal. exact IH.
  - rewrite IH. destruct (split_sep a) eqn:E.
    + exfalso. exact (split_sep_nonempty a E).
    + reflexivity.
Qed.

Lemma split_sep_all_nosep s : Forall (fun e => has_sep e = false) (split_sep s).
Proof.
  induction s as [|c s IH]; simpl.
  - constructor; [reflexivity|constructor].
  - destruct (Ascii.eqb c "/") eqn:Ec.
    + constructor; [reflexivity|exact IH].
    + destruct (split_sep s) as [|seg segs].
      * constructor; [|constructor]. simpl. rewrite Ec. reflexivity.
      * inversion IH; subst.
        constructor; [|assumption]. simpl. rewrite Ec. assumption.
Qed.

Lemma split_join es :
  es <> [] -> Forall (fun e => has_sep e = false) es ->
  split_sep (join_sep es) = es.
Proof.
  induction es as [|e es IH]; [congruence|].
  intros _ H. inversion H as [|? ? He Hes]; subst.
  destruct es as [|e' es].
  - simpl. apply split_sep_nosep. exact He.
  - change (join_sep (e :: e' :: es)) with (e +:+ "/" +:+ join_sep (e' :: es)).
    rewrite split_sep_app, (split_sep_nosep e He), IH by (congruence || assumption).
    reflexivity.
Qed.

Lemma join_sep_cons e es :
  es <> [] -> join_sep (e :: es) = e +:+ "/" +:+ join_sep es.
Proof. destruct es; [congruence|reflexivity]. Qed.

Lemma append_cons (x : ascii) (a b : string) :
  String x a +:+ b = String x (a +:+ b).
Proof. reflexivity. Qed.

Lemma append_assoc (a b c : string) : (a +:+ b) +:+ c = a +:+ (b +:+ c).
Proof.
  induction a as [|x a IH]; [reflexivity|].
  rewrite !append_cons, IH. reflexivity.
Qed.

Lemma join_sep_app es rel :
  es <> [] -> rel <> [] ->
  join_sep (es ++ rel) = join_sep es +:+ "/" +:+ join_sep rel.
Proof.
  induction es as [|e es IH]; [congruence|]. intros _ Hrel.
  destruct es as [|e' es].
  - simpl app. apply join_sep_cons. exact Hrel.
  - change ((e :: e' :: es) ++ rel) with (e :: ((e' :: es) ++ rel)).
    rewrite join_sep_cons by (simpl; discriminate).
    rewrite IH by (congruence || assumption).
    rewrite (join_sep_cons e (e' :: es)) by discriminate.
    rewrite !append_assoc. reflexivity.
Qed.

Lemma has_slash_prefix_app a b :
  a <> "" -> has_slash_prefix (a +:+ b) = has_slash_prefix a.
Proof. destruct a; [congruence|reflexivity]. Qed.

Lemma nosep_no_slash_prefix s : has_sep s = false -> has_slash_prefix s = false.
Proof.
  destruct s as [|c s]; simpl; [reflexivity|].
  destruct (Ascii.eqb c "/"); [discriminate|reflexivity].
Qed.

Lemma append_nonempty a b : a <> "" -> a +:+ b <> "".
Proof. destruct a; [congruence|discriminate]. Qed.

End StrFacts.

(** ** Facts about [Clean] and [Join] *)

Section CleanFacts.
Import Str filepath.

Lemma proper_name_spec e :
  proper_name e = true ->
  e <> "" /\ e <> "." /\ e <> ".." /\ has_sep e = false.
Proof.
  unfold proper_name.
  rewrite !andb_true_iff, !negb_true_iff, !String.eqb_neq. tauto.
Qed.

Lemma proper_name_intro e :
  e <> "" -> e <> "." -> e <> ".." -> has_sep e = false -> proper_name e = true.
Proof.
  intros H1 H2 H3 H4. unfold proper_name.
  apply String.eqb_neq in H1, H2, H3. rewrite H1, H2, H3, H4. reflexivity.
Qed.

Lemma clean_step_proper r stk e :
  proper_name e = true -> clean_step r stk e = e :: stk.
Proof.
  intros H. apply proper_name_spec in H as (H1 & H2 & H3 & _).
  apply String.eqb_neq in H1, H2, H3.
  unfold clean_step. rewrite H1, H2, H3. reflexivity.
Qed.

Lemma fold_proper r real stk :
  Forall (fun e => proper_name e = true) real ->
  fold_left (clean_step r) real stk = rev real ++ stk.
Proof.
  revert stk. induction real as [|e real IH]; intros stk H; [reflexivity|].
  inversion H; subst. simpl.
  rewrite clean_step_proper, IH, <- app_assoc by assumption. reflexivity.
Qed.

Lemma fold_dotdots k j :
  fold_left (clean_step false) (repeat ".." k) (repeat ".." j)
  = repeat ".." (k + j).
Proof.
  revert j. induction k as [|k IH]; intros j; [reflexivity|].
  assert (Hs : clean_step false (repeat ".." j) ".." = repeat ".." (S j))
    by (destruct j; reflexivity).
  simpl. rewrite Hs, IH.
  replace (k + S j) with (S (k + j)) by lia. reflexivity.
Qed.

Lemma rev_repeat (x : string) k : rev (repeat x k) = repeat x k.
Proof.
  induction k as [|k IH]; [reflexivity|].
  simpl. rewrite IH. symmetry. apply repeat_cons.
Qed.

Lemma fold_NF r es : NF r es -> fold_left (clean_step r) es [] = rev es.
Proof.
  intros (k & real & -> & Hreal & Hk). rewrite fold_left_app.
  destruct r.
  - rewrite (Hk eq_refl). simpl. rewrite fold_proper, app_nil_r by assumption.
    reflexivity.
  - pose proof (fold_dotdots k 0) as H. simpl in H.
    rewrite H, Nat.add_0_r, fold_proper, rev_app_distr, rev_repeat by assumption.
    reflexivity.
Qed.

Lemma NF_nil r : NF r [].
Proof. exists 0, []. split_and!; auto. Qed.

Lemma NF_app r es rel :
  NF r es -> Forall (fun e => proper_name e = true) rel -> NF r (es ++ rel).
Proof.
  intros (k & real & -> & Hreal & Hk) Hrel.
  exists k, (real ++ rel). rewrite <- app_assoc. split_and!; auto.
  apply List.Forall_app; auto.
Qed.

Lemma NF_elems r es :
  NF r es -> Forall (fun e => e <> "" /\ has_sep e = false) es.
Proof.
  intros (k & real & -> & Hreal & _). apply List.Forall_app. split.
  - apply List.Forall_forall. intros x Hx. apply repeat_spec in Hx. subst.
    split; [discriminate|reflexivity].
  - eapply List.Forall_impl; [|exact Hreal]. simpl. intros e He.
    apply proper_name_spec in He. tauto.
Qed.

Lemma NF_nosep r es : NF r es -> Forall (fun e => has_sep e = false) es.
Proof.
  intros H. eapply List.Forall_impl; [|exact (NF_elems r es H)]. simpl. tauto.
Qed.

Lemma proper_nosep rel :
  Forall (fun e => proper_name e = true) rel ->
  Forall (fun e => has_sep e = false) rel.
Proof.
  intros H. eapply List.Forall_impl; [|exact H]. simpl.
  intros e He. apply proper_name_spec in He. tauto.
Qed.

Lemma join_sep_nonempty e es :
  e <> "" -> join_sep (e :: es) <> "".
Proof.
  intros He. destruct es; simpl; [exact He|]. apply append_nonempty. exact He.
Qed.

Lemma join_sep_prefix e es :
  e <> "" -> has_sep e = false -> has_slash_prefix (join_sep (e :: es)) = false.
Proof.
  intros He Hs. destruct es; simpl.
  - apply nosep_no_slash_prefix. exact Hs.
  - rewrite has_slash_prefix_app by exact He.
    apply nosep_no_slash_prefix. exact Hs.
Qed.

(** The text of a cleaned path: not empty, rooted as said, and cut back
    into its elements by [Clean]'s loop. *)
Lemma render_facts r es :
  NF r es ->
  render r es <> "" /\
  has_slash_prefix (render r es) = r /\
  fold_left (clean_step r) (split_sep (render r es)) [] = rev es.
Proof.
  intros H. pose proof (NF_elems r es H) as Hel.
  pose proof (NF_nosep r es H) as Hns.
  destruct r.
  - unfold render. change ("/" +:+ join_sep es) with (String "/" (join_sep es)).
    split; [discriminate|]. split; [reflexivity|].
    change (split_sep (String "/" (join_sep es)))
      with ("" :: split_sep (join_sep es)).
    destruct es as [|e es]; [reflexivity|].
    rewrite split_join by (congruence || assumption).
    change (fold_left (clean_step true) ("" :: e :: es) [])
      with (fold_left (clean_step true) (e :: es) []).
    apply fold_NF. exact H.
  - destruct es as [|e es]; [split_and!; try reflexivity; discriminate|].
    unfold render. inversion Hel as [|? ? [He Hs] _]; subst.
    split; [apply join_sep_nonempty; exact He|].
    split; [apply join_sep_prefix; assumption|].
    rewrite split_join by (congruence || assumption).
    apply fold_NF. exact H.
Qed.

Lemma Clean_render r es : NF r es -> Clean (render r es) = render r es.
Proof.
  intros H. destruct (render_facts r es H) as (Hne & Hpre & Hfold).
  unfold Clean, clean_elems. apply String.eqb_neq in Hne.
  rewrite Hne, Hpre, Hfold, rev_involutive. reflexivity.
Qed.

Lemma Clean_under r es rel :
  NF r es -> Forall (fun e => proper_name e = true) rel -> rel <> [] ->
  Clean (render r es +:+ "/" +:+ join_sep rel) = render r (es ++ rel).
Proof.
  intros H Hrel Hnil. destruct (render_facts r es H) as (Hne & Hpre & Hfold).
  unfold Clean, clean_elems.
  assert (Hne' : render r es +:+ "/" +:+ join_sep rel <> "")
    by (apply append_nonempty; exact Hne).
  apply String.eqb_neq in Hne'. rewrite Hne'.
  rewrite has_slash_prefix_app, Hpre by exact Hne.
  rewrite split_sep_app, fold_left_app, Hfold.
  rewrite split_join by (auto using proper_nosep).
  rewrite fold_proper by assumption.
  rewrite rev_app_distr, !rev_involutive. reflexivity.
Qed.

Lemma Join_under r es rel :
  NF r es -> Forall (fun e => proper_name e = true) rel -> rel <> [] ->
  Join [render r es; join_sep rel] = render r (es ++ rel).
Proof.
  intros H Hrel Hnil. destruct (render_facts r es H) as (Hne & _ & _).
  unfold Join. apply String.eqb_neq in Hne. rewrite Hne.
  change (join_sep [render r es; join_sep rel])
    with (render r es +:+ "/" +:+ join_sep rel).
  apply Clean_under; assumption.
Qed.

Lemma Join_child r es nm :
  NF r es -> proper_name nm = true ->
  Join [render r es; nm] = render r (es ++ [nm]).
Proof.
  intros H Hnm. apply (Join_under r es [nm]); auto.
Qed.

(** [Clean]'s loop keeps its stack in the cleaned form. *)
Lemma clean_step_NF r stk seg :
  has_sep seg = false -> NF r (rev stk) -> NF r (rev (clean_step r stk seg)).
Proof.
  intros Hsep Hnf. unfold clean_step.
  destruct (String.eqb seg "") eqn:E1; [exact Hnf|].
  destruct (String.eqb seg ".") eqn:E2; [exact Hnf|].
  destruct (String.eqb seg "..") eqn:E3.
  - destruct stk as [|top rest].
    + destruct r; [apply NF_nil|]. exists 1, []. split_and!; auto. discriminate.
    + destruct Hnf as (k & real & Heq & Hreal & Hk). simpl in Heq.
      destruct (String.eqb top "..") eqn:Et.
      * destruct r; [exists k, real; auto|].
        apply String.eqb_eq in Et. subst top.
        destruct real as [|x real _] using rev_ind.
        -- rewrite app_nil_r in Heq. exists (S k), []. split_and!; auto.
           ++ change (rev (".." :: ".." :: rest))
                with ((rev rest ++ [".."]) ++ [".."]).
              rewrite Heq, app_nil_r. rewrite <- repeat_cons. reflexivity.
           ++ discriminate.
        -- rewrite app_assoc in Heq. apply app_inj_tail in Heq as [_ <-].
           apply List.Forall_app in Hreal as [_ Hx]. inversion Hx; subst. discriminate.
      * apply String.eqb_neq in Et.
        destruct real as [|x real _] using rev_ind.
        -- rewrite app_nil_r in Heq. exfalso.
           destruct k as [|k]; simpl in Heq.
           ++ destruct (rev rest); discriminate.
           ++ rewrite repeat_cons in Heq. apply app_inj_tail in Heq as [_ ->].
              congruence.
        -- rewrite app_assoc in Heq. apply app_inj_tail in Heq as [Heq _].
           apply List.Forall_app in Hreal as [Hreal _]. exists k, real. auto.
  - apply String.eqb_neq in E1, E2, E3.
    apply NF_app with (rel := [seg]) in Hnf; [exact Hnf|].
    constructor; [|constructor]. apply proper_name_intro; assumption.
Qed.

Lemma fold_clean_NF r segs stk :
  Forall (fun e => has_sep e = false) segs -> NF r (rev stk) ->
  NF r (rev (fold_left (clean_step r) segs stk)).
Proof.
  revert stk. induction segs as [|seg segs IH]; intros stk Hs Hnf; [exact Hnf|].
  inversion Hs; subst. simpl. apply IH; [assumption|].
  apply clean_step_NF; assumption.
Qed.

Lemma Clean_cleaned s : cleaned (Clean s).
Proof.
  unfold Clean. destruct (String.eqb s "").
  - exists false, []. split; [apply NF_nil|reflexivity].
  - exists (has_slash_prefix s), (clean_elems (has_slash_prefix s) (split_sep s)).
    split; [|reflexivity]. unfold clean_elems.
    apply fold_clean_NF; [apply split_sep_all_nosep|apply NF_nil].
Qed.

Lemma Clean_idempotent s : Clean (Clean s) = Clean s.
Proof.
  destruct (Clean_cleaned s) as (r & es & Hnf & ->). apply Clean_render. exact Hnf.
Qed.

End CleanFacts.

(** ** Facts about [Rel] and [Base] *)

Section RelFacts.
Import Str filepath.

Lemma NF_In r es e :
  NF r es -> In e es -> e = ".." \/ proper_name e = true.
Proof.
  intros (k & real & -> & Hreal & _) Hin. apply in_app_or in Hin as [Hin|Hin].
  - left. eapply repeat_spec. exact Hin.
  - right. rewrite List.Forall_forall in Hreal. auto.
Qed.

Lemma NF_not_dot r es : NF r es -> ~ In "." es.
Proof.
  intros H Hin. destruct (NF_In r es "." H Hin) as [E|E]; discriminate.
Qed.

Lemma split_render r es :
  NF r es -> es <> [] ->
  split_sep (render r es) = if r then "" :: es else es.
Proof.
  intros H Hne. pose proof (NF_nosep r es H) as Hns. destruct r.
  - unfold render. change ("/" +:+ join_sep es) with (String "/" (join_sep es)).
    change (split_sep (String "/" (join_sep es)))
      with ("" :: split_sep (join_sep es)).
    rewrite split_join by assumption. reflexivity.
  - destruct es as [|e es]; [congruence|]. unfold render.
    apply split_join; assumption.
Qed.

Lemma rel_elems_snoc s l a :
  a <> "" -> split_sep s = l ++ [a] -> rel_elems s = l ++ [a].
Proof.
  intros Ha Hs. unfold rel_elems. rewrite Hs, rev_app_distr. simpl.
  apply String.eqb_neq in Ha. rewrite Ha. reflexivity.
Qed.

Lemma rel_elems_render r es :
  NF r es -> es <> [] ->
  rel_elems (render r es) = if r then "" :: es else es.
Proof.
  intros H Hne. pose proof (split_render r es H Hne) as Hs.
  pose proof (NF_elems r es H) as Hel.
  destruct es as [|a es _] using rev_ind; [congruence|].
  apply List.Forall_app in Hel as [_ Ha]. inversion Ha as [|? ? [Ha' _] _]; subst.
  destruct r.
  - apply (rel_elems_snoc _ ("" :: es) a); assumption.
  - apply (rel_elems_snoc _ es a); assumption.
Qed.

Lemma strip_common_app X rel : strip_common X (X ++ rel) = ([], rel).
Proof.
  induction X as [|x X IH]; simpl.
  - destruct rel; reflexivity.
  - rewrite String.eqb_refl. exact IH.
Qed.

Lemma render_under_neq r es rel :
  NF r es -> Forall (fun e => proper_name e = true) rel -> rel <> [] ->
  render r (es ++ rel) <> render r es.
Proof.
  intros H Hrel Hne Heq.
  assert (Hnf' : NF r (es ++ rel)) by (apply NF_app; assumption).
  assert (Hne' : es ++ rel <> []) by (destruct es, rel; simpl; congruence).
  destruct es as [|e es].
  - simpl app in *. destruct r.
    + unfold render in Heq. simpl in Heq.
      change ("/" +:+ join_sep rel) with (String "/" (join_sep rel)) in Heq.
      inversion Heq as [Hj]. destruct rel as [|x rel]; [congruence|].
      inversion Hrel; subst. revert Hj. apply join_sep_nonempty.
      apply proper_name_spec. assumption.
    + apply (f_equal split_sep) in Heq.
      rewrite split_render in Heq by assumption. simpl in Heq. subst rel.
      inversion Hrel; subst. discriminate.
  - apply (f_equal rel_elems) in Heq.
    rewrite !rel_elems_render in Heq by (assumption || discriminate).
    assert (Hl : (e :: es) ++ rel = e :: es) by (destruct r; congruence).
    apply (f_equal (@length string)) in Hl. rewrite length_app in Hl.
    destruct rel; [congruence|simpl in Hl; lia].
Qed.

Lemma render_not_dot r es : NF r es -> es <> [] -> render r es <> ".".
Proof.
  intros H Hne Heq. apply (f_equal split_sep) in Heq.
  rewrite split_render in Heq by assumption.
  destruct r; [destruct es; discriminate|].
  simpl in Heq. subst es. apply (NF_not_dot false ["."] H). left. reflexivity.
Qed.

(** [Rel] on cleaned paths, when the base is a prefix of the target. *)
Lemma Rel_prefix b t rest :
  Clean b = b -> Clean t = t -> t <> b ->
  has_slash_prefix (if String.eqb b "." then "" else b) = has_slash_prefix t ->
  strip_common (rel_elems (if String.eqb b "." then "" else b)) (rel_elems t)
  = ([], rest) ->
  Rel b t = Some (join_sep rest).
Proof.
  intros Hb Ht Hneq Hpre Hstrip. unfold Rel. rewrite Hb, Ht.
  apply String.eqb_neq in Hneq. rewrite Hneq, Hpre, Bool.eqb_reflx, Hstrip.
  reflexivity.
Qed.

(** What [Rel] answers for a path under its base. *)
Lemma Rel_under r es rel :
  NF r es -> Forall (fun e => proper_name e = true) rel -> rel <> [] ->
  Rel (render r es) (render r (es ++ rel)) = Some (join_sep rel).
Proof.
  intros H Hrel Hne.
  assert (Hnf' : NF r (es ++ rel)) by (apply NF_app; assumption).
  assert (Hne' : es ++ rel <> []) by (destruct es, rel; simpl; congruence).
  pose proof (render_under_neq r es rel H Hrel Hne) as Hneq.
  destruct (render_facts r (es ++ rel) Hnf') as (_ & Hpre' & _).
  destruct (render_facts r es H) as (_ & Hpre & _).
  apply Rel_prefix; try (apply Clean_render; assumption); try assumption.
  - destruct es as [|e es].
    + rewrite Hpre'. destruct r; reflexivity.
    + assert (Hd : render r (e :: es) <> ".")
        by (apply render_not_dot; [assumption|discriminate]).
      apply String.eqb_neq in Hd. rewrite Hd, Hpre, Hpre'. reflexivity.
  - rewrite (rel_elems_render r (es ++ rel)) by assumption.
    destruct es as [|e es].
    + destruct r.
      * change (rel_elems (if String.eqb (render true []) "." then ""
                           else render true [])) with [""].
        apply (strip_common_app [""] rel).
      * change (rel_elems (if String.eqb (render false []) "." then ""
                           else render false [])) with (@nil string).
        apply (strip_common_app [] rel).
    + assert (Hd : render r (e :: es) <> ".")
        by (apply render_not_dot; [assumption|discriminate]).
      apply String.eqb_neq in Hd. rewrite Hd.
      rewrite rel_elems_render by (assumption || discriminate).
      destruct r.
      * apply (strip_common_app ("" :: e :: es) rel).
      * apply (strip_common_app (e :: es) rel).
Qed.

Lemma Rel_self p : Rel p p = Some ".".
Proof. unfold Rel. rewrite String.eqb_refl. reflexivity. Qed.

Lemma Base_render r es :
  NF r es ->
  Base (render r es) =
  match rev es with
  | [] => if r then "/" else "."
  | e :: _ => e
  end.
Proof.
  intros H. destruct es as [|a es _] using rev_ind.
  - destruct r; reflexivity.
  - assert (Hne : es ++ [a] <> []) by (destruct es; discriminate).
    destruct (render_facts r _ H) as (Hn & _ & _).
    pose proof (split_render r _ H Hne) as Hs.
    pose proof (NF_elems r _ H) as Hel.
    apply List.Forall_app in Hel as [_ Ha]. inversion Ha as [|? ? [Ha' _] _]; subst.
    apply String.eqb_neq in Hn, Ha'.
    unfold Base, strip_trailing. rewrite Hn, Hs, rev_involutive, rev_app_distr.
    destruct r; simpl.
    + rewrite rev_app_distr. simpl. rewrite Ha'. reflexivity.
    + rewrite rev_app_distr. simpl. rewrite Ha'. reflexivity.
Qed.

(** The base name of a cleaned path is itself a cleaned path of at most one
    element. *)
Lemma Base_cleaned p :
  cleaned p -> exists r bs, NF r bs /\ Base p = render r bs.
Proof.
  intros (r & es & H & ->). rewrite (Base_render r es H).
  destruct (rev es) as [|e tl] eqn:E.
  - exists r, []. split; [apply NF_nil|]. destruct r; reflexivity.
  - assert (Hin : In e es) by (apply in_rev; rewrite E; left; reflexivity).
    destruct (NF_In r es e H Hin) as [->|He].
    + exists false, [".."]. split; [|reflexivity].
      exists 1, []. split_and!; auto. discriminate.
    + exists false, [e]. split; [|reflexivity].
      exists 0, [e]. split_and!; auto.
Qed.

End RelFacts.

(** ** The walk over a readable tree *)

Section WalkFacts.
Import Str filepath.

(** Induction over trees, with the hypothesis for every listed child. *)
Lemma node_tree_ind (P : node -> Prop) :
  (forall p d o, P (NFile p d o)) ->
  (forall p r es, Forall (fun e => P (snd e)) es -> P (NDir p r es)) ->
  (forall k p, P (NOther k p)) ->
  (forall e, P (NBroken e)) ->
  forall n, P n.
Proof.
  intros HF HD HO HB. fix IH 1. intros [p d o|p r es|k p|e].
  - apply HF.
  - apply HD. induction es as [|[nm c] es IHes]; constructor.
    + apply IH.
    + exact IHes.
  - apply HO.
  - apply HB.
Qed.

Lemma join_sep_not_dot rel :
  Forall (fun e => proper_name e = true) rel -> rel <> [] ->
  join_sep rel <> ".".
Proof.
  intros Hrel Hne.
  assert (H : NF false rel) by (exists 0, rel; split_and!; auto).
  pose proof (render_not_dot false rel H Hne) as Hd.
  destruct rel; [congruence|exact Hd].
Qed.

Lemma FileInfoHeader_archivable nm n link :
  archivable n = true ->
  exists h,
    tar.FileInfoHeader {| fi_Name := nm; fi_node := n |} link = inr h /\
    tar.Typeflag_ h = typeflag_of n /\
    tar.Linkname h = match n with NOther KSymlink _ => link | _ => "" end /\
    tar.Size_ h = fi_Size n /\ tar.Mode h = Perm n.
Proof.
  intros Ha. destruct n as [p d [e|]|p [e|] es|[] p|e]; try discriminate;
    eexists; (split; [reflexivity|]); simpl; auto.
Qed.

Lemma append_body_last (es : list tar.Entry) h b0 b :
  tar.append_body b (es ++ [{| tar.header := h; tar.body := b0 |}])
  = es ++ [{| tar.header := h; tar.body := b0 ++ b |}].
Proof.
  unfold tar.append_body. rewrite rev_app_distr. simpl.
  rewrite rev_involutive. reflexivity.
Qed.

Lemma WriteHeader_ok hdr tw :
  tar.owed tw = 0%Z -> (0 <= tar.Size_ hdr)%Z ->
  tar.WriteHeader hdr tw
  = inr {| tar.members :=
             tar.members tw ++ [{| tar.header := hdr; tar.body := [] |}];
           tar.owed :=
             if tar.header_only (tar.Typeflag_ hdr) then 0%Z
             else tar.Size_ hdr |}.
Proof.
  intros Hw Hs. unfold tar.WriteHeader. rewrite Hw.
  apply Z.ltb_ge in Hs. rewrite Hs. reflexivity.
Qed.

Lemma Write_exact ms h b0 b :
  tar.Write b {| tar.members := ms ++ [{| tar.header := h; tar.body := b0 |}];
                 tar.owed := Z.of_nat (length b) |}
  = (None, {| tar.members := ms ++ [{| tar.header := h; tar.body := b0 ++ b |}];
              tar.owed := 0 |}).
Proof.
  unfold tar.Write. simpl tar.owed. simpl tar.members.
  rewrite Z.ltb_irrefl, append_body_last, Z.sub_diag. reflexivity.
Qed.

(** The closure leaves the writer alone when it is handed the root. *)
Lemma archiveFn_root src base flag fi err tw :
  snd (V1.archiveFn src base flag src fi err tw) = tw.
Proof.
  unfold V1.archiveFn. destruct err; [reflexivity|].
  destruct (tar.FileInfoHeader fi (fi_Name fi)); [reflexivity|].
  rewrite Rel_self. reflexivity.
Qed.

Lemma archiveFn_root_ok src base flag nm n tw :
  archivable n = true ->
  V1.archiveFn src base flag src {| fi_Name := nm; fi_node := n |} None tw
  = (None, tw).
Proof.
  intros Ha. destruct (FileInfoHeader_archivable nm n nm Ha) as (h & Hh & _).
  unfold V1.archiveFn. cbv beta iota. simpl fi_Name. rewrite Hh, Rel_self.
  reflexivity.
Qed.

(** What the closure writes for an entry below the root. *)
Lemma archiveFn_entry r es base flag rel n tw :
  NF r es -> Forall (fun e => proper_name e = true) rel -> rel <> [] ->
  archivable n = true -> tar.owed tw = 0%Z ->
  V1.archiveFn (render r es) base flag (render r (es ++ rel))
    {| fi_Name := List.last rel ""; fi_node := n |} None tw
  = (None,
     {| tar.members :=
          tar.members tw ++
          [member_for (archive_name flag base (join_sep rel)) (rel, n)];
        tar.owed := 0 |}).
Proof.
  intros Hnf Hrel Hne Ha Hw.
  destruct (FileInfoHeader_archivable (List.last rel "") n (List.last rel "") Ha)
    as (h & Hh & Ht & Hl & Hs & Hm).
  pose proof (join_sep_not_dot rel Hrel Hne) as Hd. apply String.eqb_neq in Hd.
  unfold V1.archiveFn. cbv beta iota. simpl fi_Name. simpl fi_node.
  rewrite Hh, (Rel_under r es rel Hnf Hrel Hne), Hd.
  set (name := if flag then join_sep rel else Join [base; join_sep rel]).
  replace (if flag then tar.with_Name h (join_sep rel)
           else tar.with_Name h (Join [base; join_sep rel]))
    with (tar.with_Name h name) by (destruct flag; reflexivity).
  assert (Hname : archive_name flag base (join_sep rel) = name) by reflexivity.
  rewrite Hname.
  assert (Hhdr : tar.with_Name h name
                 = tar.header (member_for name (rel, n))).
  { destruct h as [t nm' ln sz md]. simpl in *. subst.
    unfold tar.with_Name, member_for. simpl. reflexivity. }
  assert (Hsz : (0 <= tar.Size_ (tar.with_Name h name))%Z).
  { unfold tar.with_Name. simpl. rewrite Hs. destruct n; simpl; lia. }
  rewrite (WriteHeader_ok _ _ Hw Hsz).
  destruct n as [p d [e|]|p [e|] ents|k p|e]; try discriminate.
  - (* regular file *)
    simpl IsRegular. cbv iota. simpl Open. cbv iota.
    assert (Ho : tar.Size_ (tar.with_Name h name) = Z.of_nat (length d))
      by (unfold tar.with_Name; simpl; rewrite Hs; reflexivity).
    assert (Hf : tar.header_only (tar.Typeflag_ (tar.with_Name h name)) = false)
      by (unfold tar.with_Name; simpl; rewrite Ht; reflexivity).
    rewrite Hf, Ho, Write_exact, Hhdr. reflexivity.
  - (* directory *)
    simpl IsRegular. cbv iota.
    assert (Hf : tar.header_only (tar.Typeflag_ (tar.with_Name h name)) = true)
      by (unfold tar.with_Name; simpl; rewrite Ht; reflexivity).
    rewrite Hf, Hhdr. reflexivity.
  - (* symbolic link, pipe, device *)
    simpl IsRegular. cbv iota.
    assert (Hf : tar.header_only (tar.Typeflag_ (tar.with_Name h name)) = true)
      by (unfold tar.with_Name; simpl; rewrite Ht; destruct k;
          try reflexivity; discriminate).
    rewrite Hf, Hhdr. reflexivity.
Qed.

End WalkFacts.

Section WalkTree.
Import Str filepath.

Variables (r : bool) (es : list string) (base : string) (flag : bool).
Hypothesis Hnf : NF r es.

Let fn := V1.archiveFn (render r es) base flag.
Let mk (d : list string * node) : tar.Entry :=
  member_for (archive_name flag base (rel_path d)) d.
Let self (rel : list string) (n : node) : list tar.Entry :=
  match rel with [] => [] | _ => [mk (rel, n)] end.

Lemma readable_dir p re ents :
  readable (NDir p re ents) =
  archivable (NDir p re ents) && forallb (fun e => readable (snd e)) ents.
Proof. reflexivity. Qed.

Lemma wf_names_dir p re ents :
  wf_names (NDir p re ents) =
  forallb (fun e => proper_name (fst e) && wf_names (snd e)) ents.
Proof. reflexivity. Qed.

Lemma below_dir rel p re ents :
  below rel (NDir p re ents) =
  flat_map (fun e => (rel ++ [fst e], snd e) :: below (rel ++ [fst e]) (snd e))
           ents.
Proof. reflexivity. Qed.

Lemma readable_archivable n : readable n = true -> archivable n = true.
Proof.
  destruct n; simpl; try tauto; rewrite ?andb_true_iff; tauto.
Qed.

Lemma walk_children_step (rec : string -> string -> node -> tar.Writer ->
                                option error * tar.Writer)
  path nm c rest st :
  archivable c = true ->
  walk_children fn rec path ((nm, c) :: rest) st =
  let '(err, st') := rec (Join [path; nm]) nm c st in
  match err with
  | Some err' =>
      if negb (IsDir c) || negb (is_SkipDir err') then (Some err', st')
      else walk_children fn rec path rest st'
  | None => walk_children fn rec path rest st'
  end.
Proof. destruct c; try discriminate; reflexivity. Qed.

Lemma walk_leaf path nm n (st : tar.Writer) :
  IsDir n = false ->
  walk fn path nm n st = fn path {| fi_Name := nm; fi_node := n |} None st.
Proof. destruct n; try discriminate; reflexivity. Qed.

Lemma walk_dir path nm p re ents (st : tar.Writer) :
  walk fn path nm (NDir p re ents) st =
  let '(err1, st1) :=
    fn path {| fi_Name := nm; fi_node := NDir p re ents |}
       (option_map ErrOS re) st in
  match re, err1 with
  | None, None => walk_children fn (walk fn) path ents st1
  | _, _ => (err1, st1)
  end.
Proof. reflexivity. Qed.

Lemma walk_self rel nm n tw :
  Forall (fun e => proper_name e = true) rel -> archivable n = true ->
  tar.owed tw = 0%Z -> (rel <> [] -> nm = List.last rel "") ->
  fn (render r (es ++ rel)) {| fi_Name := nm; fi_node := n |} None tw
  = (None, {| tar.members := tar.members tw ++ self rel n; tar.owed := 0 |}).
Proof.
  intros Hrel Ha Hw Hnm. destruct rel as [|x rel].
  - rewrite app_nil_r. unfold fn. rewrite archiveFn_root_ok by assumption.
    destruct tw as [ms ow]. simpl in *. subst ow. rewrite app_nil_r. reflexivity.
  - rewrite Hnm by discriminate. unfold fn.
    rewrite archiveFn_entry by (assumption || discriminate). reflexivity.
Qed.

Lemma walk_archive n :
  forall rel nm tw,
    Forall (fun e => proper_name e = true) rel ->
    wf_names n = true -> readable n = true -> tar.owed tw = 0%Z ->
    (rel <> [] -> nm = List.last rel "") ->
    walk fn (render r (es ++ rel)) nm n tw
    = (None, {| tar.members :=
                  tar.members tw ++ self rel n ++ map mk (below rel n);
                tar.owed := 0 |}).
Proof.
  induction n as [p d o|p re ents IHents|k p|e] using node_tree_ind;
    intros rel nm tw Hrel Hwf Hrd Hw Hnm.
  - rewrite walk_leaf, walk_self by (auto using readable_archivable).
    simpl below. rewrite app_nil_r. reflexivity.
  - pose proof (readable_archivable _ Hrd) as Ha.
    destruct re as [e|]; [discriminate|].
    rewrite readable_dir, andb_true_iff in Hrd. destruct Hrd as [_ Hrd].
    rewrite wf_names_dir in Hwf. rewrite below_dir.
    rewrite walk_dir.
    rewrite walk_self by assumption. cbv iota beta.
    set (tw1 := {| tar.members := tar.members tw ++ self rel (NDir p None ents);
                   tar.owed := 0 |}).
    assert (Hw1 : tar.owed tw1 = 0%Z) by reflexivity.
    replace (tar.members tw ++ self rel (NDir p None ents) ++
             map mk (flat_map (fun e => (rel ++ [fst e], snd e)
                                 :: below (rel ++ [fst e]) (snd e)) ents))
      with (tar.members tw1 ++
            map mk (flat_map (fun e => (rel ++ [fst e], snd e)
                                :: below (rel ++ [fst e]) (snd e)) ents))
      by (unfold tw1; simpl; rewrite <- app_assoc; reflexivity).
    clearbody tw1. clear Hw Ha tw Hnm.
    revert tw1 Hw1. induction ents as [|[nm' c] rest IHrest]; intros tw1 Hw1.
    + simpl. destruct tw1 as [ms ow]. simpl in *. subst ow.
      rewrite app_nil_r. reflexivity.
    + cbn [forallb fst snd] in Hwf, Hrd.
      apply andb_true_iff in Hwf as [Hwf1 Hwfr].
      apply andb_true_iff in Hwf1 as [Hnm' Hwfc].
      apply andb_true_iff in Hrd as [Hrc Hrr].
      inversion IHents as [|? ? IHc IHr]; subst. simpl in IHc.
      rewrite walk_children_step by (apply readable_archivable; assumption).
      rewrite Join_child by (auto using NF_app).
      rewrite <- app_assoc.
      assert (Hrel' : Forall (fun e => proper_name e = true) (rel ++ [nm']))
        by (apply List.Forall_app; split; [assumption|repeat constructor; assumption]).
      rewrite (IHc (rel ++ [nm']) nm' tw1 Hrel' Hwfc Hrc Hw1)
        by (intros _; rewrite last_last; reflexivity).
      cbv iota beta. rewrite IHrest by (assumption || reflexivity).
      simpl tar.members. f_equal. f_equal. simpl flat_map.
      assert (Hs : self (rel ++ [nm']) c = [mk (rel ++ [nm'], c)])
        by (unfold self; destruct rel; reflexivity).
      rewrite Hs. simpl. rewrite map_app, <- !app_assoc. reflexivity.
  - rewrite walk_leaf, walk_self by (auto using readable_archivable).
    simpl below. rewrite app_nil_r. reflexivity.
  - discriminate.
Qed.

End WalkTree.

Section Archive.
Import Str filepath.

(** [createTarArchive] on a readable tree: one member for every entry below
    the root, in the order of the walk. *)
Lemma createTarArchive_members h srcPath flag :
  let src := Clean srcPath in
  wf_names (os_Lstat h src) = true -> readable (os_Lstat h src) = true ->
  V1.createTarArchive h srcPath flag
  = ([EvWalk src],
     inr (map (fun d => member_for (archive_name flag (Base src) (rel_path d)) d)
              (descendants (os_Lstat h src)))).
Proof.
  intros src Hwf Hrd. destruct (Clean_cleaned srcPath) as (r & es & Hnf & Hsrc).
  fold src in Hsrc.
  pose proof (walk_archive r es (Base src) flag Hnf (os_Lstat h src) []
                (Base src) tar.NewWriter (List.Forall_nil _) Hwf Hrd eq_refl) as Hwalk.
  rewrite app_nil_r, <- Hsrc in Hwalk. simpl in Hwalk.
  specialize (Hwalk ltac:(congruence)).
  unfold V1.createTarArchive, Walk. fold src.
  destruct (os_Lstat h src) eqn:En; try discriminate;
    rewrite Hwalk; reflexivity.
Qed.

Lemma V2_archiveFn_eq src base : V2.archiveFn src base = V1.archiveFn src base false.
Proof. reflexivity. Qed.

Lemma V2_createTarArchive_eq h srcPath :
  V2.createTarArchive h srcPath = V1.createTarArchive h srcPath false.
Proof. reflexivity. Qed.

End Archive.

(** ** The walk over a tree that cannot be read *)

Section WalkFails.
Import Str filepath.

Variables (r : bool) (es : list string) (base : string) (flag : bool).
Hypothesis Hnf : NF r es.

Lemma walk_children_broken (rec : string -> string -> node -> tar.Writer ->
                                  option error * tar.Writer)
  path nm msg rest st :
  walk_children (V1.archiveFn (render r es) base flag) rec path ((nm, NBroken msg) :: rest) st
  = (Some (ErrOS msg), st).
Proof. reflexivity. Qed.

Lemma walk_children_next (rec : string -> string -> node -> tar.Writer ->
                                option error * tar.Writer)
  path nm c rest st :
  (forall msg, c <> NBroken msg) ->
  walk_children (V1.archiveFn (render r es) base flag) rec path ((nm, c) :: rest) st =
  let '(err, st') := rec (Join [path; nm]) nm c st in
  match err with
  | Some err' =>
      if negb (IsDir c) || negb (is_SkipDir err') then (Some err', st')
      else walk_children (V1.archiveFn (render r es) base flag) rec path rest st'
  | None => walk_children (V1.archiveFn (render r es) base flag) rec path rest st'
  end.
Proof. intros Hc. destruct c; try reflexivity. exfalso. eapply Hc. reflexivity. Qed.

Lemma archiveFn_unopenable rel p d msg tw :
  Forall (fun e => proper_name e = true) rel -> rel <> [] ->
  tar.owed tw = 0%Z ->
  exists tw',
    (V1.archiveFn (render r es) base flag) (render r (es ++ rel))
       {| fi_Name := List.last rel ""; fi_node := NFile p d (Some msg) |} None tw
    = (Some (ErrOS msg), tw').
Proof.
  intros Hrel Hne Hw.
  pose proof (join_sep_not_dot rel Hrel Hne) as Hd. apply String.eqb_neq in Hd.
  unfold V1.archiveFn. cbv beta iota.
  change (tar.FileInfoHeader
            {| fi_Name := List.last rel ""; fi_node := NFile p d (Some msg) |}
            (fi_Name {| fi_Name := List.last rel "";
                        fi_node := NFile p d (Some msg) |}))
    with (@inr error _
            {| tar.Typeflag_ := tar.TypeReg; tar.Name := List.last rel "";
               tar.Linkname := ""; tar.Size_ := Z.of_nat (length d);
               tar.Mode := p |}).
  cbv beta iota. rewrite (Rel_under r es rel Hnf Hrel Hne), Hd.
  match goal with
  | |- context [tar.WriteHeader ?h tw] =>
      rewrite (WriteHeader_ok h tw Hw)
        by (destruct flag; simpl; lia)
  end.
  eexists. reflexivity.
Qed.

Lemma walk_fails n :
  forall rel nm tw,
    Forall (fun e => proper_name e = true) rel ->
    wf_names n = true -> readable n = false -> tar.owed tw = 0%Z ->
    (rel <> [] -> nm = List.last rel "") ->
    (rel = [] -> IsRegular n = false) ->
    exists e tw',
      walk (V1.archiveFn (render r es) base flag) (render r (es ++ rel)) nm n tw = (Some e, tw') /\
      is_SkipDir e = false /\ is_SkipAll e = false.
Proof.
  induction n as [p d o|p re ents IHents|k p|msg] using node_tree_ind;
    intros rel nm tw Hrel Hwf Hrd Hw Hnm Hroot.
  - destruct o as [msg|]; [|discriminate].
    destruct rel as [|x rel]; [specialize (Hroot eq_refl); discriminate|].
    rewrite (walk_leaf r es base flag) by reflexivity.
    rewrite Hnm by discriminate.
    destruct (archiveFn_unopenable (x :: rel) p d msg tw Hrel ltac:(discriminate) Hw)
      as (tw' & ->).
    exists (ErrOS msg), tw'. auto.
  - rewrite (walk_dir r es base flag).
    destruct re as [msg|].
    + exists (ErrOS msg), tw. auto.
    + rewrite readable_dir in Hrd. simpl archivable in Hrd. simpl andb in Hrd.
      rewrite wf_names_dir in Hwf. simpl option_map.
      rewrite (walk_self r es base flag Hnf) by (assumption || reflexivity).
      cbv iota beta.
      match goal with
      | |- context [walk_children _ _ _ _ ?t] =>
          assert (Hw1 : tar.owed t = 0%Z) by reflexivity; generalize dependent t
      end.
      clear Hw Hnm Hroot tw.
      induction ents as [|[nm' c] rest IHrest]; intros tw1 Hw1; [discriminate|].
      cbn [forallb fst snd] in Hwf, Hrd.
      apply andb_true_iff in Hwf as [Hwf1 Hwfr].
      apply andb_true_iff in Hwf1 as [Hnm' Hwfc].
      pose proof (List.Forall_inv IHents) as IHc. simpl in IHc.
      pose proof (List.Forall_inv_tail IHents) as IHr.
      assert (Hrel' : Forall (fun e => proper_name e = true) (rel ++ [nm']))
        by (apply List.Forall_app; split;
            [assumption|repeat constructor; assumption]).
      assert (Hlast : rel ++ [nm'] <> [] -> nm' = List.last (rel ++ [nm']) "")
        by (intros _; rewrite last_last; reflexivity).
      assert (Hnil : rel ++ [nm'] = [] -> IsRegular c = false)
        by (intros E; destruct rel; discriminate).
      destruct (readable c) eqn:Hrc.
      * rewrite walk_children_next by (intros m ->; discriminate).
        rewrite Join_child, <- app_assoc by (auto using NF_app).
        rewrite (walk_archive r es base flag Hnf c (rel ++ [nm']) nm' tw1
                   Hrel' Hwfc Hrc Hw1 Hlast).
        cbv iota beta. simpl in Hrd.
        apply (IHrest IHr Hwfr Hrd). reflexivity.
      * assert (Hb : (exists m, c = NBroken m) \/ (forall m, c <> NBroken m))
          by (destruct c; eauto; right; discriminate).
        destruct Hb as [[m ->]|Hb].
        -- rewrite walk_children_broken. exists (ErrOS m), tw1. auto.
        -- rewrite walk_children_next by assumption.
           rewrite Join_child, <- app_assoc by (auto using NF_app).
           destruct (IHc (rel ++ [nm']) nm' tw1 Hrel' Hwfc eq_refl Hw1 Hlast Hnil)
             as (e & tw' & -> & Hsd & Hsa).
           cbv iota beta. rewrite Hsd, orb_true_r.
           exists e, tw'. auto.
  - rewrite (walk_leaf r es base flag) by reflexivity.
    destruct k; try discriminate; eexists; eexists;
      (split; [reflexivity|auto]).
  - rewrite (walk_leaf r es base flag) by reflexivity.
    eexists; eexists; (split; [reflexivity|auto]).
Qed.

End WalkFails.

Section ArchiveSound.
Import Str filepath.

Lemma archiveFn_root_header src base flag fi h tw :
  tar.FileInfoHeader fi (fi_Name fi) = inr h ->
  V1.archiveFn src base flag src fi None tw = (None, tw).
Proof.
  intros Hh. unfold V1.archiveFn. rewrite Hh, Rel_self. reflexivity.
Qed.

(** Whatever archive [createTarArchive] returns, it holds one member for
    every entry below the root, in the order of the walk. *)
Lemma createTarArchive_sound h srcPath flag a :
  wf_names (os_Lstat h (Clean srcPath)) = true ->
  snd (V1.createTarArchive h srcPath flag) = inr a ->
  a = map (fun d => member_for
                      (archive_name flag (Base (Clean srcPath)) (rel_path d)) d)
          (descendants (os_Lstat h (Clean srcPath))).
Proof.
  intros Hwf Ha.
  destruct (readable (os_Lstat h (Clean srcPath))) eqn:Hrd.
  - rewrite (createTarArchive_members h srcPath flag Hwf Hrd) in Ha.
    simpl in Ha. congruence.
  - destruct (Clean_cleaned srcPath) as (r & es & Hnf & Hsrc).
    revert Ha. unfold V1.createTarArchive, Walk.
    destruct (os_Lstat h (Clean srcPath)) as [p d o|p re ents|k p|msg] eqn:En.
    + rewrite Hsrc, (walk_leaf r es) by reflexivity.
      rewrite (archiveFn_root_header _ _ _ _
                 {| tar.Typeflag_ := tar.TypeReg; tar.Name := Base (render r es);
                    tar.Linkname := ""; tar.Size_ := Z.of_nat (length d);
                    tar.Mode := p |}) by reflexivity.
      simpl. intros [= <-]. reflexivity.
    + rewrite Hsrc.
      destruct (walk_fails r es (Base (render r es)) flag Hnf (NDir p re ents)
                  [] (Base (render r es)) tar.NewWriter (List.Forall_nil _)
                  Hwf Hrd eq_refl ltac:(congruence) ltac:(reflexivity))
        as (e & tw' & Hwalk & Hsd & Hsa).
      rewrite app_nil_r in Hwalk. rewrite Hwalk, Hsd, Hsa. simpl. discriminate.
    + rewrite Hsrc.
      destruct (walk_fails r es (Base (render r es)) flag Hnf (NOther k p)
                  [] (Base (render r es)) tar.NewWriter (List.Forall_nil _)
                  Hwf Hrd eq_refl ltac:(congruence) ltac:(reflexivity))
        as (e & tw' & Hwalk & Hsd & Hsa).
      rewrite app_nil_r in Hwalk. rewrite Hwalk, Hsd, Hsa. simpl. discriminate.
    + simpl. discriminate.
Qed.

End ArchiveSound.

(** ** Names of archive members *)

Section NameFacts.
Import Str filepath.

Lemma below_names n :
  forall rel,
    Forall (fun e => proper_name e = true) rel -> wf_names n = true ->
    Forall (fun d => Forall (fun e => proper_name e = true) (fst d) /\ fst d <> [])
           (below rel n).
Proof.
  induction n as [p d o|p re ents IHents|k p|msg] using node_tree_ind;
    intros rel Hrel Hwf; try (constructor; fail).
  rewrite below_dir. rewrite wf_names_dir in Hwf.
  induction ents as [|[nm c] rest IHrest]; [constructor|].
  cbn [forallb fst snd] in Hwf.
  apply andb_true_iff in Hwf as [Hwf1 Hwfr].
  apply andb_true_iff in Hwf1 as [Hnm Hwfc].
  pose proof (List.Forall_inv IHents) as IHc. simpl in IHc.
  pose proof (List.Forall_inv_tail IHents) as IHr.
  assert (Hrel' : Forall (fun e => proper_name e = true) (rel ++ [nm]))
    by (apply List.Forall_app; split; [assumption|repeat constructor; assumption]).
  cbn [flat_map fst snd]. constructor.
  - split; [exact Hrel'|]. destruct rel; discriminate.
  - apply List.Forall_app. split; [apply IHc; assumption|].
    apply IHrest; assumption.
Qed.

Lemma descendants_names n :
  wf_names n = true ->
  Forall (fun d => Forall (fun e => proper_name e = true) (fst d) /\ fst d <> [])
         (descendants n).
Proof. apply below_names. constructor. Qed.

Lemma Join_dot r es : NF r es -> Join [render r es; "."] = render r es.
Proof.
  intros H. destruct (render_facts r es H) as (Hne & Hpre & Hfold).
  unfold Join. pose proof Hne as Hne0. apply String.eqb_neq in Hne. rewrite Hne.
  change (join_sep [render r es; "."]) with (render r es +:+ "/" +:+ ".").
  unfold Clean, clean_elems.
  assert (Hne' : render r es +:+ "/" +:+ "." <> "")
    by (apply append_nonempty; exact Hne0).
  apply String.eqb_neq in Hne'. rewrite Hne'.
  rewrite has_slash_prefix_app, Hpre by exact Hne0.
  rewrite split_sep_app, fold_left_app, Hfold.
  change (fold_left (clean_step r) (split_sep ".") (rev es)) with (rev es).
  rewrite rev_involutive. reflexivity.
Qed.

(** A member's path relative to the top of the archive is the path of its
    entry relative to the root of the walk. *)
Lemma archive_name_Rel src flag rel :
  cleaned src -> Forall (fun e => proper_name e = true) rel -> rel <> [] ->
  Rel (archive_top flag (Base src)) (archive_name flag (Base src) (join_sep rel))
  = Some (join_sep rel).
Proof.
  intros Hsrc Hrel Hne. destruct flag; unfold archive_top, archive_name.
  - pose proof (Rel_under false [] rel (NF_nil false) Hrel Hne) as H.
    simpl app in H. change (render false []) with "." in H.
    destruct rel; [congruence|exact H].
  - destruct (Base_cleaned src Hsrc) as (r & bs & Hnf & ->).
    rewrite Join_under by assumption. apply Rel_under; assumption.
Qed.

(** No member below the root gets the name the root would get. *)
Lemma archive_name_not_root src flag rel :
  cleaned src -> Forall (fun e => proper_name e = true) rel -> rel <> [] ->
  archive_name flag (Base src) (join_sep rel) <> archive_name flag (Base src) ".".
Proof.
  intros Hsrc Hrel Hne. destruct flag; unfold archive_name.
  - apply join_sep_not_dot; assumption.
  - destruct (Base_cleaned src Hsrc) as (r & bs & Hnf & ->).
    rewrite Join_under, Join_dot by assumption.
    apply render_under_neq; assumption.
Qed.

End NameFacts.

(** * The stated properties *)

Section ArchiveClaims.
Import Str filepath.

Lemma members_match src flag ds :
  cleaned src ->
  Forall (fun d => Forall (fun e => proper_name e = true) (fst d) /\ fst d <> [])
         ds ->
  Forall2 (entry_matches (archive_top flag (Base src)))
          (map (fun d => member_for (archive_name flag (Base src) (rel_path d)) d)
               ds)
          ds.
Proof.
  intros Hsrc Hds. induction Hds as [|d ds [Hp Hne] _ IH]; [constructor|].
  simpl map. constructor; [|exact IH].
  split_and!; try reflexivity.
  apply archive_name_Rel; assumption.
Qed.

Lemma members_not_root src flag ds :
  cleaned src ->
  Forall (fun d => Forall (fun e => proper_name e = true) (fst d) /\ fst d <> [])
         ds ->
  Forall (fun e =>
            tar.Name (tar.header e) <> archive_name flag (Base src) "." /\
            Rel (archive_top flag (Base src)) (tar.Name (tar.header e))
            <> Some ".")
         (map (fun d => member_for (archive_name flag (Base src) (rel_path d)) d)
              ds).
Proof.
  intros Hsrc Hds. induction Hds as [|d ds [Hp Hne] _ IH]; [constructor|].
  simpl map. constructor; [|exact IH]. simpl. split.
  - apply archive_name_not_root; assumption.
  - unfold rel_path. rewrite archive_name_Rel by assumption.
    intros [= E]. revert E. apply join_sep_not_dot; assumption.
Qed.

Lemma members_names ds (f : list string * node -> string) :
  map (fun e => tar.Name (tar.header e)) (map (fun d => member_for (f d) d) ds)
  = map f ds.
Proof. rewrite map_map. reflexivity. Qed.

(** C1.  For every source tree (with names a directory can hold), whatever
    archive [createTarArchive] returns holds exactly one member per entry
    below the root, in the order of the walk: the path of the member from
    the top of the archive is the path of the entry from the root, and its
    body is the content of the entry, so a regular file keeps its bytes.
    In contents-only mode the member names are the relative paths
    themselves; in nested mode the top of the archive is the base name of
    the source directory.  This holds for both revisions, and on a tree
    where nothing fails to be read the archive is returned.  The tree is
    the one [Lstat] reports at the cleaned source path, as the walk sees
    it. *)
Theorem C1_archive_matches_tree (h : Host) (srcPath : string) :
  wf_names (os_Lstat h (Clean srcPath)) = true ->
  (forall flag a,
      snd (V1.createTarArchive h srcPath flag) = inr a ->
      Forall2 (entry_matches (archive_top flag (Base (Clean srcPath)))) a
              (descendants (os_Lstat h (Clean srcPath))) /\
      (flag = true ->
       map (fun e => tar.Name (tar.header e)) a
       = map rel_path (descendants (os_Lstat h (Clean srcPath))))) /\
  (forall a,
      snd (V2.createTarArchive h srcPath) = inr a ->
      Forall2 (entry_matches (Base (Clean srcPath))) a
              (descendants (os_Lstat h (Clean srcPath)))) /\
  (readable (os_Lstat h (Clean srcPath)) = true ->
   (forall flag, exists a, snd (V1.createTarArchive h srcPath flag) = inr a) /\
   (exists a, snd (V2.createTarArchive h srcPath) = inr a)).
Proof.
  intros Hwf.
  pose proof (Clean_cleaned srcPath) as Hc.
  pose proof (descendants_names _ Hwf) as Hds.
  assert (HV1 : forall flag a,
             snd (V1.createTarArchive h srcPath flag) = inr a ->
             Forall2 (entry_matches (archive_top flag (Base (Clean srcPath)))) a
                     (descendants (os_Lstat h (Clean srcPath))) /\
             (flag = true ->
              map (fun e => tar.Name (tar.header e)) a
              = map rel_path (descendants (os_Lstat h (Clean srcPath))))).
  { intros flag a Ha.
    rewrite (createTarArchive_sound h srcPath flag a Hwf Ha). split.
    - apply members_match; assumption.
    - intros ->. apply members_names. }
  split_and!.
  - exact HV1.
  - intros a Ha. rewrite V2_createTarArchive_eq in Ha.
    exact (proj1 (HV1 false a Ha)).
  - intros Hrd. split.
    + intros flag. eexists.
      rewrite (createTarArchive_members h srcPath flag Hwf Hrd). reflexivity.
    + eexists. rewrite V2_createTarArchive_eq.
      rewrite (createTarArchive_members h srcPath false Hwf Hrd). reflexivity.
Qed.

Lemma C1_archive_matches_tree_witness :
  exists a,
    snd (V1.createTarArchive Example.fs "/tmp/proj/" true) = inr a /\
    map (fun e => tar.Name (tar.header e)) a = ["a.txt"; "sub"; "sub/b.txt"] /\
    Forall2 (entry_matches ".") a (descendants Example.proj).
Proof.
  destruct (C1_archive_matches_tree Example.fs "/tmp/proj/" eq_refl)
    as (HV1 & _ & Hex).
  destruct (proj1 (Hex eq_refl) true) as (a & Ha).
  exists a. destruct (HV1 true a Ha) as (Hm & Hn).
  split; [exact Ha|]. split; [rewrite (Hn eq_refl); reflexivity|exact Hm].
Defined.

(** C2.  The archive never holds a member for the root of the walk.  The
    closure handed to the walk leaves the writer as it is whenever the path
    it is given is [.] relative to the source path, which is the case for
    the source path itself; and in whatever archive [createTarArchive]
    returns, in either mode and in both revisions, no member has the name
    the root would get, nor the path [.] from the top of the archive. *)
Theorem C2_root_never_archived (h : Host) (srcPath : string) :
  wf_names (os_Lstat h (Clean srcPath)) = true ->
  (forall base flag file fi err tw,
      Rel (Clean srcPath) file = Some "." ->
      snd (V1.archiveFn (Clean srcPath) base flag file fi err tw) = tw /\
      snd (V2.archiveFn (Clean srcPath) base file fi err tw) = tw) /\
  Rel (Clean srcPath) (Clean srcPath) = Some "." /\
  (forall flag a,
      snd (V1.createTarArchive h srcPath flag) = inr a ->
      Forall (fun e =>
                tar.Name (tar.header e)
                <> archive_name flag (Base (Clean srcPath)) "." /\
                Rel (archive_top flag (Base (Clean srcPath)))
                    (tar.Name (tar.header e)) <> Some ".") a) /\
  (forall a,
      snd (V2.createTarArchive h srcPath) = inr a ->
      Forall (fun e =>
                tar.Name (tar.header e) <> Join [Base (Clean srcPath); "."] /\
                Rel (Base (Clean srcPath)) (tar.Name (tar.header e))
                <> Some ".") a).
Proof.
  intros Hwf.
  pose proof (Clean_cleaned srcPath) as Hc.
  pose proof (descendants_names _ Hwf) as Hds.
  assert (HV1 : forall flag a,
             snd (V1.createTarArchive h srcPath flag) = inr a ->
             Forall (fun e =>
                       tar.Name (tar.header e)
                       <> archive_name flag (Base (Clean srcPath)) "." /\
                       Rel (archive_top flag (Base (Clean srcPath)))
                           (tar.Name (tar.header e)) <> Some ".") a).
  { intros flag a Ha.
    rewrite (createTarArchive_sound h srcPath flag a Hwf Ha).
    apply members_not_root; assumption. }
  split_and!.
  - intros base flag file fi err tw Hrel.
    assert (H1 : snd (V1.archiveFn (Clean srcPath) base flag file fi err tw) = tw).
    { unfold V1.archiveFn. destruct err; [reflexivity|].
      destruct (tar.FileInfoHeader fi (fi_Name fi)); [reflexivity|].
      rewrite Hrel. reflexivity. }
    split; [exact H1|]. rewrite V2_archiveFn_eq.
    unfold V1.archiveFn. destruct err; [reflexivity|].
    destruct (tar.FileInfoHeader fi (fi_Name fi)); [reflexivity|].
    rewrite Hrel. reflexivity.
  - apply Rel_self.
  - exact HV1.
  - intros a Ha. rewrite V2_createTarArchive_eq in Ha. exact (HV1 false a Ha).
Qed.

Lemma C2_root_never_archived_witness :
  Forall (fun e => tar.Name (tar.header e) <> "proj" /\
                   Rel "proj" (tar.Name (tar.header e)) <> Some ".")
         (map (fun d => member_for (Join ["proj"; rel_path d]) d)
              (descendants Example.proj)).
Proof.
  destruct (C2_root_never_archived Example.fs "/tmp/proj/" eq_refl)
    as (_ & _ & _ & HV2).
  exact (HV2 _ eq_refl).
Defined.

End ArchiveClaims.

(** ** The command runner *)

Section ExecClaims.

Lemma errMsg_of_empty stdout : errMsg_of "" stdout = stdout.
Proof. reflexivity. Qed.

(** The wait loop on a session that is reported running [k] times and then
    stopped with [code]. *)
Lemma waitExec_stops d execID stdout stderr code k :
  forall n fuel,
    (forall i, i < k -> exists c,
          ContainerExecInspect d execID (n + i) = inr (true, c)) ->
    ContainerExecInspect d execID (n + k) = inr (false, code) ->
    k < fuel ->
    exists tr,
      waitExec d execID stdout stderr fuel n
      = Some (tr,
              if (code =? 0)%Z then None
              else Some (ErrCommandExited code
                           (errMsg_of (stderr (n + k)) (stdout (n + k))))).
Proof.
  induction k as [|k IH]; intros n fuel Hrun Hstop Hfuel;
    (destruct fuel as [|fuel]; [lia|]).
  - rewrite Nat.add_0_r in *. simpl. rewrite Hstop. simpl.
    destruct (code =? 0)%Z; eexists; reflexivity.
  - destruct (Hrun 0 ltac:(lia)) as (c & Hc). rewrite Nat.add_0_r in Hc.
    simpl. rewrite Hc. simpl.
    destruct (IH (S n) fuel) as (tr & ->).
    + intros i Hi. destruct (Hrun (S i) ltac:(lia)) as (c' & Hc').
      exists c'. rewrite <- Hc'. f_equal. lia.
    + rewrite <- Hstop. f_equal. lia.
    + lia.
    + replace (S n + k) with (n + S k) by lia. eexists. reflexivity.
Qed.

(** Whatever exit error the wait loop returns was built from the buffers as
    they were when the session was reported stopped. *)
Lemma waitExec_exit_error d execID stdout stderr :
  forall fuel n tr code out,
    waitExec d execID stdout stderr fuel n
    = Some (tr, Some (ErrCommandExited code out)) ->
    exists k,
      ContainerExecInspect d execID k = inr (false, code) /\
      code <> 0%Z /\
      out = errMsg_of (stderr k) (stdout k).
Proof.
  induction fuel as [|fuel IH]; intros n tr code out H; [discriminate|].
  simpl in H.
  destruct (ContainerExecInspect d execID n) as [e|[running c]] eqn:Ei;
    [discriminate|].
  destruct running; simpl in H.
  - destruct (waitExec d execID stdout stderr fuel (S n)) as [[tr' r']|] eqn:Ew;
      [|discriminate].
    injection H as _ ->. eapply IH. exact Ew.
  - destruct (c =? 0)%Z eqn:Ec; [discriminate|].
    injection H as _ -> <-. exists n. split_and!; auto.
    apply Z.eqb_neq. exact Ec.
Qed.

(** The wait loop returns once the session stops or an inspect fails. *)
Lemma waitExec_returns d execID stdout stderr k :
  forall n fuel,
    match ContainerExecInspect d execID (n + k) with
    | inr (true, _) => False
    | _ => True
    end ->
    k < fuel ->
    exists r, waitExec d execID stdout stderr fuel n = Some r.
Proof.
  induction k as [|k IH]; intros n fuel Hend Hfuel;
    (destruct fuel as [|fuel]; [lia|]); simpl.
  - rewrite Nat.add_0_r in Hend.
    destruct (ContainerExecInspect d execID n) as [e|[[] c]];
      [eexists; reflexivity|contradiction|].
    simpl. destruct (negb (c =? 0)%Z); eexists; reflexivity.
  - destruct (ContainerExecInspect d execID n) as [e|[[] c]] eqn:Ei;
      [eexists; reflexivity| |].
    + simpl. destruct (IH (S n) fuel) as ([tr r] & ->); [|lia|eexists; reflexivity].
      replace (S n + k) with (n + S k) by lia. exact Hend.
    + simpl. destruct (negb (c =? 0)%Z); eexists; reflexivity.
Qed.

Lemma waitExec_fuel_mono d execID stdout stderr :
  forall fuel n r,
    waitExec d execID stdout stderr fuel n = Some r ->
    forall fuel', fuel <= fuel' ->
    waitExec d execID stdout stderr fuel' n = Some r.
Proof.
  induction fuel as [|fuel IH]; intros n r H fuel' Hle; [discriminate|].
  destruct fuel' as [|fuel']; [lia|]. simpl in *.
  destruct (ContainerExecInspect d execID n) as [e|[running c]]; [exact H|].
  destruct (negb running); [exact H|].
  destruct (waitExec d execID stdout stderr fuel (S n)) as [[tr' r']|] eqn:Ew;
    [|discriminate].
  rewrite (IH _ _ Ew fuel') by lia. exact H.
Qed.

(** C7.  When the exec session is reported not running with a non-zero exit
    code, [executeCommand] returns the error that carries that code and the
    text chosen from the two buffers: the captured stderr unless it is
    empty, else the captured stdout; with exit code zero it returns no
    error.  The first part states this for the wait loop with any contents
    of the buffers, the second for [executeCommand] as a whole, the third
    gives the text of the error. *)
Theorem C7_exit_code_and_output (d : Docker) (containerID : string)
  (cmd : list string) (execID reader : string) (code : Z) (k fuel : nat) :
  NewClientWithOpts d = None ->
  ContainerExecCreate d containerID cmd = inr execID ->
  ContainerExecAttach d execID = inr reader ->
  (forall i, i < k -> exists c,
        ContainerExecInspect d execID i = inr (true, c)) ->
  ContainerExecInspect d execID k = inr (false, code) ->
  k < fuel ->
  (forall stdout stderr : nat -> string,
      exists tr,
        waitExec d execID stdout stderr fuel 0
        = Some (tr,
                if (code =? 0)%Z then None
                else Some (ErrCommandExited code
                             (if String.eqb (stderr k) "" then stdout k
                              else stderr k)))) /\
  (exists tr,
      executeCommand fuel d containerID cmd
      = Some (tr,
              if (code =? 0)%Z then None
              else Some (ErrCommandExited code
                           (errMsg_of ""
                              (String.substring 0 (drained d execID k) reader))))) /\
  (forall out,
      Error (ErrCommandExited code out)
      = "command exited with code " +:+ Str.of_Z code +:+ ": " +:+ out).
Proof.
  intros Hcli Hcreate Hattach Hrun Hstop Hfuel.
  assert (Hloop : forall stdout stderr : nat -> string,
             exists tr,
               waitExec d execID stdout stderr fuel 0
               = Some (tr,
                       if (code =? 0)%Z then None
                       else Some (ErrCommandExited code
                                    (errMsg_of (stderr k) (stdout k))))).
  { intros stdout stderr.
    exact (waitExec_stops d execID stdout stderr code k 0 fuel Hrun Hstop Hfuel). }
  split_and!.
  - exact Hloop.
  - unfold executeCommand. rewrite Hcli, Hcreate, Hattach.
    destruct (Hloop (fun n => String.substring 0 (drained d execID n) reader)
                    (fun _ => "")) as (tr & ->).
    eexists. reflexivity.
  - reflexivity.
Qed.

Lemma C7_exit_code_and_output_witness :
  exists tr,
    executeCommand 5 (Example.engine 3 "mkdir: cannot create directory")
                   "c1" ["mkdir"; "-p"; "/app"]
    = Some (tr, Some (ErrCommandExited 3 "mkdir: c")).
Proof.
  destruct (C7_exit_code_and_output
              (Example.engine 3 "mkdir: cannot create directory")
              "c1" ["mkdir"; "-p"; "/app"] "exec-1"
              "mkdir: cannot create directory" 3 2 5
              eq_refl eq_refl eq_refl) as (_ & (tr & Htr) & _).
  - intros i Hi. exists 0%Z. destruct i as [|[|i]]; [reflexivity|reflexivity|lia].
  - reflexivity.
  - lia.
  - exists tr. exact Htr.
Defined.

(** C10.  In [executeCommand] the stderr buffer is never written: only the
    background copy of the attached stream writes, and it writes to the
    stdout buffer.  So the text chosen for a failed command is the content
    of the stdout buffer: whenever [executeCommand] returns the error of a
    command that exited with a non-zero code, the text in it is what the
    stdout buffer held at the inspect that reported the session stopped,
    and on a session that stops with a non-zero code [executeCommand] does
    return that error. *)
Theorem C10_output_is_stdout (d : Docker) (containerID : string)
  (cmd : list string) :
  (forall stdout, errMsg_of "" stdout = stdout) /\
  (forall fuel tr code out,
      executeCommand fuel d containerID cmd
      = Some (tr, Some (ErrCommandExited code out)) ->
      exists execID reader k,
        ContainerExecCreate d containerID cmd = inr execID /\
        ContainerExecAttach d execID = inr reader /\
        ContainerExecInspect d execID k = inr (false, code) /\
        code <> 0%Z /\
        out = String.substring 0 (drained d execID k) reader) /\
  (forall execID reader k code fuel,
      NewClientWithOpts d = None ->
      ContainerExecCreate d containerID cmd = inr execID ->
      ContainerExecAttach d execID = inr reader ->
      (forall i, i < k -> exists c,
            ContainerExecInspect d execID i = inr (true, c)) ->
      ContainerExecInspect d execID k = inr (false, code) ->
      code <> 0%Z -> k < fuel ->
      exists tr,
        executeCommand fuel d containerID cmd
        = Some (tr, Some (ErrCommandExited code
                            (String.substring 0 (drained d execID k) reader)))).
Proof.
  split_and!.
  - reflexivity.
  - unfold executeCommand. intros fuel tr code out H.
    destruct (NewClientWithOpts d); [discriminate|].
    destruct (ContainerExecCreate d containerID cmd) as [e|execID] eqn:Ec;
      [discriminate|].
    destruct (ContainerExecAttach d execID) as [e|reader] eqn:Ea; [discriminate|].
    destruct (waitExec d execID
                (fun n => String.substring 0 (drained d execID n) reader)
                (fun _ => "") fuel 0) as [[tr' r]|] eqn:Ew; [|discriminate].
    injection H as _ ->.
    destruct (waitExec_exit_error _ _ _ _ _ _ _ _ _ Ew) as (k & Hk & Hc & ->).
    exists execID, reader, k. split_and!; auto.
  - intros execID reader k code fuel Hcli Hcreate Hattach Hrun Hstop Hcode Hfuel.
    unfold executeCommand. rewrite Hcli, Hcreate, Hattach.
    destruct (waitExec_stops d execID
                (fun n => String.substring 0 (drained d execID n) reader)
                (fun _ => "") code k 0 fuel Hrun Hstop Hfuel) as (tr & ->).
    apply Z.eqb_neq in Hcode. rewrite Hcode. eexists. reflexivity.
Qed.

Lemma C10_output_is_stdout_witness :
  exists tr,
    executeCommand 5 (Example.engine 3 "boom") "c1" ["false"]
    = Some (tr, Some (ErrCommandExited 3 "boom")).
Proof.
  destruct (C10_output_is_stdout (Example.engine 3 "boom") "c1" ["false"])
    as (_ & _ & H).
  refine (H "exec-1" "boom" 2 3%Z 5 eq_refl eq_refl eq_refl _ eq_refl _ _).
  - intros i Hi. exists 0%Z. destruct i as [|[|i]]; [reflexivity|reflexivity|lia].
  - discriminate.
  - lia.
Defined.

End ExecClaims.

(** ** The tool as a whole *)

Section CopyFacts.
Import Str filepath.

Lemma as_string_cases v :
  (missing_or_empty v /\
   (let '(s, ok) := mcp.as_string v in negb ok || String.eqb s "") = true) \/
  (exists s, v = Some (mcp.VString s) /\ s <> "" /\ mcp.as_string v = (s, true)).
Proof.
  destruct v as [[s| | | | |]|]; try (left; split; [exact I|reflexivity]).
  destruct (String.eqb s "") eqn:E.
  - left. apply String.eqb_eq in E. subst. split; reflexivity.
  - right. exists s. apply String.eqb_neq in E. auto.
Qed.

Lemma V1_createTarArchive_trace h src flag :
  fst (V1.createTarArchive h src flag) = [EvWalk (Clean src)].
Proof.
  unfold V1.createTarArchive.
  destruct (Walk _ h (Clean src) tar.NewWriter). reflexivity.
Qed.

(** The stages of [CopyProject], first revision. *)
Lemma V1_CopyProject_inv w req :
  let args := mcp.Arguments req in
  let out := V1.CopyProject w req in
  (missing_or_empty (args !! "container_id") /\
   out = V1.text_outcome "container_id is required" []) \/
  exists cid,
    args !! "container_id" = Some (mcp.VString cid) /\ cid <> "" /\
    ((missing_or_empty (args !! "local_src_dir") /\
      out = V1.text_outcome "local_src_dir is required" []) \/
     exists s,
       args !! "local_src_dir" = Some (mcp.VString s) /\ s <> "" /\
       ((exists e,
            os_Stat (host w) (Clean s) = inl e /\
            out = V1.text_outcome
                    ("Error accessing source directory: " +:+ Error e)
                    [EvStat (Clean s)]) \/
        exists info,
          os_Stat (host w) (Clean s) = inr info /\
          ((IsDir info = false /\
            out = V1.text_outcome "local_src_dir must be a directory"
                    [EvStat (Clean s)]) \/
           (IsDir info = true /\
            let dest := fst (V1.resolveDest (args !! "dest_dir")) in
            let flag := snd (V1.resolveDest (args !! "dest_dir")) in
            ((exists e,
                 snd (V1.createTarArchive (host w) (Clean s) flag) = inl e /\
                 out = V1.text_outcome
                         ("Error creating tar archive: " +:+ Error e)
                         [EvStat (Clean s); EvWalk (Clean s)]) \/
             exists a,
               snd (V1.createTarArchive (host w) (Clean s) flag) = inr a /\
               let target := if flag then dest else Dir dest in
               let r := V1.copyToContainer (docker w) cid target a in
               ((exists e,
                    snd r = Some e /\
                    out = V1.text_outcome
                            ("Error copying to container: " +:+ Error e)
                            (EvStat (Clean s) :: EvWalk (Clean s) :: fst r)) \/
                (snd r = None /\
                 out = V1.text_outcome (success_text (Clean s) dest cid)
                         (EvStat (Clean s) :: EvWalk (Clean s) :: fst r)))))))).
Proof.
  intros args out. subst out. unfold V1.CopyProject. fold args.
  destruct (as_string_cases (args !! "container_id"))
    as [[Hm Hc]|(cid & Hcv & Hcne & Hc)].
  { left. split; [exact Hm|].
    destruct (mcp.as_string (args !! "container_id")) as [c ok].
    rewrite Hc. reflexivity. }
  right. exists cid. split; [exact Hcv|]. split; [exact Hcne|].
  rewrite Hc. apply String.eqb_neq in Hcne. simpl negb. rewrite Hcne. simpl orb.
  cbv iota.
  destruct (as_string_cases (args !! "local_src_dir"))
    as [[Hm Hs]|(s & Hsv & Hsne & Hs)].
  { left. split; [exact Hm|].
    destruct (mcp.as_string (args !! "local_src_dir")) as [c ok].
    rewrite Hs. reflexivity. }
  right. exists s. split; [exact Hsv|]. split; [exact Hsne|].
  rewrite Hs. apply String.eqb_neq in Hsne. simpl negb. rewrite Hsne. simpl orb.
  cbv iota.
  destruct (os_Stat (host w) (Clean s)) as [e|info] eqn:Est.
  { left. exists e. split; reflexivity. }
  right. exists info. split; [reflexivity|].
  destruct (IsDir info) eqn:Edir; simpl negb; cbv iota.
  2:{ left. split; reflexivity. }
  right. split; [reflexivity|]. cbv zeta.
  destruct (V1.resolveDest (args !! "dest_dir")) as [dest flag]. simpl fst. simpl snd.
  pose proof (V1_createTarArchive_trace (host w) (Clean s) flag) as Htr.
  rewrite Clean_idempotent in Htr.
  destruct (V1.createTarArchive (host w) (Clean s) flag) as [tr1 [e|a]].
  { simpl in Htr. subst tr1. left. exists e. split; reflexivity. }
  simpl in Htr. subst tr1. right. exists a. split; [reflexivity|].
  destruct (V1.copyToContainer (docker w) cid (if flag then dest else Dir dest) a)
    as [tr2 [e|]]; simpl fst; simpl snd.
  - left. exists e. split; reflexivity.
  - right. split; reflexivity.
Qed.

End CopyFacts.

Section CopyFactsV2.
Import Str filepath.

Lemma V2_createTarArchive_trace h src :
  fst (V2.createTarArchive h src) = [EvWalk (Clean src)].
Proof. rewrite V2_createTarArchive_eq. apply V1_createTarArchive_trace. Qed.

(** The stages of [CopyProject], second revision. *)
Lemma V2_CopyProject_inv fuel w req :
  let args := mcp.Arguments req in
  let out := V2.CopyProject fuel w req in
  (missing_or_empty (args !! "container_id") /\
   out = Some (V2.text_outcome "container_id is required" [])) \/
  exists cid,
    args !! "container_id" = Some (mcp.VString cid) /\ cid <> "" /\
    ((missing_or_empty (args !! "local_src_dir") /\
      out = Some (V2.text_outcome "local_src_dir is required" [])) \/
     exists s,
       args !! "local_src_dir" = Some (mcp.VString s) /\ s <> "" /\
       ((exists e,
            os_Stat (host w) (Clean s) = inl e /\
            out = Some (V2.text_outcome
                          ("Error accessing source directory: " +:+ Error e)
                          [EvStat (Clean s)])) \/
        exists info,
          os_Stat (host w) (Clean s) = inr info /\
          ((IsDir info = false /\
            out = Some (V2.text_outcome "local_src_dir must be a directory"
                          [EvStat (Clean s)])) \/
           (IsDir info = true /\
            let dest := V2.resolveDest (Clean s) (args !! "dest_dir") in
            ((exists e,
                 snd (V2.createTarArchive (host w) (Clean s)) = inl e /\
                 out = Some (V2.text_outcome
                               ("Error creating tar archive: " +:+ Error e)
                               [EvStat (Clean s); EvWalk (Clean s)])) \/
             exists a,
               snd (V2.createTarArchive (host w) (Clean s)) = inr a /\
               let r := V2.copyToContainer fuel (docker w) cid (Dir dest) a in
               ((r = None /\ out = None) \/
                (exists tr2 e,
                    r = Some (tr2, Some e) /\
                    out = Some (V2.text_outcome
                                  ("Error copying to container: " +:+ Error e)
                                  (EvStat (Clean s) :: EvWalk (Clean s) :: tr2))) \/
                (exists tr2,
                    r = Some (tr2, None) /\
                    out = Some (V2.text_outcome
                                  (success_text (Clean s) dest cid)
                                  (EvStat (Clean s) :: EvWalk (Clean s) :: tr2))))))))).
Proof.
  intros args out. subst out. unfold V2.CopyProject. fold args.
  destruct (as_string_cases (args !! "container_id"))
    as [[Hm Hc]|(cid & Hcv & Hcne & Hc)].
  { left. split; [exact Hm|].
    destruct (mcp.as_string (args !! "container_id")) as [c ok].
    rewrite Hc. reflexivity. }
  right. exists cid. split; [exact Hcv|]. split; [exact Hcne|].
  rewrite Hc. apply String.eqb_neq in Hcne. simpl negb. rewrite Hcne. simpl orb.
  cbv iota.
  destruct (as_string_cases (args !! "local_src_dir"))
    as [[Hm Hs]|(s & Hsv & Hsne & Hs)].
  { left. split; [exact Hm|].
    destruct (mcp.as_string (args !! "local_src_dir")) as [c ok].
    rewrite Hs. reflexivity. }
  right. exists s. split; [exact Hsv|]. split; [exact Hsne|].
  rewrite Hs. apply String.eqb_neq in Hsne. simpl negb. rewrite Hsne. simpl orb.
  cbv iota.
  destruct (os_Stat (host w) (Clean s)) as [e|info] eqn:Est.
  { left. exists e. split; reflexivity. }
  right. exists info. split; [reflexivity|].
  destruct (IsDir info) eqn:Edir; simpl negb; cbv iota.
  2:{ left. split; reflexivity. }
  right. split; [reflexivity|]. cbv zeta.
  pose proof (V2_createTarArchive_trace (host w) (Clean s)) as Htr.
  rewrite Clean_idempotent in Htr.
  destruct (V2.createTarArchive (host w) (Clean s)) as [tr1 [e|a]].
  { simpl in Htr. subst tr1. left. exists e. split; reflexivity. }
  simpl in Htr. subst tr1. right. exists a. split; [reflexivity|].
  destruct (V2.copyToContainer fuel (docker w) cid
              (Dir (V2.resolveDest (Clean s) (args !! "dest_dir"))) a)
    as [[tr2 [e|]]|].
  - right. left. exists tr2, e. split; reflexivity.
  - right. right. exists tr2. split; reflexivity.
  - left. split; reflexivity.
Qed.

Lemma waitExec_no_copy d execID stdout stderr c t a :
  forall fuel n tr r,
    waitExec d execID stdout stderr fuel n = Some (tr, r) ->
    ~ In (EvCopyToContainer c t a) tr.
Proof.
  induction fuel as [|fuel IH]; intros n tr r H; [discriminate|].
  simpl in H.
  destruct (ContainerExecInspect d execID n) as [e|[running code]].
  - injection H as <- _. intros [E|[]]. discriminate.
  - destruct running; simpl in H.
    + destruct (waitExec d execID stdout stderr fuel (S n)) as [[tr' r']|] eqn:Ew;
        [|discriminate].
      injection H as <- _. intros [E|[E|Hin]]; try discriminate.
      exact (IH _ _ _ Ew Hin).
    + destruct (negb (code =? 0)%Z); injection H as <- _;
        intros [E|[]]; discriminate.
Qed.

Lemma executeCommand_no_copy fuel d cid cmd tr r c t a :
  executeCommand fuel d cid cmd = Some (tr, r) ->
  ~ In (EvCopyToContainer c t a) tr.
Proof.
  unfold executeCommand. intros H.
  destruct (NewClientWithOpts d).
  { injection H as <- _. intros [E|[]]. discriminate. }
  destruct (ContainerExecCreate d cid cmd) as [e|execID].
  { injection H as <- _. simpl. intros [E|[E|[E|[]]]]; discriminate. }
  destruct (ContainerExecAttach d execID) as [e|reader].
  { injection H as <- _. simpl. intros [E|[E|[E|[E|[]]]]]; discriminate. }
  destruct (waitExec d execID _ _ fuel 0) as [[tr' r']|] eqn:Ew; [|discriminate].
  injection H as <- _. simpl. intros [E|[E|[E|Hin]]]; try discriminate.
  apply in_app_or in Hin as [Hin|Hin].
  { exact (waitExec_no_copy _ _ _ _ _ _ _ _ _ _ _ Ew Hin). }
  simpl in Hin. destruct Hin as [E|[E|[]]]; discriminate.
Qed.

(** The only copy a call of [copyToContainer] makes is the one it is asked
    for. *)
Lemma V1_copyToContainer_copy d cid dest arch c t a :
  In (EvCopyToContainer c t a) (fst (V1.copyToContainer d cid dest arch)) ->
  c = cid /\ t = dest /\ a = arch.
Proof.
  unfold V1.copyToContainer.
  destruct (NewClientWithOpts d); simpl.
  { intros [E|[]]. discriminate. }
  destruct (ContainerInspect d cid); simpl.
  { intros [E|[E|[E|[]]]]; discriminate. }
  destruct (CopyToContainer d cid dest arch); simpl;
    intros [E|[E|[E|[E|[]]]]]; try discriminate;
    injection E as <- <- <-; auto.
Qed.

Lemma V2_copyToContainer_copy fuel d cid dest arch tr r c t a :
  V2.copyToContainer fuel d cid dest arch = Some (tr, r) ->
  In (EvCopyToContainer c t a) tr ->
  c = cid /\ t = dest /\ a = arch.
Proof.
  unfold V2.copyToContainer. intros H.
  destruct (NewClientWithOpts d).
  { injection H as <- _. intros [E|[]]. discriminate. }
  destruct (ContainerInspect d cid).
  { injection H as <- _. intros [E|[E|[E|[]]]]; discriminate. }
  destruct (executeCommand fuel d cid ["mkdir"; "-p"; dest])
    as [[trx [e|]]|] eqn:Ex; [| |discriminate].
  - injection H as <- _. simpl. intros [E|[E|Hin]]; try discriminate.
    apply in_app_or in Hin as [Hin|Hin].
    { exfalso. exact (executeCommand_no_copy _ _ _ _ _ _ _ _ _ Ex Hin). }
    simpl in Hin. destruct Hin as [E|[]]; discriminate.
  - assert (Htr : tr = [EvNewClient; EvContainerInspect cid] ++ trx ++
                       [EvCopyToContainer cid dest arch; EvClientClose])
      by (destruct (CopyToContainer d cid dest arch); congruence).
    subst tr. simpl. intros [E|[E|Hin]]; try discriminate.
    apply in_app_or in Hin as [Hin|Hin].
    { exfalso. exact (executeCommand_no_copy _ _ _ _ _ _ _ _ _ Ex Hin). }
    simpl in Hin. destruct Hin as [E|[E|[]]]; try discriminate.
    injection E as <- <- <-. auto.
Qed.

Lemma executeCommand_returns d cid cmd :
  sessions_end d -> exists fuel r, executeCommand fuel d cid cmd = Some r.
Proof.
  intros Hend. unfold executeCommand.
  destruct (NewClientWithOpts d); [exists 0; eexists; reflexivity|].
  destruct (ContainerExecCreate d cid cmd) as [e|execID];
    [exists 0; eexists; reflexivity|].
  destruct (ContainerExecAttach d execID) as [e|reader];
    [exists 0; eexists; reflexivity|].
  destruct (Hend execID) as (k & Hk).
  destruct (waitExec_returns d execID
              (fun n => String.substring 0 (drained d execID n) reader)
              (fun _ => "") k 0 (S k) Hk ltac:(lia)) as ([tr r] & Hw).
  exists (S k). rewrite Hw. eexists. reflexivity.
Qed.

Lemma V2_copyToContainer_returns d cid dest arch :
  sessions_end d ->
  exists fuel r, V2.copyToContainer fuel d cid dest arch = Some r.
Proof.
  intros Hend. unfold V2.copyToContainer.
  destruct (NewClientWithOpts d); [exists 0; eexists; reflexivity|].
  destruct (ContainerInspect d cid); [exists 0; eexists; reflexivity|].
  destruct (executeCommand_returns d cid ["mkdir"; "-p"; dest] Hend)
    as (fuel & [trx [e|]] & Hx); exists fuel; rewrite Hx.
  - eexists. reflexivity.
  - destruct (CopyToContainer d cid dest arch); eexists; reflexivity.
Qed.

End CopyFactsV2.

Section CopyClaims.
Import Str filepath.


Lemma Join_app_name nm :
  proper_name nm = true -> Join ["/app"; nm] = "/app/" +:+ nm.
Proof.
  intros Hnm.
  assert (Hnf : NF true ["app"]) by (exists 0, ["app"]; split_and!; auto).
  exact (Join_child true ["app"] nm Hnf Hnm).
Qed.

Lemma V2_CopyProject_returns w req :
  sessions_end (docker w) -> exists fuel out, V2.CopyProject fuel w req = Some out.
Proof.
  intros Hend. unfold V2.CopyProject.
  destruct (mcp.as_string (mcp.Arguments req !! "container_id")) as [cid ok1].
  destruct (negb ok1 || String.eqb cid ""); [exists 0; eexists; reflexivity|].
  destruct (mcp.as_string (mcp.Arguments req !! "local_src_dir")) as [s ok2].
  destruct (negb ok2 || String.eqb s ""); [exists 0; eexists; reflexivity|].
  destruct (os_Stat (host w) (Clean s)) as [e|info];
    [exists 0; eexists; reflexivity|].
  destruct (negb (IsDir info)); [exists 0; eexists; reflexivity|].
  destruct (V2.createTarArchive (host w) (Clean s)) as [tr1 [e|a]];
    [exists 0; eexists; reflexivity|].
  destruct (V2_copyToContainer_returns (docker w) cid
              (Dir (V2.resolveDest (Clean s) (mcp.Arguments req !! "dest_dir")))
              a Hend) as (fuel & [tr2 [e|]] & Hr);
    exists fuel; rewrite Hr; eexists; reflexivity.
Qed.




End CopyClaims.

Section CopyClaims2.
Import Str filepath.

Lemma no_runtime_call_stat p : no_runtime_call [EvStat p].
Proof. repeat constructor. Qed.

Lemma not_missing s : s <> "" -> ~ missing_or_empty (Some (mcp.VString s)).
Proof. intros Hs Hm. exact (Hs Hm). Qed.



(** C5.  If [container_id] is missing, is not a string, or is the empty
    string, [CopyProject] answers with the text [container_id is required]
    at once: no error value, and no event at all, so no stat, no walk and no
    archive. *)
Theorem C5_container_id_first (w : World) (req : mcp.CallToolRequest) :
  missing_or_empty (mcp.Arguments req !! "container_id") ->
  V1.CopyProject w req
  = {| result := mcp.NewToolResultText "container_id is required";
       err := None; trace := [] |} /\
  (forall fuel,
      V2.CopyProject fuel w req
      = Some {| result := mcp.NewToolResultText "container_id is required";
                err := None; trace := [] |}).
Proof.
  intros Hm. split.
  - destruct (V1_CopyProject_inv w req) as [[_ Ho]|(cid & Hc & Hne & _)];
      [exact Ho|].
    rewrite Hc in Hm. contradiction.
  - intros fuel.
    destruct (V2_CopyProject_inv fuel w req) as [[_ Ho]|(cid & Hc & Hne & _)];
      [exact Ho|].
    rewrite Hc in Hm. contradiction.
Qed.

Lemma C5_container_id_first_witness :
  trace (V1.CopyProject Example.world
           (Example.request [("container_id", mcp.VNumber 7);
                             ("local_src_dir", mcp.VString "/tmp/proj")])) = [].
Proof.
  rewrite (proj1 (C5_container_id_first Example.world
                    (Example.request [("container_id", mcp.VNumber 7);
                                      ("local_src_dir", mcp.VString "/tmp/proj")])
                    I)).
  reflexivity.
Defined.

(** C6, as amended.  When [container_id] and [local_src_dir] are non-empty
    strings and the cleaned [local_src_dir] cannot be stat'ed or is not a
    directory, [CopyProject] answers with one of the two texts about the
    source directory, and its trace holds no call of the container
    runtime. *)
Theorem C6_bad_source_no_runtime (w : World) (req : mcp.CallToolRequest)
  (cid s : string) :
  mcp.Arguments req !! "container_id" = Some (mcp.VString cid) -> cid <> "" ->
  mcp.Arguments req !! "local_src_dir" = Some (mcp.VString s) -> s <> "" ->
  match os_Stat (host w) (Clean s) with
  | inl _ => True
  | inr info => IsDir info = false
  end ->
  (exists text,
      V1.CopyProject w req
      = {| result := mcp.NewToolResultText text; err := None;
           trace := [EvStat (Clean s)] |} /\
      source_not_found_text text) /\
  no_runtime_call (trace (V1.CopyProject w req)) /\
  (forall fuel, exists text,
      V2.CopyProject fuel w req
      = Some {| result := mcp.NewToolResultText text; err := None;
                trace := [EvStat (Clean s)] |} /\
      source_not_found_text text).
Proof.
  intros Hc Hcne Hs Hsne Hstat.
  assert (HV1 : exists text,
             V1.CopyProject w req
             = {| result := mcp.NewToolResultText text; err := None;
                  trace := [EvStat (Clean s)] |} /\
             source_not_found_text text).
  { destruct (V1_CopyProject_inv w req)
      as [[Hm _]|(cid' & _ & _ & [[Hm _]|(s' & Hs' & _ & Hst)])].
    - rewrite Hc in Hm. contradiction.
    - rewrite Hs in Hm. contradiction.
    - rewrite Hs in Hs'. injection Hs' as <-.
      destruct Hst as [(e & He & Ho)|(info & Hi & [[_ Ho]|[Hd _]])].
      + exists ("Error accessing source directory: " +:+ Error e).
        split; [exact Ho|]. left. exists e. reflexivity.
      + exists "local_src_dir must be a directory".
        split; [exact Ho|]. right. reflexivity.
      + rewrite Hi in Hstat. congruence. }
  split_and!.
  - exact HV1.
  - destruct HV1 as (text & -> & _). apply no_runtime_call_stat.
  - intros fuel.
    destruct (V2_CopyProject_inv fuel w req)
      as [[Hm _]|(cid' & _ & _ & [[Hm _]|(s' & Hs' & _ & Hst)])].
    + rewrite Hc in Hm. contradiction.
    + rewrite Hs in Hm. contradiction.
    + rewrite Hs in Hs'. injection Hs' as <-.
      destruct Hst as [(e & He & Ho)|(info & Hi & [[_ Ho]|[Hd _]])].
      * exists ("Error accessing source directory: " +:+ Error e).
        split; [exact Ho|]. left. exists e. reflexivity.
      * exists "local_src_dir must be a directory".
        split; [exact Ho|]. right. reflexivity.
      * rewrite Hi in Hstat. congruence.
Qed.

Lemma C6_bad_source_no_runtime_witness :
  no_runtime_call
    (trace (V1.CopyProject Example.world
              (Example.request [("container_id", mcp.VString "c1");
                                ("local_src_dir", mcp.VString "/nowhere")]))).
Proof.
  refine (proj1 (proj2 (C6_bad_source_no_runtime Example.world
                          (Example.request
                             [("container_id", mcp.VString "c1");
                              ("local_src_dir", mcp.VString "/nowhere")])
                          "c1" "/nowhere" eq_refl _ eq_refl _ I)));
    discriminate.
Defined.

(** C6 as stated fails: with no [container_id] and a source directory that
    does not exist, the answer is [container_id is required], which is not a
    text about the source directory; and with an empty [local_src_dir] the
    answer is [local_src_dir is required] even where the cleaned path [.]
    cannot be stat'ed. *)
Lemma C6_counterexample :
  os_Stat Example.fs (Clean "/nowhere")
  = inl (ErrOS "stat /nowhere: no such file or directory") /\
  result (V1.CopyProject Example.world
            (Example.request [("local_src_dir", mcp.VString "/nowhere")]))
  = mcp.NewToolResultText "container_id is required" /\
  ~ source_not_found_text "container_id is required" /\
  os_Stat Example.fs (Clean "")
  = inl (ErrOS "stat .: no such file or directory") /\
  result (V1.CopyProject Example.world
            (Example.request [("container_id", mcp.VString "c1");
                              ("local_src_dir", mcp.VString "")]))
  = mcp.NewToolResultText "local_src_dir is required" /\
  ~ source_not_found_text "local_src_dir is required".
Proof.
  split_and!; try (vm_compute; reflexivity).
  - intros [(e & He)|He]; discriminate.
  - intros [(e & He)|He]; discriminate.
Qed.

End CopyClaims2.

Section CopyClaims3.
Import Str filepath.

Lemma Example_sessions_end code out : sessions_end (Example.engine code out).
Proof. intros execID. exists 2. exact I. Qed.

(** C8.  [CopyProject] always answers with a text and a nil error, on
    success and on every failure alike.  The text is one of the failure
    texts or the success text, which names the cleaned source directory,
    the resolved destination and the container.  The first revision always
    returns; the second returns whenever the exec session of its [mkdir]
    stops being reported as running (or an inspect fails), and whatever it
    returns has the same shape. *)
Theorem C8_text_and_nil_error (w : World) (req : mcp.CallToolRequest) :
  (err (V1.CopyProject w req) = None /\
   exists text,
     result (V1.CopyProject w req) = mcp.NewToolResultText text /\
     (failure_text text \/
      exists cid s,
        mcp.Arguments req !! "container_id" = Some (mcp.VString cid) /\
        mcp.Arguments req !! "local_src_dir" = Some (mcp.VString s) /\
        text = success_text (Clean s)
                 (fst (V1.resolveDest (mcp.Arguments req !! "dest_dir"))) cid)) /\
  (forall fuel out,
      V2.CopyProject fuel w req = Some out ->
      err out = None /\
      exists text,
        result out = mcp.NewToolResultText text /\
        (failure_text text \/
         exists cid s,
           mcp.Arguments req !! "container_id" = Some (mcp.VString cid) /\
           mcp.Arguments req !! "local_src_dir" = Some (mcp.VString s) /\
           text = success_text (Clean s)
                    (V2.resolveDest (Clean s) (mcp.Arguments req !! "dest_dir"))
                    cid)) /\
  (sessions_end (docker w) ->
   exists fuel out, V2.CopyProject fuel w req = Some out).
Proof.
  split; [|split].
  - destruct (V1_CopyProject_inv w req)
      as [[_ Ho]|(cid & Hc & _ & [[_ Ho]|(s & Hs & _ & Hst)])].
    + rewrite Ho. split; [reflexivity|]. eexists. split; [reflexivity|].
      left. left. reflexivity.
    + rewrite Ho. split; [reflexivity|]. eexists. split; [reflexivity|].
      left. right. left. reflexivity.
    + destruct Hst as [(e & _ & Ho)|(info & _ & [[_ Ho]|[_ Har]])].
      * rewrite Ho. split; [reflexivity|]. eexists. split; [reflexivity|].
        left. right. right. left. left. exists e. reflexivity.
      * rewrite Ho. split; [reflexivity|]. eexists. split; [reflexivity|].
        left. right. right. left. right. reflexivity.
      * cbv zeta in Har.
        destruct Har as [(e & _ & Ho)|(a & _ & [(e & _ & Ho)|[_ Ho]])].
        -- rewrite Ho. split; [reflexivity|]. eexists. split; [reflexivity|].
           left. right. right. right. left. exists e. reflexivity.
        -- rewrite Ho. split; [reflexivity|]. eexists. split; [reflexivity|].
           left. right. right. right. right. exists e. reflexivity.
        -- rewrite Ho. split; [reflexivity|]. eexists. split; [reflexivity|].
           right. exists cid, s. auto.
  - intros fuel out Hout.
    destruct (V2_CopyProject_inv fuel w req)
      as [[_ Ho]|(cid & Hc & _ & [[_ Ho]|(s & Hs & _ & Hst)])].
    + rewrite Hout in Ho. injection Ho as ->.
      split; [reflexivity|]. eexists. split; [reflexivity|].
      left. left. reflexivity.
    + rewrite Hout in Ho. injection Ho as ->.
      split; [reflexivity|]. eexists. split; [reflexivity|].
      left. right. left. reflexivity.
    + destruct Hst as [(e & _ & Ho)|(info & _ & [[_ Ho]|[_ Har]])].
      * rewrite Hout in Ho. injection Ho as ->.
        split; [reflexivity|]. eexists. split; [reflexivity|].
        left. right. right. left. left. exists e. reflexivity.
      * rewrite Hout in Ho. injection Ho as ->.
        split; [reflexivity|]. eexists. split; [reflexivity|].
        left. right. right. left. right. reflexivity.
      * cbv zeta in Har.
        destruct Har as [(e & _ & Ho)
                        |(a & _ & [[_ Ho]|[(tr2 & e & _ & Ho)|(tr2 & _ & Ho)]])];
          rewrite Hout in Ho; try discriminate; injection Ho as ->.
        -- split; [reflexivity|]. eexists. split; [reflexivity|].
           left. right. right. right. left. exists e. reflexivity.
        -- split; [reflexivity|]. eexists. split; [reflexivity|].
           left. right. right. right. right. exists e. reflexivity.
        -- split; [reflexivity|]. eexists. split; [reflexivity|].
           right. exists cid, s. auto.
  - apply V2_CopyProject_returns.
Qed.

Lemma C8_text_and_nil_error_witness :
  exists fuel out,
    V2.CopyProject fuel Example.world (Example.request Example.base_args)
    = Some out.
Proof.
  exact (proj2 (proj2 (C8_text_and_nil_error Example.world
                         (Example.request Example.base_args)))
               (Example_sessions_end 0 "")).
Defined.

(** C9.  In the first revision, the one with the contents-only mode, a
    [dest_dir] equal to [.] does what an omitted [dest_dir] does: the
    destination is [/app] and the mode is contents-only, and the whole call
    has the same outcome.  Any other non-empty relative [dest_dir] is joined
    under [/app] and the mode is nested. *)
Theorem C9_dot_is_default (w : World) (args : gmap string mcp.value)
  (dest_dir : string) :
  V1.resolveDest (Some (mcp.VString ".")) = ("/app", true) /\
  V1.resolveDest None = ("/app", true) /\
  V1.CopyProject w {| mcp.Arguments := <["dest_dir" := mcp.VString "."]> args |}
  = V1.CopyProject w {| mcp.Arguments := delete "dest_dir" args |} /\
  (dest_dir <> "" -> dest_dir <> "." -> has_slash_prefix dest_dir = false ->
   V1.resolveDest (Some (mcp.VString dest_dir))
   = (Join ["/app"; dest_dir], false)).
Proof.
  split_and!.
  - reflexivity.
  - reflexivity.
  - unfold V1.CopyProject. simpl mcp.Arguments.
    rewrite !lookup_insert_ne, !lookup_delete_ne by discriminate.
    rewrite lookup_insert_eq, lookup_delete_eq. reflexivity.
  - intros H1 H2 Hrel. unfold V1.resolveDest. simpl mcp.as_string. cbv iota.
    apply String.eqb_neq in H1, H2. simpl negb. rewrite H1, H2. simpl orb.
    cbv iota. rewrite Hrel. reflexivity.
Qed.

Lemma C9_dot_is_default_witness :
  V1.resolveDest (Some (mcp.VString "data")) = ("/app/data", false).
Proof.
  refine (proj2 (proj2 (proj2 (C9_dot_is_default Example.world ∅ "data")))
                _ _ eq_refl); discriminate.
Defined.

End CopyClaims3.

(** * Further properties of the tool *)

(** ** Arguments and destination *)

Section ArgumentFacts.
Import Str filepath.

Lemma Clean_rooted s :
  has_slash_prefix s = true -> has_slash_prefix (Clean s) = true.
Proof.
  intros H. unfold Clean.
  destruct (String.eqb s "") eqn:E.
  { apply String.eqb_eq in E. subst. discriminate. }
  rewrite H. reflexivity.
Qed.

Lemma Join_app_rooted d : has_slash_prefix (Join ["/app"; d]) = true.
Proof. apply Clean_rooted. reflexivity. Qed.

Lemma Clean_trailing_slash s : s <> "" -> Clean (s +:+ "/") = Clean s.
Proof.
  intros Hne. unfold Clean, clean_elems.
  assert (Hne' : s +:+ "/" <> "") by (apply append_nonempty; exact Hne).
  apply String.eqb_neq in Hne'. pose proof Hne as Hne0.
  apply String.eqb_neq in Hne. rewrite Hne, Hne'.
  rewrite has_slash_prefix_app by exact Hne0.
  change (s +:+ "/") with (s +:+ "/" +:+ "").
  rewrite split_sep_app, fold_left_app. reflexivity.
Qed.

(** X1.  With a usable [container_id], a [local_src_dir] that is missing,
    not a string or empty is refused with [local_src_dir is required]
    before anything is looked at: no stat, no walk, no runtime call. *)
Theorem X1_local_src_dir_required (w : World) (req : mcp.CallToolRequest)
  (cid : string) :
  mcp.Arguments req !! "container_id" = Some (mcp.VString cid) -> cid <> "" ->
  missing_or_empty (mcp.Arguments req !! "local_src_dir") ->
  V1.CopyProject w req
  = {| result := mcp.NewToolResultText "local_src_dir is required";
       err := None; trace := [] |} /\
  (forall fuel,
      V2.CopyProject fuel w req
      = Some {| result := mcp.NewToolResultText "local_src_dir is required";
                err := None; trace := [] |}).
Proof.
  intros Hc Hne Hm. split.
  - destruct (V1_CopyProject_inv w req)
      as [[Hm' _]|(cid' & _ & _ & [[_ Ho]|(s & Hs & Hsne & _)])].
    + rewrite Hc in Hm'. contradiction.
    + exact Ho.
    + rewrite Hs in Hm. contradiction.
  - intros fuel.
    destruct (V2_CopyProject_inv fuel w req)
      as [[Hm' _]|(cid' & _ & _ & [[_ Ho]|(s & Hs & Hsne & _)])].
    + rewrite Hc in Hm'. contradiction.
    + exact Ho.
    + rewrite Hs in Hm. contradiction.
Qed.

Lemma X1_local_src_dir_required_witness :
  V1.CopyProject Example.world
    (Example.request [("container_id", mcp.VString "c1");
                      ("local_src_dir", mcp.VBool true)])
  = {| result := mcp.NewToolResultText "local_src_dir is required";
       err := None; trace := [] |}.
Proof.
  refine (proj1 (X1_local_src_dir_required Example.world
                   (Example.request [("container_id", mcp.VString "c1");
                                     ("local_src_dir", mcp.VBool true)])
                   "c1" eq_refl _ I)).
  discriminate.
Defined.

(** X2.  [CopyProject] uses [local_src_dir] only through its cleaned form:
    two non-empty source paths that clean to the same path give the same
    outcome, whatever the other arguments; so a trailing slash changes
    nothing. *)
Theorem X2_source_path_normalised (w : World) (args : gmap string mcp.value)
  (s1 s2 : string) :
  s1 <> "" -> s2 <> "" -> Clean s1 = Clean s2 ->
  V1.CopyProject w
    {| mcp.Arguments := <["local_src_dir" := mcp.VString s1]> args |}
  = V1.CopyProject w
      {| mcp.Arguments := <["local_src_dir" := mcp.VString s2]> args |} /\
  (forall fuel,
      V2.CopyProject fuel w
        {| mcp.Arguments := <["local_src_dir" := mcp.VString s1]> args |}
      = V2.CopyProject fuel w
          {| mcp.Arguments := <["local_src_dir" := mcp.VString s2]> args |}) /\
  Clean (s1 +:+ "/") = Clean s1.
Proof.
  intros H1 H2 Hc. pose proof H1 as H1'. apply String.eqb_neq in H1, H2.
  assert (Hcid : forall s, <["local_src_dir" := mcp.VString s]> args
                           !! "container_id" = args !! "container_id")
    by (intros s; apply lookup_insert_ne; discriminate).
  assert (Hdst : forall s, <["local_src_dir" := mcp.VString s]> args
                           !! "dest_dir" = args !! "dest_dir")
    by (intros s; apply lookup_insert_ne; discriminate).
  assert (Hsrc : forall s, <["local_src_dir" := mcp.VString s]> args
                           !! "local_src_dir" = Some (mcp.VString s))
    by (intros s; apply lookup_insert_eq).
  split_and!.
  - unfold V1.CopyProject. simpl mcp.Arguments.
    rewrite !Hcid, !Hdst, !Hsrc.
    simpl mcp.as_string. cbv iota. simpl negb. rewrite H1, H2, Hc. reflexivity.
  - intros fuel. unfold V2.CopyProject. simpl mcp.Arguments.
    rewrite !Hcid, !Hdst, !Hsrc.
    simpl mcp.as_string. cbv iota. simpl negb. rewrite H1, H2, Hc. reflexivity.
  - apply Clean_trailing_slash. exact H1'.
Qed.

Lemma X2_source_path_normalised_witness :
  V1.CopyProject Example.world
    {| mcp.Arguments := <["local_src_dir" := mcp.VString "/tmp/./proj//"]>
                          (list_to_map Example.base_args) |}
  = V1.CopyProject Example.world
      {| mcp.Arguments := <["local_src_dir" := mcp.VString "/tmp/proj"]>
                            (list_to_map Example.base_args) |}.
Proof.
  refine (proj1 (X2_source_path_normalised Example.world
                   (list_to_map Example.base_args)
                   "/tmp/./proj//" "/tmp/proj" _ _ eq_refl)); discriminate.
Defined.

(** X3.  The destination [CopyProject] resolves is always an absolute path,
    whatever [dest_dir] holds, in both revisions. *)
Theorem X3_destination_absolute (dest_dir : option mcp.value) (src : string) :
  has_slash_prefix (fst (V1.resolveDest dest_dir)) = true /\
  has_slash_prefix (V2.resolveDest src dest_dir) = true.
Proof.
  split.
  - unfold V1.resolveDest.
    destruct (mcp.as_string dest_dir) as [d ok].
    destruct (negb ok || String.eqb d "" || String.eqb d "."); [reflexivity|].
    destruct (has_slash_prefix d) eqn:E; cbn [negb fst]; [exact E|].
    apply (Join_app_rooted d).
  - unfold V2.resolveDest.
    destruct (mcp.as_string dest_dir) as [d ok].
    destruct (negb ok || String.eqb d "");
      [apply (Join_app_rooted (Base src))|].
    destruct (has_slash_prefix d) eqn:E; cbn [negb]; [exact E|].
    apply (Join_app_rooted d).
Qed.

(** X4.  A relative [dest_dir] is joined under [/app] but not confined to
    it: [../name] resolves to [/name], in both revisions. *)
Theorem X4_relative_destination_can_leave_app (nm src : string) :
  proper_name nm = true ->
  V1.resolveDest (Some (mcp.VString ("../" +:+ nm))) = ("/" +:+ nm, false) /\
  V2.resolveDest src (Some (mcp.VString ("../" +:+ nm))) = "/" +:+ nm.
Proof.
  intros Hnm.
  assert (HJ : Join ["/app"; "../" +:+ nm] = "/" +:+ nm).
  { unfold Join. simpl String.eqb. cbv iota.
    change (join_sep ["/app"; "../" +:+ nm]) with ("/app/.." +:+ "/" +:+ nm).
    unfold Clean, clean_elems.
    change (String.eqb ("/app/.." +:+ "/" +:+ nm) "") with false. cbv iota.
    change (has_slash_prefix ("/app/.." +:+ "/" +:+ nm)) with true.
    rewrite split_sep_app, fold_left_app.
    change (fold_left (clean_step true) (split_sep "/app/..") []) with (@nil string).
    rewrite split_sep_nosep by (apply proper_name_spec; exact Hnm).
    simpl fold_left. rewrite clean_step_proper by exact Hnm. reflexivity. }
  split.
  - unfold V1.resolveDest. simpl mcp.as_string. cbv iota.
    change (String.eqb ("../" +:+ nm) "") with false.
    change (String.eqb ("../" +:+ nm) ".") with false.
    change (has_slash_prefix ("../" +:+ nm)) with false.
    simpl negb. simpl orb. cbv iota. rewrite HJ. reflexivity.
  - unfold V2.resolveDest. simpl mcp.as_string. cbv iota.
    change (String.eqb ("../" +:+ nm) "") with false.
    change (has_slash_prefix ("../" +:+ nm)) with false.
    simpl negb. simpl orb. cbv iota. exact HJ.
Qed.

Lemma X4_relative_destination_can_leave_app_witness :
  V1.resolveDest (Some (mcp.VString "../etc")) = ("/etc", false).
Proof.
  exact (proj1 (X4_relative_destination_can_leave_app "etc" "/tmp/proj" eq_refl)).
Defined.

End ArgumentFacts.

(** ** The archive *)

Section ArchiveFacts.
Import Str filepath.

(** On a tree where something cannot be read, [createTarArchive] returns an
    error, unless the root itself is a regular file. *)
Lemma createTarArchive_fails h srcPath flag :
  wf_names (os_Lstat h (Clean srcPath)) = true ->
  readable (os_Lstat h (Clean srcPath)) = false ->
  IsRegular (os_Lstat h (Clean srcPath)) = false ->
  exists e, snd (V1.createTarArchive h srcPath flag) = inl e.
Proof.
  intros Hwf Hrd Hreg.
  destruct (Clean_cleaned srcPath) as (r & es & Hnf & Hsrc).
  unfold V1.createTarArchive, Walk.
  destruct (os_Lstat h (Clean srcPath)) as [p d o|p re ents|k p|msg] eqn:En.
  - discriminate.
  - rewrite Hsrc.
    destruct (walk_fails r es (Base (render r es)) flag Hnf (NDir p re ents)
                [] (Base (render r es)) tar.NewWriter (List.Forall_nil _)
                Hwf Hrd eq_refl ltac:(congruence) ltac:(reflexivity))
      as (e & tw' & Hwalk & Hsd & Hsa).
    rewrite app_nil_r in Hwalk. rewrite Hwalk, Hsd, Hsa. simpl.
    exists e. reflexivity.
  - rewrite Hsrc.
    destruct (walk_fails r es (Base (render r es)) flag Hnf (NOther k p)
                [] (Base (render r es)) tar.NewWriter (List.Forall_nil _)
                Hwf Hrd eq_refl ltac:(congruence) ltac:(reflexivity))
      as (e & tw' & Hwalk & Hsd & Hsa).
    rewrite app_nil_r in Hwalk. rewrite Hwalk, Hsd, Hsa. simpl.
    exists e. reflexivity.
  - simpl. eexists. reflexivity.
Qed.



(** X6.  When the source directory holds something that cannot be archived
    (an entry that cannot be stat'ed, listed or opened, a socket),
    [CopyProject] answers [Error creating tar archive: ...] with the cause,
    after the stat and the walk and without any call of the container
    runtime. *)
Theorem X6_unreadable_tree_reported (w : World) (req : mcp.CallToolRequest)
  (cid s : string) (info : node) :
  mcp.Arguments req !! "container_id" = Some (mcp.VString cid) -> cid <> "" ->
  mcp.Arguments req !! "local_src_dir" = Some (mcp.VString s) -> s <> "" ->
  os_Stat (host w) (Clean s) = inr info -> IsDir info = true ->
  wf_names (os_Lstat (host w) (Clean s)) = true ->
  IsRegular (os_Lstat (host w) (Clean s)) = false ->
  readable (os_Lstat (host w) (Clean s)) = false ->
  (exists e,
      V1.CopyProject w req
      = {| result := mcp.NewToolResultText
                       ("Error creating tar archive: " +:+ Error e);
           err := None;
           trace := [EvStat (Clean s); EvWalk (Clean s)] |}) /\
  (forall fuel, exists e,
      V2.CopyProject fuel w req
      = Some {| result := mcp.NewToolResultText
                            ("Error creating tar archive: " +:+ Error e);
                err := None;
                trace := [EvStat (Clean s); EvWalk (Clean s)] |}).
Proof.
  intros Hc Hcne Hs Hsne Hst Hdir Hwf Hreg Hrd.
  assert (Hwf' : wf_names (os_Lstat (host w) (Clean (Clean s))) = true)
    by (rewrite Clean_idempotent; exact Hwf).
  assert (Hrd' : readable (os_Lstat (host w) (Clean (Clean s))) = false)
    by (rewrite Clean_idempotent; exact Hrd).
  assert (Hreg' : IsRegular (os_Lstat (host w) (Clean (Clean s))) = false)
    by (rewrite Clean_idempotent; exact Hreg).
  split.
  - destruct (V1_CopyProject_inv w req)
      as [[Hm _]|(cid' & _ & _ & [[Hm _]|(s' & Hs' & _ & Hstg)])].
    { rewrite Hc in Hm. contradiction. }
    { rewrite Hs in Hm. contradiction. }
    rewrite Hs in Hs'. injection Hs' as <-.
    destruct Hstg as [(e & He & _)|(info' & Hi & [[Hd _]|[_ Har]])].
    { congruence. }
    { rewrite Hst in Hi. injection Hi as <-. congruence. }
    cbv zeta in Har. destruct Har as [(e & _ & Ho)|(a & Ha & _)].
    + exists e. exact Ho.
    + destruct (createTarArchive_fails (host w) (Clean s)
                  (snd (V1.resolveDest (mcp.Arguments req !! "dest_dir")))
                  Hwf' Hrd' Hreg') as (e & He).
      rewrite He in Ha. discriminate.
  - intros fuel.
    destruct (V2_CopyProject_inv fuel w req)
      as [[Hm _]|(cid' & _ & _ & [[Hm _]|(s' & Hs' & _ & Hstg)])].
    { rewrite Hc in Hm. contradiction. }
    { rewrite Hs in Hm. contradiction. }
    rewrite Hs in Hs'. injection Hs' as <-.
    destruct Hstg as [(e & He & _)|(info' & Hi & [[Hd _]|[_ Har]])].
    { congruence. }
    { rewrite Hst in Hi. injection Hi as <-. congruence. }
    cbv zeta in Har. destruct Har as [(e & _ & Ho)|(a & Ha & _)].
    + exists e. exact Ho.
    + rewrite V2_createTarArchive_eq in Ha.
      destruct (createTarArchive_fails (host w) (Clean s) false Hwf' Hrd' Hreg')
        as (e & He).
      rewrite He in Ha. discriminate.
Qed.

Lemma X6_unreadable_tree_reported_witness :
  exists e,
    V1.CopyProject Sample.world
      (Example.request [("container_id", mcp.VString "c1");
                        ("local_src_dir", mcp.VString "/srv/app")])
    = {| result := mcp.NewToolResultText
                     ("Error creating tar archive: " +:+ Error e);
         err := None;
         trace := [EvStat "/srv/app"; EvWalk "/srv/app"] |}.
Proof.
  refine (proj1 (X6_unreadable_tree_reported Sample.world
                   (Example.request [("container_id", mcp.VString "c1");
                                     ("local_src_dir", mcp.VString "/srv/app")])
                   "c1" "/srv/app" Sample.with_socket
                   eq_refl _ eq_refl _ eq_refl eq_refl eq_refl eq_refl eq_refl));
    discriminate.
Defined.

End ArchiveFacts.

Section ArchiveShape.
Import Str filepath.

Lemma join_sep_inj l1 l2 :
  Forall (fun e => proper_name e = true) l1 -> l1 <> [] ->
  Forall (fun e => proper_name e = true) l2 -> l2 <> [] ->
  join_sep l1 = join_sep l2 -> l1 = l2.
Proof.
  intros H1 N1 H2 N2 Heq. apply (f_equal split_sep) in Heq.
  rewrite !split_join in Heq by (auto using proper_nosep). exact Heq.
Qed.


(** X7.  A source path that [Lstat] reports as something other than a
    directory -- a symbolic link, even one to a directory, a regular file, a
    pipe or a device -- gives an empty archive and no error: the walk does
    not follow links and the root itself is skipped.  [CopyProject] checks
    the path with [Stat], which follows links, so for a linked directory it
    goes on to copy that empty archive. *)
Theorem X7_linked_root_gives_empty_archive (w : World)
  (req : mcp.CallToolRequest) (s : string) :
  match os_Lstat (host w) (Clean s) with
  | NFile _ _ _ => True
  | NOther k _ => k <> KSocket /\ k <> KIrregular
  | _ => False
  end ->
  (forall flag, snd (V1.createTarArchive (host w) s flag) = inr []) /\
  snd (V2.createTarArchive (host w) s) = inr [] /\
  (mcp.Arguments req !! "local_src_dir" = Some (mcp.VString s) ->
   forall cid target a,
     In (EvCopyToContainer cid target a) (trace (V1.CopyProject w req)) ->
     a = []).
Proof.
  intros Hroot.
  assert (H1 : forall flag, snd (V1.createTarArchive (host w) s flag) = inr []).
  { intros flag.
    destruct (os_Lstat (host w) (Clean s)) as [p d o|p re ents|k p|msg] eqn:En;
      try contradiction.
    - destruct (Clean_cleaned s) as (r & es & Hnf & Hsrc).
      unfold V1.createTarArchive, Walk. rewrite En.
      rewrite Hsrc, (walk_leaf r es) by reflexivity.
      rewrite (archiveFn_root_header _ _ _ _
                 {| tar.Typeflag_ := tar.TypeReg; tar.Name := Base (render r es);
                    tar.Linkname := ""; tar.Size_ := Z.of_nat (length d);
                    tar.Mode := p |}) by reflexivity.
      reflexivity.
    - assert (Hwf : wf_names (os_Lstat (host w) (Clean s)) = true)
        by (rewrite En; reflexivity).
      assert (Hrd : readable (os_Lstat (host w) (Clean s)) = true)
        by (rewrite En; destruct Hroot as [? ?]; destruct k; try reflexivity;
            congruence).
      rewrite (createTarArchive_members (host w) s flag Hwf Hrd), En.
      reflexivity. }
  split_and!.
  - exact H1.
  - rewrite V2_createTarArchive_eq. apply H1.
  - intros Hs cid target a Hin.
    assert (H1' : forall flag,
               snd (V1.createTarArchive (host w) (Clean s) flag) = inr []).
    { intros flag. pose proof (H1 flag) as H. revert H.
      unfold V1.createTarArchive. rewrite Clean_idempotent. auto. }
    destruct (V1_CopyProject_inv w req)
      as [[_ Ho]|(cid' & _ & _ & [[_ Ho]|(s' & Hs' & _ & Hst)])];
      try (rewrite Ho in Hin; destruct Hin; fail).
    rewrite Hs in Hs'. injection Hs' as <-.
    destruct Hst as [(e & _ & Ho)|(info & _ & [[_ Ho]|[_ Har]])];
      try (rewrite Ho in Hin; destruct Hin as [E|[]]; discriminate).
    cbv zeta in Har.
    destruct Har as [(e & _ & Ho)|(a' & Ha' & Hcp)].
    { rewrite Ho in Hin. destruct Hin as [E|[E|[]]]; discriminate. }
    rewrite H1' in Ha'. injection Ha' as <-.
    destruct Hcp as [(e & _ & Ho)|[_ Ho]]; rewrite Ho in Hin;
      (destruct Hin as [E|[E|Hin]]; try discriminate);
      apply V1_copyToContainer_copy in Hin as (_ & _ & ->); reflexivity.
Qed.

Lemma X7_linked_root_gives_empty_archive_witness :
  snd (V2.createTarArchive Sample.fs "/srv/link") = inr [] /\
  os_Stat Sample.fs "/srv/link" = inr Example.proj.
Proof.
  split; [|reflexivity].
  refine (proj1 (proj2 (X7_linked_root_gives_empty_archive Sample.world
                          (Example.request []) "/srv/link" _))).
  simpl. split; discriminate.
Defined.



End ArchiveShape.

Section ArchiveOrder.
Import Str filepath.

Lemma below_is_dir rel n : below rel n <> [] -> IsDir n = true.
Proof. destruct n; simpl; congruence. Qed.

(** In the list of entries below a node, an entry that is not listed by the
    node itself comes after the directory that lists it. *)
Lemma below_parent_first n :
  forall rel l1 d l2 q x,
    below rel n = l1 ++ d :: l2 -> fst d = q ++ [x] ->
    q = rel \/ exists dn, In (q, dn) l1 /\ IsDir dn = true.
Proof.
  induction n as [p dat o|p re ents IHents|k p|msg] using node_tree_ind;
    intros rel l1 d l2 q x Heq Hd;
    try (destruct l1; discriminate).
  rewrite below_dir in Heq.
  revert l1 Heq. induction ents as [|[nm c] rest IHrest]; intros l1 Heq.
  { destruct l1; discriminate. }
  pose proof (List.Forall_inv IHents) as IHc. simpl in IHc.
  pose proof (List.Forall_inv_tail IHents) as IHr.
  cbn [flat_map fst snd] in Heq.
  destruct l1 as [|d0 l1].
  { injection Heq as <- _. simpl in Hd. apply app_inj_tail in Hd as [-> _].
    left. reflexivity. }
  injection Heq as <- Heq.
  apply app_eq_app in Heq as (l & [[Hx Hy]|[Hx Hy]]).
  - destruct l as [|d' l].
    + rewrite app_nil_r in Hx. simpl in Hy.
      destruct (IHrest IHr [] (eq_sym Hy)) as [->|(dn & [] & _)].
      left. reflexivity.
    + injection Hy as <- Hy.
      destruct (IHc (rel ++ [nm]) l1 d l q x Hx Hd) as [->|(dn & Hin & Hdn)].
      * right. exists c. split; [left; reflexivity|].
        apply (below_is_dir (rel ++ [nm])). rewrite Hx. destruct l1; discriminate.
      * right. exists dn. split; [right; exact Hin|exact Hdn].
  - destruct (IHrest IHr l Hy) as [->|(dn & Hin & Hdn)].
    + left. reflexivity.
    + right. exists dn. split; [|exact Hdn].
      right. rewrite Hx. apply in_or_app. right. exact Hin.
Qed.

(** X9.  Parents come first: in whatever archive [createTarArchive] returns,
    a member whose path from the top of the archive is [q/x] is preceded by
    a directory member whose path is [q].  Both modes, both revisions. *)
Theorem X9_directory_before_contents (h : Host) (srcPath : string) (flag : bool)
  (a a1 a2 : list tar.Entry) (e : tar.Entry) (q : list string) (x : string) :
  wf_names (os_Lstat h (Clean srcPath)) = true ->
  snd (V1.createTarArchive h srcPath flag) = inr a
  \/ (flag = false /\ snd (V2.createTarArchive h srcPath) = inr a) ->
  a = a1 ++ e :: a2 ->
  Forall (fun s => proper_name s = true) (q ++ [x]) -> q <> [] ->
  Rel (archive_top flag (Base (Clean srcPath))) (tar.Name (tar.header e))
  = Some (join_sep (q ++ [x])) ->
  exists p,
    In p a1 /\
    Rel (archive_top flag (Base (Clean srcPath))) (tar.Name (tar.header p))
    = Some (join_sep q) /\
    tar.Typeflag_ (tar.header p) = tar.TypeDir.
Proof.
  intros Hwf Ha Hsplit Hqx Hq Hrel.
  assert (Ha' : snd (V1.createTarArchive h srcPath flag) = inr a).
  { destruct Ha as [Ha|[-> Ha]]; [exact Ha|].
    rewrite V2_createTarArchive_eq in Ha. exact Ha. }
  pose proof (Clean_cleaned srcPath) as Hc.
  pose proof (descendants_names _ Hwf) as Hds.
  pose proof (createTarArchive_sound h srcPath flag a Hwf Ha') as Hmem.
  rewrite Hsplit in Hmem. symmetry in Hmem.
  apply map_eq_app in Hmem as (l1 & l2' & Hdesc & Hl1 & Hl2).
  apply map_eq_cons in Hl2 as (d & l2 & -> & Hd & _).
  assert (Hdn : Forall (fun s => proper_name s = true) (fst d) /\ fst d <> []).
  { rewrite List.Forall_forall in Hds. apply Hds. rewrite Hdesc.
    apply in_or_app. right. left. reflexivity. }
  destruct Hdn as [Hdp Hdne].
  assert (Hfd : fst d = q ++ [x]).
  { rewrite <- Hd in Hrel. simpl in Hrel. unfold rel_path in Hrel.
    rewrite archive_name_Rel in Hrel by assumption.
    injection Hrel as Hrel.
    apply join_sep_inj; try assumption. destruct q; discriminate. }
  destruct (below_parent_first _ [] l1 d l2 q x Hdesc Hfd)
    as [->|(dn & Hin & Hdir)]; [congruence|].
  exists (member_for (archive_name flag (Base (Clean srcPath)) (rel_path (q, dn)))
                     (q, dn)).
  split_and!.
  - rewrite <- Hl1. apply in_map_iff. exists (q, dn). split; [reflexivity|exact Hin].
  - simpl. unfold rel_path. simpl. apply archive_name_Rel; try assumption.
    apply List.Forall_app in Hqx. tauto.
  - simpl. destruct dn; try discriminate. reflexivity.
Qed.

Lemma X9_directory_before_contents_witness :
  exists p,
    In p (firstn 2 (map (fun d => member_for (rel_path d) d)
                        (descendants Example.proj))) /\
    Rel "." (tar.Name (tar.header p)) = Some "sub" /\
    tar.Typeflag_ (tar.header p) = tar.TypeDir.
Proof.
  refine (X9_directory_before_contents Example.fs "/tmp/proj" true
            (map (fun d => member_for (rel_path d) d) (descendants Example.proj))
            (firstn 2 (map (fun d => member_for (rel_path d) d)
                           (descendants Example.proj)))
            []
            (member_for "sub/b.txt"
               (["sub"; "b.txt"], NFile 420 (Example.bytes "x") None))
            ["sub"] "b.txt" eq_refl (or_introl eq_refl) eq_refl _ _ eq_refl).
  - repeat constructor.
  - discriminate.
Defined.

End ArchiveOrder.

Section ArchiveNames.
Import Str filepath.

Lemma distinct_cons x l :
  distinct (x :: l) = true -> ~ In x l /\ distinct l = true.
Proof.
  simpl. rewrite andb_true_iff, negb_true_iff. intros [Hx Hl]. split; [|exact Hl].
  intros Hin. assert (Hex : existsb (String.eqb x) l = true).
  { apply existsb_exists. exists x. split; [exact Hin|apply String.eqb_refl]. }
  congruence.
Qed.

(** Every entry below a node has a path that goes through one of the names
    the node lists. *)
Lemma flat_below_prefix rel (ents : list (string * node)) d :
  In d (flat_map (fun e => (rel ++ [fst e], snd e)
                             :: below (rel ++ [fst e]) (snd e)) ents) ->
  exists nm suf, In nm (map fst ents) /\ fst d = rel ++ nm :: suf.
Proof.
  revert d. induction ents as [|[nm c] rest IH]; intros d Hin; [destruct Hin|].
  cbn [flat_map fst snd] in Hin. destruct Hin as [<-|Hin].
  { exists nm, []. split; [left; reflexivity|reflexivity]. }
  apply in_app_or in Hin as [Hin|Hin].
  - exists nm. cut (exists suf, fst d = (rel ++ [nm]) ++ suf).
    { intros (suf & ->). exists suf. split; [left; reflexivity|].
      rewrite <- app_assoc. reflexivity. }
    clear IH. revert d Hin. generalize (rel ++ [nm]). clear rel nm rest.
    induction c as [p dat o|p re ents IHents|k p|msg] using node_tree_ind;
      intros rel d Hin; try (destruct Hin; fail).
    rewrite below_dir in Hin.
    induction ents as [|[nm c] rest IHrest]; [destruct Hin|].
    pose proof (List.Forall_inv IHents) as IHc. simpl in IHc.
    pose proof (List.Forall_inv_tail IHents) as IHr.
    cbn [flat_map fst snd] in Hin. destruct Hin as [<-|Hin].
    { exists [nm]. reflexivity. }
    apply in_app_or in Hin as [Hin|Hin].
    + destruct (IHc _ _ Hin) as (suf & ->). exists (nm :: suf).
      rewrite <- app_assoc. reflexivity.
    + apply IHrest; assumption.
  - destruct (IH d Hin) as (nm' & suf & Hnm & Hd).
    exists nm', suf. split; [right; exact Hnm|exact Hd].
Qed.

Lemma below_longer rel n d :
  In d (below rel n) -> exists nm suf, fst d = rel ++ nm :: suf.
Proof.
  destruct n as [p dat o|p re ents|k p|msg]; try (intros []; fail).
  rewrite below_dir. intros Hin.
  destruct (flat_below_prefix rel ents d Hin) as (nm & suf & _ & Hd). eauto.
Qed.

(** Where every directory lists each name once, no path occurs twice among
    the entries below a node. *)
Lemma below_NoDup n :
  forall rel, uniq_names n = true -> List.NoDup (map fst (below rel n)).
Proof.
  induction n as [p dat o|p re ents IHents|k p|msg] using node_tree_ind;
    intros rel Hu; try (constructor; fail).
  rewrite below_dir.
  change (uniq_names (NDir p re ents))
    with (distinct (map fst ents)
          && forallb (fun e => uniq_names (snd e)) ents) in Hu.
  apply andb_true_iff in Hu as [Hdis Hall].
  induction ents as [|[nm c] rest IHrest]; [constructor|].
  pose proof (List.Forall_inv IHents) as IHc. simpl in IHc.
  pose proof (List.Forall_inv_tail IHents) as IHr.
  cbn [map fst] in Hdis. apply distinct_cons in Hdis as [Hnm Hdis].
  cbn [forallb snd] in Hall. apply andb_true_iff in Hall as [Hc Hall].
  cbn [flat_map fst snd map]. rewrite map_app. constructor.
  - intros Hin. apply in_app_or in Hin as [Hin|Hin].
    + apply in_map_iff in Hin as (d & Hd & Hin).
      destruct (below_longer _ _ _ Hin) as (nm' & suf & Hd').
      rewrite Hd' in Hd. apply (f_equal (@length string)) in Hd.
      rewrite !length_app in Hd. simpl in Hd. rewrite length_app in Hd.
      simpl in Hd. lia.
    + apply in_map_iff in Hin as (d & Hd & Hin).
      destruct (flat_below_prefix rel rest d Hin) as (nm' & suf & Hnm' & Hd').
      rewrite Hd' in Hd. apply app_inv_head in Hd. injection Hd as -> _.
      contradiction.
  - apply List.NoDup_app.
    + apply IHc. exact Hc.
    + apply IHrest; assumption.
    + intros pth Hin1 Hin2.
      apply in_map_iff in Hin1 as (d1 & Hd1 & Hin1).
      apply in_map_iff in Hin2 as (d2 & Hd2 & Hin2).
      destruct (below_longer _ _ _ Hin1) as (nm1 & suf1 & Hp1).
      destruct (flat_below_prefix rel rest d2 Hin2) as (nm2 & suf2 & Hnm2 & Hp2).
      rewrite <- Hd2, Hp2 in Hd1. rewrite Hp1, <- app_assoc in Hd1.
      apply app_inv_head in Hd1. injection Hd1 as -> _. contradiction.
Qed.

Lemma NoDup_map_inj {A B C : Type} (f : A -> B) (g : A -> C) (l : list A) :
  (forall x y, In x l -> In y l -> g x = g y -> f x = f y) ->
  List.NoDup (map f l) -> List.NoDup (map g l).
Proof.
  induction l as [|x l IH]; intros Hinj Hnd; [constructor|].
  simpl in *. apply List.NoDup_cons_iff in Hnd as [Hx Hnd]. constructor.
  - intros Hin. apply in_map_iff in Hin as (y & Hy & Hin). apply Hx.
    apply in_map_iff. exists y. split; [|exact Hin].
    apply Hinj; auto.
  - apply IH; [|exact Hnd]. intros a b Ha Hb. apply Hinj; auto.
Qed.

(** X10.  Where every directory of the source tree lists each name once, no
    two members of the archive have the same name, so extraction does not
    write one member over another.  Both modes, both revisions. *)
Theorem X10_member_names_distinct (h : Host) (srcPath : string) :
  wf_names (os_Lstat h (Clean srcPath)) = true ->
  uniq_names (os_Lstat h (Clean srcPath)) = true ->
  (forall flag a,
      snd (V1.createTarArchive h srcPath flag) = inr a ->
      List.NoDup (map (fun e => tar.Name (tar.header e)) a)) /\
  (forall a,
      snd (V2.createTarArchive h srcPath) = inr a ->
      List.NoDup (map (fun e => tar.Name (tar.header e)) a)).
Proof.
  intros Hwf Hu.
  pose proof (Clean_cleaned srcPath) as Hc.
  pose proof (descendants_names _ Hwf) as Hds.
  rewrite List.Forall_forall in Hds.
  assert (H1 : forall flag a,
             snd (V1.createTarArchive h srcPath flag) = inr a ->
             List.NoDup (map (fun e => tar.Name (tar.header e)) a)).
  { intros flag a Ha.
    rewrite (createTarArchive_sound h srcPath flag a Hwf Ha), members_names.
    apply (NoDup_map_inj fst); [|apply below_NoDup; exact Hu].
    intros d1 d2 Hin1 Hin2 Heq.
    destruct (Hds d1 Hin1) as [Hp1 Hn1]. destruct (Hds d2 Hin2) as [Hp2 Hn2].
    apply (f_equal (Rel (archive_top flag (Base (Clean srcPath))))) in Heq.
    unfold rel_path in Heq. rewrite !archive_name_Rel in Heq by assumption.
    injection Heq as Heq. apply join_sep_inj; assumption. }
  split; [exact H1|].
  intros a Ha. rewrite V2_createTarArchive_eq in Ha. exact (H1 false a Ha).
Qed.

Lemma X10_member_names_distinct_witness :
  List.NoDup (map (fun e => tar.Name (tar.header e))
             (map (fun d => member_for (rel_path d) d)
                  (descendants Example.proj))).
Proof.
  exact (proj1 (X10_member_names_distinct Example.fs "/tmp/proj"
                  eq_refl eq_refl) true _ eq_refl).
Defined.

End ArchiveNames.

(** ** The container runtime *)

Section RuntimeFacts.
Import Str filepath.

(** The wait loop on a session reported running [k] times: what it returns
    and what it does. *)
Lemma waitExec_trace d execID stdout stderr k :
  forall n fuel,
    (forall i, i < k -> exists c,
          ContainerExecInspect d execID (n + i) = inr (true, c)) ->
    match ContainerExecInspect d execID (n + k) with
    | inr (true, _) => False
    | _ => True
    end ->
    k < fuel ->
    waitExec d execID stdout stderr fuel n
    = Some (poll_trace execID k,
            poll_outcome (ContainerExecInspect d execID (n + k))
                         (stdout (n + k)) (stderr (n + k))).
Proof.
  induction k as [|k IH]; intros n fuel Hrun Hstop Hfuel;
    (destruct fuel as [|fuel]; [lia|]).
  - rewrite Nat.add_0_r in *. simpl.
    destruct (ContainerExecInspect d execID n) as [e|[[] c]];
      [reflexivity|contradiction|].
    simpl. destruct (c =? 0)%Z; reflexivity.
  - destruct (Hrun 0 ltac:(lia)) as (c & Hc). rewrite Nat.add_0_r in Hc.
    simpl. rewrite Hc. simpl.
    rewrite (IH (S n) fuel).
    + replace (S n + k) with (n + S k) by lia. reflexivity.
    + intros i Hi. destruct (Hrun (S i) ltac:(lia)) as (c' & Hc').
      exists c'. rewrite <- Hc'. f_equal. lia.
    + replace (S n + k) with (n + S k) by lia. exact Hstop.
    + lia.
Qed.

Lemma waitExec_running d execID stdout stderr :
  forall fuel n,
    (forall i, exists c, ContainerExecInspect d execID i = inr (true, c)) ->
    waitExec d execID stdout stderr fuel n = None.
Proof.
  induction fuel as [|fuel IH]; intros n Hrun; [reflexivity|].
  simpl. destruct (Hrun n) as (c & ->). simpl. rewrite IH by exact Hrun.
  reflexivity.
Qed.

Lemma waitExec_none d execID stdout stderr :
  forall fuel n,
    waitExec d execID stdout stderr fuel n = None ->
    forall i, i < fuel -> exists c,
        ContainerExecInspect d execID (n + i) = inr (true, c).
Proof.
  induction fuel as [|fuel IH]; intros n H i Hi; [lia|].
  simpl in H.
  destruct (ContainerExecInspect d execID n) as [e|[[] c]] eqn:Ei;
    try discriminate.
  - simpl in H.
    destruct (waitExec d execID stdout stderr fuel (S n)) as [[tr r]|] eqn:Ew;
      [discriminate|].
    destruct i as [|i].
    + exists c. rewrite Nat.add_0_r. exact Ei.
    + destruct (IH (S n) Ew i ltac:(lia)) as (c' & Hc').
      exists c'. rewrite <- Hc'. f_equal. lia.
  - simpl in H. destruct (negb (c =? 0)%Z); discriminate.
Qed.

Lemma executeCommand_on_session d containerID cmd execID reader k fuel :
  NewClientWithOpts d = None ->
  ContainerExecCreate d containerID cmd = inr execID ->
  ContainerExecAttach d execID = inr reader ->
  (forall i, i < k -> exists c,
        ContainerExecInspect d execID i = inr (true, c)) ->
  match ContainerExecInspect d execID k with
  | inr (true, _) => False
  | _ => True
  end ->
  k < fuel ->
  executeCommand fuel d containerID cmd
  = Some ([EvNewClient; EvExecCreate containerID cmd; EvExecAttach execID]
          ++ poll_trace execID k
          ++ [EvExecAttachClose execID; EvClientClose],
          poll_outcome (ContainerExecInspect d execID k)
                       (String.substring 0 (drained d execID k) reader) "").
Proof.
  intros Hcli Hcreate Hattach Hrun Hstop Hfuel.
  unfold executeCommand. rewrite Hcli, Hcreate, Hattach.
  rewrite (waitExec_trace d execID _ _ k 0 fuel Hrun Hstop Hfuel). reflexivity.
Qed.

(** X11.  [executeCommand] inspects the session once more than it sleeps:
    on a session reported running [k] times it makes [k + 1] inspects with a
    sleep after each but the last, then closes the attachment and the
    client; an inspect that fails ends the loop with
    [failed to inspect exec: ...], whatever the command did. *)
Theorem X11_poll_loop_shape (d : Docker) (containerID : string)
  (cmd : list string) (execID reader : string) (k fuel : nat) :
  NewClientWithOpts d = None ->
  ContainerExecCreate d containerID cmd = inr execID ->
  ContainerExecAttach d execID = inr reader ->
  (forall i, i < k -> exists c,
        ContainerExecInspect d execID i = inr (true, c)) ->
  match ContainerExecInspect d execID k with
  | inr (true, _) => False
  | _ => True
  end ->
  k < fuel ->
  executeCommand fuel d containerID cmd
  = Some ([EvNewClient; EvExecCreate containerID cmd; EvExecAttach execID]
          ++ poll_trace execID k
          ++ [EvExecAttachClose execID; EvClientClose],
          poll_outcome (ContainerExecInspect d execID k)
                       (String.substring 0 (drained d execID k) reader) "") /\
  length (List.filter (fun ev => match ev with EvSleep => true | _ => false end)
                 (poll_trace execID k)) = k /\
  (forall e, ContainerExecInspect d execID k = inl e ->
             exists tr,
               executeCommand fuel d containerID cmd
               = Some (tr, Some (Errorf "failed to inspect exec" e))).
Proof.
  intros Hcli Hcreate Hattach Hrun Hstop Hfuel.
  assert (Hx : executeCommand fuel d containerID cmd
               = Some ([EvNewClient; EvExecCreate containerID cmd;
                        EvExecAttach execID]
                       ++ poll_trace execID k
                       ++ [EvExecAttachClose execID; EvClientClose],
                       poll_outcome (ContainerExecInspect d execID k)
                         (String.substring 0 (drained d execID k) reader) "")).
  { apply executeCommand_on_session; assumption. }
  split_and!.
  - exact Hx.
  - unfold poll_trace. rewrite List.filter_app, length_app.
    change (length (List.filter _ [EvExecInspect execID])) with 0.
    rewrite Nat.add_0_r.
    clear. induction k as [|k IH]; [reflexivity|]. simpl. rewrite IH. reflexivity.
  - intros e He. rewrite Hx, He. eexists. reflexivity.
Qed.

Lemma X11_poll_loop_shape_witness :
  executeCommand 5 (Example.engine 0 "") "c1" ["mkdir"; "-p"; "/app"]
  = Some ([EvNewClient; EvExecCreate "c1" ["mkdir"; "-p"; "/app"];
           EvExecAttach "exec-1"; EvExecInspect "exec-1"; EvSleep;
           EvExecInspect "exec-1"; EvSleep; EvExecInspect "exec-1";
           EvExecAttachClose "exec-1"; EvClientClose], None).
Proof.
  refine (proj1 (X11_poll_loop_shape (Example.engine 0 "") "c1"
                   ["mkdir"; "-p"; "/app"] "exec-1" "" 2 5
                   eq_refl eq_refl eq_refl _ I _)).
  - intros i Hi. exists 0%Z. destruct i as [|[|i]]; [reflexivity|reflexivity|lia].
  - lia.
Defined.

(** X12.  [executeCommand] has no timeout.  It fails to return exactly when
    the client, the exec session and the attachment are made and every
    inspect reports the session as running. *)
Theorem X12_no_timeout (d : Docker) (containerID : string) (cmd : list string) :
  (forall fuel, executeCommand fuel d containerID cmd = None) <->
  (NewClientWithOpts d = None /\
   exists execID reader,
     ContainerExecCreate d containerID cmd = inr execID /\
     ContainerExecAttach d execID = inr reader /\
     forall i, exists c, ContainerExecInspect d execID i = inr (true, c)).
Proof.
  split.
  - intros Hnone. unfold executeCommand in Hnone.
    destruct (NewClientWithOpts d); [specialize (Hnone 0); discriminate|].
    split; [reflexivity|].
    destruct (ContainerExecCreate d containerID cmd) as [e|execID] eqn:Ec;
      [specialize (Hnone 0); discriminate|].
    destruct (ContainerExecAttach d execID) as [e|reader] eqn:Ea;
      [specialize (Hnone 0); discriminate|].
    exists execID, reader. split; [reflexivity|split; [exact Ea|]].
    intros i. specialize (Hnone (S i)).
    destruct (waitExec d execID
                (fun n => String.substring 0 (drained d execID n) reader)
                (fun _ => "") (S i) 0) as [[tr r]|] eqn:Ew; [discriminate|].
    exact (waitExec_none _ _ _ _ _ _ Ew i ltac:(lia)).
  - intros (Hcli & execID & reader & Hc & Ha & Hrun) fuel.
    unfold executeCommand. rewrite Hcli, Hc, Ha.
    rewrite waitExec_running by exact Hrun. reflexivity.
Qed.

Lemma X12_no_timeout_witness :
  executeCommand 1000 Sample.hung_engine "c1" ["mkdir"; "-p"; "/app"] = None.
Proof.
  refine (proj2 (X12_no_timeout Sample.hung_engine "c1" ["mkdir"; "-p"; "/app"])
                (conj eq_refl _) 1000).
  exists "exec-1", "". split; [reflexivity|]. split; [reflexivity|].
  intros i. exists 0%Z. reflexivity.
Defined.

End RuntimeFacts.

Section CopyStage.
Import Str filepath.

(** X13.  The archive is handed to the runtime only after the checks before
    it passed: the client was made and the container inspected without
    error, and in the second revision [mkdir -p] of the target exited with
    code zero.  The copy asked for is then the one for this container,
    target and archive. *)
Theorem X13_copy_only_after_checks (d : Docker) (containerID destPath : string)
  (tarArchive : list tar.Entry) (c t : string) (a : list tar.Entry) :
  (In (EvCopyToContainer c t a)
      (fst (V1.copyToContainer d containerID destPath tarArchive)) ->
   NewClientWithOpts d = None /\ ContainerInspect d containerID = None /\
   c = containerID /\ t = destPath /\ a = tarArchive) /\
  (forall fuel tr r,
      V2.copyToContainer fuel d containerID destPath tarArchive = Some (tr, r) ->
      In (EvCopyToContainer c t a) tr ->
      NewClientWithOpts d = None /\ ContainerInspect d containerID = None /\
      (exists trx,
          executeCommand fuel d containerID ["mkdir"; "-p"; destPath]
          = Some (trx, None)) /\
      c = containerID /\ t = destPath /\ a = tarArchive).
Proof.
  split.
  - intros Hin. pose proof (V1_copyToContainer_copy _ _ _ _ _ _ _ Hin) as Heq.
    revert Hin. unfold V1.copyToContainer.
    destruct (NewClientWithOpts d); simpl.
    { intros [E|[]]. discriminate. }
    destruct (ContainerInspect d containerID); simpl.
    { intros [E|[E|[E|[]]]]; discriminate. }
    intros _. tauto.
  - intros fuel tr r Hr Hin.
    pose proof (V2_copyToContainer_copy _ _ _ _ _ _ _ _ _ _ Hr Hin) as Heq.
    revert Hr Hin. unfold V2.copyToContainer.
    destruct (NewClientWithOpts d).
    { intros [= <- _] [E|[]]. discriminate. }
    destruct (ContainerInspect d containerID).
    { intros [= <- _] [E|[E|[E|[]]]]; discriminate. }
    destruct (executeCommand fuel d containerID ["mkdir"; "-p"; destPath])
      as [[trx [e|]]|] eqn:Ex; [| |discriminate].
    + intros [= <- _]. simpl. intros [E|[E|Hin]]; try discriminate.
      apply in_app_or in Hin as [Hin|Hin].
      { exfalso. exact (executeCommand_no_copy _ _ _ _ _ _ _ _ _ Ex Hin). }
      simpl in Hin. destruct Hin as [E|[]]; discriminate.
    + intros _ _. split_and!; try tauto. exists trx. reflexivity.
Qed.

Lemma X13_copy_only_after_checks_witness :
  NewClientWithOpts (Example.engine 0 "") = None /\
  ContainerInspect (Example.engine 0 "") "c1" = None /\
  "c1" = "c1" /\ "/app" = "/app" /\ @nil tar.Entry = [].
Proof.
  apply (proj1 (X13_copy_only_after_checks (Example.engine 0 "") "c1" "/app" []
                  "c1" "/app" [])).
  simpl. auto.
Defined.

(** X14.  In the second revision, when [mkdir -p] of the target exits with a
    non-zero code nothing is copied: [copyToContainer] returns
    [failed to create destination directory: command exited with code N:]
    followed by what the command had written, and its trace holds no copy. *)
Theorem X14_mkdir_failure_stops_copy (d : Docker)
  (containerID destPath execID reader : string) (tarArchive : list tar.Entry)
  (code : Z) (k fuel : nat) :
  NewClientWithOpts d = None -> ContainerInspect d containerID = None ->
  ContainerExecCreate d containerID ["mkdir"; "-p"; destPath] = inr execID ->
  ContainerExecAttach d execID = inr reader ->
  (forall i, i < k -> exists c,
        ContainerExecInspect d execID i = inr (true, c)) ->
  ContainerExecInspect d execID k = inr (false, code) ->
  code <> 0%Z -> k < fuel ->
  exists tr e,
    V2.copyToContainer fuel d containerID destPath tarArchive
    = Some (tr, Some e) /\
    Error e
    = "failed to create destination directory: command exited with code "
      +:+ of_Z code +:+ ": "
      +:+ String.substring 0 (drained d execID k) reader /\
    (forall c t a, ~ In (EvCopyToContainer c t a) tr).
Proof.
  intros Hcli Hins Hcreate Hattach Hrun Hstop Hcode Hfuel.
  assert (Hstop' : match ContainerExecInspect d execID k with
                   | inr (true, _) => False
                   | _ => True
                   end) by (rewrite Hstop; exact I).
  pose proof (executeCommand_on_session d containerID ["mkdir"; "-p"; destPath] execID reader
              k fuel Hcli Hcreate Hattach Hrun Hstop' Hfuel) as Hx.
  rewrite Hstop in Hx. unfold poll_outcome in Hx.
  apply Z.eqb_neq in Hcode. rewrite Hcode in Hx.
  unfold V2.copyToContainer. rewrite Hcli, Hins, Hx.
  eexists. eexists. split; [reflexivity|]. split; [reflexivity|].
  intros c t a Hin.
  change (In (EvCopyToContainer c t a)
            (EvNewClient :: EvContainerInspect containerID ::
             ([EvNewClient; EvExecCreate containerID ["mkdir"; "-p"; destPath];
               EvExecAttach execID] ++ poll_trace execID k ++
              [EvExecAttachClose execID; EvClientClose]) ++ [EvClientClose]))
    in Hin.
  destruct Hin as [E|[E|Hin]]; try discriminate.
  apply in_app_or in Hin as [Hin|Hin].
  - exact (executeCommand_no_copy _ _ _ _ _ _ _ _ _ Hx Hin).
  - destruct Hin as [E|[]]; discriminate.
Qed.

Lemma X14_mkdir_failure_stops_copy_witness :
  exists tr e,
    V2.copyToContainer 5 (Example.engine 1 "mkdir: denied") "c1" "/app" []
    = Some (tr, Some e) /\
    Error e
    = "failed to create destination directory: command exited with code 1: mkdir: d".
Proof.
  destruct (X14_mkdir_failure_stops_copy (Example.engine 1 "mkdir: denied")
              "c1" "/app" "exec-1" "mkdir: denied" [] 1 2 5
              eq_refl eq_refl eq_refl eq_refl) as (tr & e & H1 & H2 & _).
  - intros i Hi. exists 0%Z. destruct i as [|[|i]]; [reflexivity|reflexivity|lia].
  - reflexivity.
  - discriminate.
  - lia.
  - exists tr, e. split; [exact H1|exact H2].
Defined.

End CopyStage.

Section CopyReport.
Import Str filepath.

(** X15.  Once the archive is built, what [CopyProject] (first revision)
    answers is decided by the runtime alone, in this order: a client that
    cannot be made, a container that cannot be inspected, a copy that is
    refused -- each reported as [Error copying to container:] with the step
    and the cause -- and otherwise the success text. *)
Theorem X15_runtime_failures_reported (w : World) (req : mcp.CallToolRequest)
  (cid s : string) (info : node) (a : list tar.Entry) :
  mcp.Arguments req !! "container_id" = Some (mcp.VString cid) -> cid <> "" ->
  mcp.Arguments req !! "local_src_dir" = Some (mcp.VString s) -> s <> "" ->
  os_Stat (host w) (Clean s) = inr info -> IsDir info = true ->
  snd (V1.createTarArchive (host w) (Clean s)
         (snd (V1.resolveDest (mcp.Arguments req !! "dest_dir")))) = inr a ->
  let dest := fst (V1.resolveDest (mcp.Arguments req !! "dest_dir")) in
  let target := if snd (V1.resolveDest (mcp.Arguments req !! "dest_dir"))
                then dest else Dir dest in
  result (V1.CopyProject w req)
  = mcp.NewToolResultText
      match NewClientWithOpts (docker w) with
      | Some e =>
          "Error copying to container: failed to create Docker client: "
          +:+ Error e
      | None =>
          match ContainerInspect (docker w) cid with
          | Some e =>
              "Error copying to container: failed to inspect container: "
              +:+ Error e
          | None =>
              match CopyToContainer (docker w) cid target a with
              | Some e =>
                  "Error copying to container: failed to copy to container: "
                  +:+ Error e
              | None => success_text (Clean s) dest cid
              end
          end
      end.
Proof.
  intros Hc Hcne Hs Hsne Hst Hdir Ha dest target.
  destruct (V1_CopyProject_inv w req)
    as [[Hm _]|(cid' & Hc' & _ & [[Hm _]|(s' & Hs' & _ & Hstg)])].
  { rewrite Hc in Hm. contradiction. }
  { rewrite Hs in Hm. contradiction. }
  rewrite Hc in Hc'. injection Hc' as <-.
  rewrite Hs in Hs'. injection Hs' as <-.
  destruct Hstg as [(e & He & _)|(info' & Hi & [[Hd _]|[_ Har]])].
  { congruence. }
  { rewrite Hst in Hi. injection Hi as <-. congruence. }
  cbv zeta in Har. destruct Har as [(e & He & _)|(a' & Ha' & Hcp)].
  { congruence. }
  rewrite Ha in Ha'. injection Ha' as <-.
  fold dest in Hcp. fold target in Hcp.
  unfold V1.copyToContainer in Hcp.
  destruct (NewClientWithOpts (docker w)) as [e0|].
  { destruct Hcp as [(e & He & ->)|[He _]]; [|discriminate].
    simpl in He. injection He as <-. reflexivity. }
  destruct (ContainerInspect (docker w) cid) as [e0|].
  { destruct Hcp as [(e & He & ->)|[He _]]; [|discriminate].
    simpl in He. injection He as <-. reflexivity. }
  destruct (CopyToContainer (docker w) cid target a) as [e0|].
  - destruct Hcp as [(e & He & ->)|[He _]]; [|discriminate].
    simpl in He. injection He as <-. reflexivity.
  - destruct Hcp as [(e & He & _)|[_ ->]]; [discriminate|]. reflexivity.
Qed.

Lemma X15_runtime_failures_reported_witness :
  result (V1.CopyProject Example.world (Example.request Example.base_args))
  = mcp.NewToolResultText
      "Successfully copied /tmp/proj to /app in container c1".
Proof.
  refine (X15_runtime_failures_reported Example.world
            (Example.request Example.base_args) "c1" "/tmp/proj/" Example.proj
            (map (fun d => member_for (rel_path d) d) (descendants Example.proj))
            eq_refl _ eq_refl _ eq_refl eq_refl eq_refl); discriminate.
Defined.

End CopyReport.

Section ClientFacts.
Import Str filepath.

Lemma count_events_app f l1 l2 :
  count_events f (l1 ++ l2) = count_events f l1 + count_events f l2.
Proof. unfold count_events. rewrite List.filter_app, length_app. reflexivity. Qed.

Lemma waitExec_no_client d execID stdout stderr :
  forall fuel n tr r,
    waitExec d execID stdout stderr fuel n = Some (tr, r) ->
    count_events is_client_new tr = 0 /\ count_events is_client_close tr = 0.
Proof.
  induction fuel as [|fuel IH]; intros n tr r H; [discriminate|].
  simpl in H.
  destruct (ContainerExecInspect d execID n) as [e|[running code]].
  - injection H as <- _. split; reflexivity.
  - destruct running; simpl in H.
    + destruct (waitExec d execID stdout stderr fuel (S n)) as [[tr' r']|] eqn:Ew;
        [|discriminate].
      injection H as <- _. exact (IH _ _ _ Ew).
    + destruct (negb (code =? 0)%Z); injection H as <- _; split; reflexivity.
Qed.

Lemma executeCommand_clients fuel d cid cmd tr r :
  NewClientWithOpts d = None ->
  executeCommand fuel d cid cmd = Some (tr, r) ->
  count_events is_client_new tr = 1 /\ count_events is_client_close tr = 1 /\
  List.last tr EvSleep = EvClientClose.
Proof.
  intros Hcli. unfold executeCommand. rewrite Hcli.
  destruct (ContainerExecCreate d cid cmd) as [e|execID].
  { intros [= <- _]. split_and!; reflexivity. }
  destruct (ContainerExecAttach d execID) as [e|reader].
  { intros [= <- _]. split_and!; reflexivity. }
  destruct (waitExec d execID _ _ fuel 0) as [[tr' r']|] eqn:Ew; [|discriminate].
  intros H.
  assert (Htr : tr = [EvNewClient; EvExecCreate cid cmd; EvExecAttach execID]
                     ++ tr' ++ [EvExecAttachClose execID; EvClientClose])
    by congruence.
  subst tr. destruct (waitExec_no_client _ _ _ _ _ _ _ _ Ew) as [Hn Hc].
  rewrite !count_events_app, Hn, Hc. split_and!; try reflexivity.
  rewrite app_assoc.
  change [EvExecAttachClose execID; EvClientClose]
    with ([EvExecAttachClose execID] ++ [EvClientClose]).
  rewrite app_assoc. apply last_last.
Qed.

(** X16.  No client of the runtime is leaked: on every return of
    [copyToContainer] (both revisions) and of [executeCommand], every client
    that was made has been closed, and closing its own client is the last
    thing the function does.  Where the client cannot be made nothing else
    is attempted. *)
Theorem X16_clients_closed (d : Docker) (containerID destPath : string)
  (tarArchive : list tar.Entry) (cmd : list string) :
  (NewClientWithOpts d = None ->
   (count_events is_client_new
      (fst (V1.copyToContainer d containerID destPath tarArchive))
    = count_events is_client_close
        (fst (V1.copyToContainer d containerID destPath tarArchive)) /\
    List.last (fst (V1.copyToContainer d containerID destPath tarArchive)) EvSleep
    = EvClientClose) /\
   (forall fuel tr r,
       executeCommand fuel d containerID cmd = Some (tr, r) ->
       count_events is_client_new tr = count_events is_client_close tr /\
       List.last tr EvSleep = EvClientClose) /\
   (forall fuel tr r,
       V2.copyToContainer fuel d containerID destPath tarArchive = Some (tr, r) ->
       count_events is_client_new tr = count_events is_client_close tr /\
       List.last tr EvSleep = EvClientClose)) /\
  (forall e,
      NewClientWithOpts d = Some e ->
      fst (V1.copyToContainer d containerID destPath tarArchive) = [EvNewClient] /\
      (forall fuel,
          executeCommand fuel d containerID cmd
          = Some ([EvNewClient],
                  Some (Errorf "failed to create Docker client" e))) /\
      (forall fuel,
          V2.copyToContainer fuel d containerID destPath tarArchive
          = Some ([EvNewClient],
                  Some (Errorf "failed to create Docker client" e)))).
Proof.
  split.
  - intros Hcli. split; [|split].
    + unfold V1.copyToContainer. rewrite Hcli.
      destruct (ContainerInspect d containerID); [split; reflexivity|].
      destruct (CopyToContainer d containerID destPath tarArchive);
        split; reflexivity.
    + intros fuel tr r Hx.
      destruct (executeCommand_clients _ _ _ _ _ _ Hcli Hx) as (-> & -> & Hl).
      split; [reflexivity|exact Hl].
    + intros fuel tr r. unfold V2.copyToContainer. rewrite Hcli.
      destruct (ContainerInspect d containerID).
      { intros [= <- _]. split; reflexivity. }
      destruct (executeCommand fuel d containerID ["mkdir"; "-p"; destPath])
        as [[trx [e|]]|] eqn:Ex; [| |discriminate].
      * intros H.
        assert (Htr : tr = [EvNewClient; EvContainerInspect containerID] ++ trx
                           ++ [EvClientClose]) by congruence.
        subst tr.
        destruct (executeCommand_clients _ _ _ _ _ _ Hcli Ex) as (Hn & Hc & _).
        rewrite !count_events_app, Hn, Hc. split; [reflexivity|].
        rewrite app_assoc. apply last_last.
      * intros H.
        assert (Htr : tr = [EvNewClient; EvContainerInspect containerID] ++ trx
                           ++ [EvCopyToContainer containerID destPath tarArchive;
                               EvClientClose])
          by (destruct (CopyToContainer d containerID destPath tarArchive);
              congruence).
        subst tr.
        destruct (executeCommand_clients _ _ _ _ _ _ Hcli Ex) as (Hn & Hc & _).
        rewrite !count_events_app, Hn, Hc. split; [reflexivity|].
        rewrite app_assoc.
        change [EvCopyToContainer containerID destPath tarArchive; EvClientClose]
          with ([EvCopyToContainer containerID destPath tarArchive]
                ++ [EvClientClose]).
        rewrite app_assoc. apply last_last.
  - intros e Hcli. unfold V1.copyToContainer, executeCommand, V2.copyToContainer.
    rewrite Hcli. split_and!; reflexivity.
Qed.

Lemma X16_clients_closed_witness :
  List.last (fst (V1.copyToContainer (Example.engine 0 "") "c1" "/app" []))
            EvSleep = EvClientClose.
Proof.
  exact (proj2 (proj1 (proj1 (X16_clients_closed (Example.engine 0 "") "c1"
                                "/app" [] []) eq_refl))).
Defined.

End ClientFacts.

Section Landing.
Import Str filepath.

Lemma render_inj r es1 es2 :
  NF r es1 -> NF r es2 -> render r es1 = render r es2 -> es1 = es2.
Proof.
  intros H1 H2 Heq.
  destruct (render_facts r es1 H1) as (_ & _ & F1).
  destruct (render_facts r es2 H2) as (_ & _ & F2).
  rewrite Heq, F2 in F1. apply (f_equal (@rev string)) in F1.
  rewrite !rev_involutive in F1. congruence.
Qed.

Lemma Dir_render r es nm :
  NF r es -> proper_name nm = true ->
  Dir (render r (es ++ [nm])) = render r es.
Proof.
  intros Hnf Hnm.
  assert (Hnf' : NF r (es ++ [nm]))
    by (apply NF_app; [exact Hnf|repeat constructor; exact Hnm]).
  assert (Hne : es ++ [nm] <> []) by (destruct es; discriminate).
  unfold Dir. rewrite (split_render r _ Hnf' Hne).
  destruct (render_facts r es Hnf) as (Hn & _ & _).
  destruct r.
  - change (rev ("" :: es ++ [nm])) with (rev (es ++ [nm]) ++ [""]).
    rewrite rev_app_distr. cbn [rev app].
    destruct (rev es ++ [""]) as [|x before] eqn:E.
    { destruct (rev es); discriminate. }
    rewrite <- E. rewrite rev_app_distr, rev_involutive. cbn [rev app].
    destruct es as [|e es].
    + reflexivity.
    + rewrite join_sep_cons by discriminate.
      change ("" +:+ "/" +:+ join_sep (e :: es)) with (render true (e :: es)).
      rewrite Clean_trailing_slash by exact Hn. apply Clean_render. exact Hnf.
  - rewrite rev_app_distr. cbn [rev app].
    destruct (rev es) as [|x before] eqn:E.
    { apply (f_equal (@rev string)) in E. rewrite rev_involutive in E.
      subst es. reflexivity. }
    rewrite <- E, rev_involutive.
    destruct es as [|e es]; [discriminate|].
    change (join_sep (e :: es)) with (render false (e :: es)).
    rewrite Clean_trailing_slash by exact Hn. apply Clean_render. exact Hnf.
Qed.

(** X17.  Where a nested copy lands.  With [dest_dir] a plain name the
    destination is [/app/<dest_dir>], the archive is extracted in its parent
    [/app], and a member named [<base>/<rel>] therefore lands at
    [/app/<base>/<rel>], [<base>] being the base name of the source
    directory.  That is below the destination the tool reports exactly when
    [dest_dir] is that base name. *)
Theorem X17_nested_copy_lands_under_base_name (nm b src : string)
  (rel : list string) :
  proper_name nm = true -> proper_name b = true ->
  Forall (fun e => proper_name e = true) rel -> rel <> [] ->
  V1.resolveDest (Some (mcp.VString nm)) = ("/app/" +:+ nm, false) /\
  V2.resolveDest src (Some (mcp.VString nm)) = "/app/" +:+ nm /\
  Dir ("/app/" +:+ nm) = "/app" /\
  Join [Dir ("/app/" +:+ nm); archive_name false b (join_sep rel)]
  = "/app/" +:+ b +:+ "/" +:+ join_sep rel /\
  (Join [Dir ("/app/" +:+ nm); archive_name false b (join_sep rel)]
   = Join ["/app/" +:+ nm; join_sep rel] <-> nm = b).
Proof.
  intros Hnm Hb Hrel Hne.
  assert (Happ : NF true ["app"]) by (exists 0, ["app"]; split_and!; auto).
  assert (Hbn : NF false [b]) by (exists 0, [b]; split_and!; auto).
  assert (Hd : Dir ("/app/" +:+ nm) = "/app")
    by (exact (Dir_render true ["app"] nm Happ Hnm)).
  assert (Hname : archive_name false b (join_sep rel) = join_sep (b :: rel)).
  { unfold archive_name. change b with (render false [b]) at 1.
    rewrite Join_under by assumption. reflexivity. }
  assert (Hland : Join [Dir ("/app/" +:+ nm); archive_name false b (join_sep rel)]
                  = render true ("app" :: b :: rel)).
  { rewrite Hd, Hname. change "/app" with (render true ["app"]).
    rewrite Join_under; [reflexivity|exact Happ| |discriminate].
    constructor; assumption. }
  assert (Hdest : Join ["/app/" +:+ nm; join_sep rel]
                  = render true ("app" :: nm :: rel)).
  { change ("/app/" +:+ nm) with (render true ["app"; nm]).
    rewrite Join_under; [reflexivity| |exact Hrel|exact Hne].
    apply (NF_app true ["app"] [nm]); [exact Happ|repeat constructor; exact Hnm]. }
  destruct (proper_name_spec nm Hnm) as (N1 & N2 & N3 & N4).
  apply String.eqb_neq in N1, N2.
  assert (Hpre : has_slash_prefix nm = false)
    by (apply nosep_no_slash_prefix; exact N4).
  split_and!.
  - unfold V1.resolveDest. simpl mcp.as_string. cbv iota. simpl negb.
    rewrite N1, N2, Hpre. simpl orb. simpl negb. cbv iota.
    rewrite Join_app_name by exact Hnm. reflexivity.
  - unfold V2.resolveDest. simpl mcp.as_string. cbv iota. simpl negb.
    rewrite N1, Hpre. simpl orb. simpl negb. cbv iota.
    apply Join_app_name. exact Hnm.
  - exact Hd.
  - rewrite Hland. unfold render. rewrite join_sep_cons by discriminate.
    rewrite join_sep_cons by exact Hne. reflexivity.
  - rewrite Hland, Hdest. split.
    + intros Heq. apply render_inj in Heq; [congruence| |].
      * apply (NF_app true ["app"] (b :: rel)); [exact Happ|].
        constructor; assumption.
      * apply (NF_app true ["app"] (nm :: rel)); [exact Happ|].
        constructor; assumption.
    + intros ->. reflexivity.
Qed.

Lemma X17_nested_copy_lands_under_base_name_witness :
  Join [Dir ("/app/" +:+ "data"); archive_name false "proj" (join_sep ["a.txt"])]
  = "/app/proj/a.txt".
Proof.
  refine (proj1 (proj2 (proj2 (proj2
            (X17_nested_copy_lands_under_base_name "data" "proj" "/tmp/proj"
               ["a.txt"] eq_refl eq_refl _ _))))).
  - repeat constructor.
  - discriminate.
Defined.

End Landing.

(** ** The home directory of the container *)

Section HomeDirFacts.
Import Str filepath gostrings.

Lemma trimFront_suffix is2 is3 :
  forall n l, length l <= n -> exists pre, l = pre ++ trimFront is2 is3 l.
Proof.
  induction n as [|n IH]; intros l Hl.
  - destruct l; [exists []; reflexivity|simpl in Hl; lia].
  - destruct l as [|c1 rest1]; [exists []; reflexivity|].
    simpl in Hl. simpl.
    destruct (asciiSpace c1).
    { destruct (IH rest1 ltac:(lia)) as (pre & Hpre).
      exists (c1 :: pre). simpl. rewrite <- Hpre. reflexivity. }
    destruct rest1 as [|c2 rest2]; [exists []; reflexivity|].
    simpl in Hl.
    destruct (is2 c1 c2).
    { destruct (IH rest2 ltac:(lia)) as (pre & Hpre).
      exists (c1 :: c2 :: pre). simpl. rewrite <- Hpre. reflexivity. }
    destruct rest2 as [|c3 rest3]; [exists []; reflexivity|].
    simpl in Hl.
    destruct (is3 c1 c2 c3); [|exists []; reflexivity].
    destruct (IH rest3 ltac:(lia)) as (pre & Hpre).
    exists (c1 :: c2 :: c3 :: pre). simpl. rewrite <- Hpre. reflexivity.
Qed.

Lemma trimFront_length is2 is3 l :
  length (trimFront is2 is3 l) <= length l.
Proof.
  destruct (trimFront_suffix is2 is3 (length l) l (le_n _)) as (pre & Hpre).
  rewrite Hpre at 2. rewrite length_app. lia.
Qed.

Lemma trimFront_same_length is2 is3 l :
  length l <= length (trimFront is2 is3 l) -> trimFront is2 is3 l = l.
Proof.
  intros Hlen.
  destruct (trimFront_suffix is2 is3 (length l) l (le_n _)) as (pre & Hpre).
  assert (Hp : length pre = 0).
  { apply (f_equal (@length ascii)) in Hpre. rewrite length_app in Hpre. lia. }
  destruct pre; [|discriminate]. symmetry. exact Hpre.
Qed.

(** What is left starts with no white space: trimming it again changes
    nothing. *)
Lemma trimFront_idempotent is2 is3 :
  forall n l, length l <= n ->
    trimFront is2 is3 (trimFront is2 is3 l) = trimFront is2 is3 l.
Proof.
  induction n as [|n IH]; intros l Hl.
  - destruct l; [reflexivity|simpl in Hl; lia].
  - destruct l as [|c1 rest1]; [reflexivity|].
    simpl in Hl.
    cbn [trimFront].
    destruct (asciiSpace c1) eqn:E1; [apply IH; lia|].
    destruct rest1 as [|c2 rest2].
    { cbn [trimFront]. rewrite E1. reflexivity. }
    simpl in Hl.
    destruct (is2 c1 c2) eqn:E2; [apply IH; lia|].
    destruct rest2 as [|c3 rest3].
    { cbn [trimFront]. rewrite E1, E2. reflexivity. }
    simpl in Hl.
    destruct (is3 c1 c2 c3) eqn:E3; [apply IH; lia|].
    cbn [trimFront]. rewrite E1, E2, E3. reflexivity.
Qed.

Lemma trimFront_blank is2 is3 l :
  List.Forall (fun c => asciiSpace c = true) l -> trimFront is2 is3 l = [].
Proof.
  induction 1 as [|c l Hc _ IH]; [reflexivity|].
  simpl. rewrite Hc. exact IH.
Qed.

(** A byte that ends no encoding of a white space rune, put after bytes
    that start with none, leaves them so. *)
Lemma trimFront_fixed_snoc is2 is3 x l :
  (forall c, is2 c x = false) ->
  (forall c c', is3 c c' x = false) ->
  l <> [] ->
  trimFront is2 is3 l = l ->
  trimFront is2 is3 (l ++ [x]) = l ++ [x].
Proof.
  intros H2 H3 Hne Hfix.
  destruct l as [|c1 rest1]; [contradiction|].
  pose proof (trimFront_length is2 is3 rest1) as Hl1.
  cbn [trimFront] in Hfix. cbn [app trimFront].
  destruct (asciiSpace c1).
  { apply (f_equal (@length ascii)) in Hfix. simpl in Hfix. lia. }
  destruct rest1 as [|c2 rest2].
  { cbn [app]. rewrite H2. reflexivity. }
  pose proof (trimFront_length is2 is3 rest2) as Hl2.
  cbn [app].
  destruct (is2 c1 c2).
  { apply (f_equal (@length ascii)) in Hfix. simpl in Hfix. lia. }
  destruct rest2 as [|c3 rest3].
  { cbn [app]. rewrite H3. reflexivity. }
  pose proof (trimFront_length is2 is3 rest3) as Hl3.
  cbn [app].
  destruct (is3 c1 c2 c3); [|reflexivity].
  apply (f_equal (@length ascii)) in Hfix. simpl in Hfix. lia.
Qed.

Lemma trimRight_length l : length (trimRight l) <= length l.
Proof.
  unfold trimRight, trimEnd. rewrite length_rev.
  etransitivity; [apply trimFront_length|]. rewrite length_rev. lia.
Qed.

Lemma list_ascii_of_string_app s t :
  list_ascii_of_string (s +:+ t)
  = list_ascii_of_string s ++ list_ascii_of_string t.
Proof.
  induction s as [|c s IH]; [reflexivity|].
  change (String c s +:+ t) with (String c (s +:+ t)).
  cbn [list_ascii_of_string app]. rewrite IH. reflexivity.
Qed.

(** A string that [TrimSpace] leaves as it is has no white space at either
    end. *)
Lemma TrimSpace_fixed p :
  TrimSpace p = p ->
  trimLeft (list_ascii_of_string p) = list_ascii_of_string p /\
  trimRight (list_ascii_of_string p) = list_ascii_of_string p.
Proof.
  intros Hp. unfold TrimSpace in Hp.
  apply (f_equal list_ascii_of_string) in Hp.
  rewrite list_ascii_of_string_of_list_ascii in Hp.
  set (lp := list_ascii_of_string p) in *.
  assert (Hleft : trimLeft lp = lp).
  { apply trimFront_same_length.
    pose proof (trimRight_length (trimLeft lp)) as Hr.
    rewrite Hp in Hr. exact Hr. }
  split; [exact Hleft|]. rewrite Hleft in Hp. exact Hp.
Qed.

Lemma TrimSpace_idempotent s : TrimSpace (TrimSpace s) = TrimSpace s.
Proof.
  unfold TrimSpace. rewrite list_ascii_of_string_of_list_ascii.
  set (l := trimLeft (list_ascii_of_string s)).
  f_equal.
  assert (Hleft : trimLeft (trimRight l) = trimRight l).
  { (* the front of what is left is the front of [l] unless nothing or
       too little is left; trimming the front of [l] changed nothing *)
    apply trimFront_same_length.
    unfold trimRight at 2.
    destruct (trimFront_suffix
                (fun c1 c2 => space2 c2 c1) (fun c1 c2 c3 => space3 c3 c2 c1)
                (length (rev l)) (rev l) (le_n _)) as (pre & Hpre).
    fold (trimEnd (rev l)) in Hpre.
    assert (Hl : l = trimRight l ++ rev pre).
    { unfold trimRight. rewrite <- rev_app_distr, <- Hpre, rev_involutive.
      reflexivity. }
    assert (Hfix : trimLeft l = l).
    { apply (trimFront_idempotent _ _ (length (list_ascii_of_string s)));
        apply le_n. }
    fold (trimRight l).
    clear Hpre. clearbody l. revert Hl Hfix.
    generalize (trimRight l) (rev pre).
    intros r q Hl Hfix. subst l.
    unfold trimLeft in *.
    destruct r as [|c1 r1]; [simpl; lia|].
    pose proof (trimFront_length space2 space3 (r1 ++ q)) as L1.
    cbn [app trimFront] in Hfix. cbn [trimFront].
    destruct (asciiSpace c1).
    { apply (f_equal (@length ascii)) in Hfix. simpl in Hfix. lia. }
    destruct r1 as [|c2 r2]; [simpl; lia|].
    pose proof (trimFront_length space2 space3 (r2 ++ q)) as L2.
    cbn [app] in Hfix.
    destruct (space2 c1 c2).
    { apply (f_equal (@length ascii)) in Hfix. simpl in Hfix. lia. }
    destruct r2 as [|c3 r3]; [simpl; lia|].
    pose proof (trimFront_length space2 space3 (r3 ++ q)) as L3.
    cbn [app] in Hfix.
    destruct (space3 c1 c2 c3); [|simpl; lia].
    apply (f_equal (@length ascii)) in Hfix. simpl in Hfix. lia. }
  rewrite Hleft.
  unfold trimRight. rewrite rev_involutive.
  unfold trimEnd. rewrite (trimFront_idempotent _ _ (length (rev l))) by apply le_n.
  reflexivity.
Qed.

Lemma space2_newline c : space2 c "010"%char = false.
Proof. unfold space2. simpl. apply andb_false_r. Qed.

Lemma space3_newline c c' : space3 c c' "010"%char = false.
Proof.
  unfold space3. cbv zeta. change (nat_of_ascii "010"%char) with 10.
  change (Nat.eqb 10 128) with false. change (Nat.eqb 10 159) with false.
  change (Nat.leb 128 10) with false. change (Nat.eqb 10 168) with false.
  change (Nat.eqb 10 169) with false. change (Nat.eqb 10 175) with false.
  cbn [andb orb]. rewrite !andb_false_r. reflexivity.
Qed.

(** The line that [echo] writes loses its line feed. *)
Lemma TrimSpace_line p :
  p <> "" -> TrimSpace p = p ->
  TrimSpace (p +:+ String "010" "") = p.
Proof.
  intros Hne Hp. destruct (TrimSpace_fixed p Hp) as (Hleft & Hright).
  unfold TrimSpace. rewrite list_ascii_of_string_app.
  change (list_ascii_of_string (String "010" "")) with ["010"%char].
  set (lp := list_ascii_of_string p) in *.
  assert (Hlp : lp <> []).
  { intros E. apply Hne. rewrite <- (string_of_list_ascii_of_string p).
    fold lp. rewrite E. reflexivity. }
  unfold trimLeft.
  rewrite (trimFront_fixed_snoc space2 space3 "010"%char lp
             space2_newline space3_newline Hlp Hleft).
  unfold trimRight, trimEnd. rewrite rev_app_distr.
  cbn [rev app trimFront]. change (asciiSpace "010") with true. cbv iota.
  fold (trimEnd (rev lp)). fold (trimRight lp). rewrite Hright.
  apply string_of_list_ascii_of_string.
Qed.

Lemma TrimSpace_blank s :
  List.Forall (fun c => asciiSpace c = true) (list_ascii_of_string s) ->
  TrimSpace s = "".
Proof.
  intros H. unfold TrimSpace, trimLeft. rewrite trimFront_blank by exact H.
  reflexivity.
Qed.

(** The wait loop of [getContainerHomeDir] on a session reported running
    [k] times. *)
Lemma waitHomeDir_trace d execID k :
  forall n fuel,
    (forall i, i < k -> exists c,
          ContainerExecInspect d execID (n + i) = inr (true, c)) ->
    match ContainerExecInspect d execID (n + k) with
    | inr (true, _) => False
    | _ => True
    end ->
    k < fuel ->
    waitHomeDir d execID fuel n
    = Some (poll_trace execID k,
            match ContainerExecInspect d execID (n + k) with
            | inl e => Some (HomeDirError (Errorf "failed to inspect exec" e))
            | inr (_, code) =>
                if (code =? 0)%Z then None else Some (HomeDirExited code)
            end).
Proof.
  induction k as [|k IH]; intros n fuel Hrun Hstop Hfuel;
    (destruct fuel as [|fuel]; [lia|]).
  - rewrite Nat.add_0_r in *. simpl.
    destruct (ContainerExecInspect d execID n) as [e|[[] c]];
      [reflexivity|contradiction|].
    simpl. destruct (c =? 0)%Z; reflexivity.
  - destruct (Hrun 0 ltac:(lia)) as (c & Hc). rewrite Nat.add_0_r in Hc.
    simpl. rewrite Hc. simpl.
    rewrite (IH (S n) fuel).
    + replace (S n + k) with (n + S k) by lia. reflexivity.
    + intros i Hi. destruct (Hrun (S i) ltac:(lia)) as (c' & Hc').
      exists c'. rewrite <- Hc'. f_equal. lia.
    + replace (S n + k) with (n + S k) by lia. exact Hstop.
    + lia.
Qed.

Lemma waitHomeDir_failure d execID :
  forall fuel n tr r,
    waitHomeDir d execID fuel n = Some (tr, Some r) ->
    (exists e, r = HomeDirError (Errorf "failed to inspect exec" e)) \/
    (exists k code, ContainerExecInspect d execID k = inr (false, code) /\
                    code <> 0%Z /\ r = HomeDirExited code).
Proof.
  induction fuel as [|fuel IH]; intros n tr r H; [discriminate|].
  simpl in H.
  destruct (ContainerExecInspect d execID n) as [e|[running c]] eqn:Ei.
  - injection H as _ <-. left. exists e. reflexivity.
  - destruct running; simpl in H.
    + destruct (waitHomeDir d execID fuel (S n)) as [[tr' r']|] eqn:Ew;
        [|discriminate].
      injection H as _ ->. exact (IH _ _ _ Ew).
    + destruct (c =? 0)%Z eqn:Ec; simpl in H; [discriminate|].
      injection H as _ <-. right. exists n, c. split; [exact Ei|].
      split; [apply Z.eqb_neq; exact Ec|reflexivity].
Qed.

(** X18.  [strings.TrimSpace], with which [getContainerHomeDir] reads the
    output of [echo $HOME], is idempotent; it gives the empty string on a
    string of ASCII white space only; and it gives [p] on the line
    [p ++ "\n"] when [p] is not empty and has no white space at either
    end. *)
Theorem X18_trim_space (s p : string) :
  gostrings.TrimSpace (gostrings.TrimSpace s) = gostrings.TrimSpace s /\
  (List.Forall (fun c => gostrings.asciiSpace c = true) (list_ascii_of_string s) ->
   gostrings.TrimSpace s = "") /\
  (p <> "" -> gostrings.TrimSpace p = p ->
   gostrings.TrimSpace (p +:+ String "010" "") = p).
Proof.
  split; [apply TrimSpace_idempotent|].
  split; [apply TrimSpace_blank|apply TrimSpace_line].
Qed.

Lemma X18_trim_space_witness :
  gostrings.TrimSpace (String "009" " " +:+ String "010" "") = "" /\
  gostrings.TrimSpace ("/home/dev" +:+ String "010" "") = "/home/dev".
Proof.
  split.
  - refine (proj1 (proj2 (X18_trim_space
                            (String "009" " " +:+ String "010" "") "")) _).
    repeat constructor.
  - refine (proj2 (proj2 (X18_trim_space "" "/home/dev")) _ eq_refl).
    discriminate.
Defined.

(** X19.  [getContainerHomeDir] never returns an empty home directory with
    a nil error: what it returns is the trimmed output of the session, or
    [/root] when nothing is left of the output after trimming, and trimming
    it again changes nothing.  Closing the attachment is the last thing it
    does. *)
Theorem X19_home_dir_never_empty (fuel : nat) (d : Docker)
  (containerID : string) (tr : list event) (home : string) :
  getContainerHomeDir fuel d containerID = Some (tr, HomeDir home) ->
  home <> "" /\
  gostrings.TrimSpace home = home /\
  exists execID reader,
    ContainerExecCreate d containerID ["sh"; "-c"; "echo $HOME"] = inr execID /\
    ContainerExecAttach d execID = inr reader /\
    (home = gostrings.TrimSpace reader \/
     (gostrings.TrimSpace reader = "" /\ home = "/root")) /\
    List.last tr EvSleep = EvExecAttachClose execID.
Proof.
  unfold getContainerHomeDir.
  destruct (ContainerExecCreate d containerID ["sh"; "-c"; "echo $HOME"])
    as [e|execID] eqn:Ec; [discriminate|].
  destruct (ContainerExecAttach d execID) as [e|reader] eqn:Ea; [discriminate|].
  destruct (waitHomeDir d execID fuel 0) as [[tr' [r|]]|] eqn:Ew;
    [|cbv zeta|discriminate].
  { intros H.
    destruct (waitHomeDir_failure _ _ _ _ _ _ Ew) as [(e & ->)|(k & c & _ & _ & ->)];
      discriminate. }
  intros H.
  assert (Htr : tr = ([EvExecCreate containerID ["sh"; "-c"; "echo $HOME"];
                       EvExecAttach execID] ++ tr')
                     ++ [EvExecAttachClose execID])
    by (rewrite <- app_assoc; congruence).
  assert (Hhome : home = if String.eqb (TrimSpace reader) ""
                         then "/root" else TrimSpace reader) by congruence.
  clear H.
  assert (Hlast : List.last tr EvSleep = EvExecAttachClose execID)
    by (rewrite Htr; apply last_last).
  destruct (String.eqb (TrimSpace reader) "") eqn:Et.
  - apply String.eqb_eq in Et. subst home.
    split; [discriminate|]. split; [reflexivity|].
    exists execID, reader. split_and!; auto.
  - apply String.eqb_neq in Et. subst home.
    split; [exact Et|]. split; [apply TrimSpace_idempotent|].
    exists execID, reader. split_and!; auto.
Qed.

Lemma X19_home_dir_never_empty_witness :
  "/root" <> "" /\ gostrings.TrimSpace "/root" = "/root".
Proof.
  destruct (X19_home_dir_never_empty 5 (Example.engine 0 (String "010" "")) "c1"
              ([EvExecCreate "c1" ["sh"; "-c"; "echo $HOME"];
                EvExecAttach "exec-1"; EvExecInspect "exec-1"; EvSleep;
                EvExecInspect "exec-1"; EvSleep; EvExecInspect "exec-1";
                EvExecAttachClose "exec-1"])
              "/root" eq_refl) as (H1 & H2 & _).
  exact (conj H1 H2).
Defined.

(** X20.  On a session that is reported running [k] times and then stopped
    with exit code [code], [getContainerHomeDir] returns after [k + 1]
    inspects.  With a non-zero code it fails with the code alone, whatever
    the session wrote.  With code 0 it returns the line that was written
    without its line feed, and [/root] when only ASCII white space was
    written. *)
Theorem X20_home_dir_of_session (d : Docker) (containerID execID reader : string)
  (code : Z) (k fuel : nat) :
  ContainerExecCreate d containerID ["sh"; "-c"; "echo $HOME"] = inr execID ->
  ContainerExecAttach d execID = inr reader ->
  (forall i, i < k -> exists c,
        ContainerExecInspect d execID i = inr (true, c)) ->
  ContainerExecInspect d execID k = inr (false, code) ->
  k < fuel ->
  let tr := [EvExecCreate containerID ["sh"; "-c"; "echo $HOME"];
             EvExecAttach execID]
            ++ poll_trace execID k ++ [EvExecAttachClose execID] in
  (code <> 0%Z ->
   getContainerHomeDir fuel d containerID = Some (tr, HomeDirExited code) /\
   HomeDirResult_Error (HomeDirExited code)
   = Some ("command exited with code " +:+ Str.of_Z code)) /\
  (code = 0%Z ->
   forall p, p <> "" -> gostrings.TrimSpace p = p ->
             reader = p +:+ String "010" "" ->
             getContainerHomeDir fuel d containerID = Some (tr, HomeDir p)) /\
  (code = 0%Z ->
   List.Forall (fun c => gostrings.asciiSpace c = true)
               (list_ascii_of_string reader) ->
   getContainerHomeDir fuel d containerID = Some (tr, HomeDir "/root")).
Proof.
  intros Hc Ha Hrun Hstop Hfuel tr.
  assert (Hw : waitHomeDir d execID fuel 0
               = Some (poll_trace execID k,
                       if (code =? 0)%Z then None else Some (HomeDirExited code))).
  { rewrite (waitHomeDir_trace d execID k 0 fuel Hrun); [|simpl; rewrite Hstop; exact I|exact Hfuel].
    simpl. rewrite Hstop. reflexivity. }
  unfold getContainerHomeDir. rewrite Hc, Ha, Hw.
  split_and!.
  - intros Hcode. apply Z.eqb_neq in Hcode. rewrite Hcode.
    split; reflexivity.
  - intros -> p Hne Hp ->. cbv zeta. change (0 =? 0)%Z with true. cbv iota.
    rewrite (TrimSpace_line p Hne Hp).
    destruct (String.eqb p "") eqn:E; [apply String.eqb_eq in E; contradiction|].
    reflexivity.
  - intros -> Hblank. cbv zeta. change (0 =? 0)%Z with true. cbv iota.
    rewrite (TrimSpace_blank reader Hblank). reflexivity.
Qed.

Lemma X20_home_dir_of_session_witness :
  getContainerHomeDir 5 (Example.engine 0 ("/home/dev" +:+ String "010" "")) "c1"
  = Some ([EvExecCreate "c1" ["sh"; "-c"; "echo $HOME"]; EvExecAttach "exec-1";
           EvExecInspect "exec-1"; EvSleep; EvExecInspect "exec-1"; EvSleep;
           EvExecInspect "exec-1"; EvExecAttachClose "exec-1"],
          HomeDir "/home/dev") /\
  getContainerHomeDir 5 (Example.engine 2 "sh: not found") "c1"
  = Some ([EvExecCreate "c1" ["sh"; "-c"; "echo $HOME"]; EvExecAttach "exec-1";
           EvExecInspect "exec-1"; EvSleep; EvExecInspect "exec-1"; EvSleep;
           EvExecInspect "exec-1"; EvExecAttachClose "exec-1"],
          HomeDirExited 2).
Proof.
  assert (Hrun : forall code out i, i < 2 -> exists c,
               ContainerExecInspect (Example.engine code out) "exec-1" i
               = inr (true, c)).
  { intros code out i Hi. exists 0%Z.
    destruct i as [|[|i]]; [reflexivity|reflexivity|lia]. }
  split.
  - refine (proj1 (proj2 (X20_home_dir_of_session
                            (Example.engine 0 ("/home/dev" +:+ String "010" ""))
                            "c1" "exec-1" ("/home/dev" +:+ String "010" "")
                            0 2 5 eq_refl eq_refl (Hrun _ _) eq_refl _))
                  eq_refl "/home/dev" _ eq_refl eq_refl).
    + lia.
    + discriminate.
  - refine (proj1 (proj1 (X20_home_dir_of_session
                            (Example.engine 2 "sh: not found")
                            "c1" "exec-1" "sh: not found"
                            2 2 5 eq_refl eq_refl (Hrun _ _) eq_refl _) _)).
    + lia.
    + discriminate.
Defined.

End HomeDirFacts.

(** ** The path functions on sample paths *)

Module PathTests.
Import filepath.

Example clean1 : Clean "a//b/./c/.." = "a/b". Proof. reflexivity. Qed.
Example clean2 : Clean "/../a/" = "/a". Proof. reflexivity. Qed.
Example clean3 : Clean "../../a/../.." = "../../..". Proof. reflexivity. Qed.
Example clean4 : Clean "a/.." = ".". Proof. reflexivity. Qed.
Example clean5 : Clean "///" = "/". Proof. reflexivity. Qed.
Example join1 : Join ["/app"; "."] = "/app". Proof. reflexivity. Qed.
Example join2 : Join ["/app"; ""] = "/app". Proof. reflexivity. Qed.
Example join3 : Join ["/app"; "../x"] = "/x". Proof. reflexivity. Qed.
Example join4 : Join [""; ""] = "". Proof. reflexivity. Qed.
Example base1 : Base "/tmp/proj" = "proj". Proof. reflexivity. Qed.
Example base2 : Base "/" = "/". Proof. reflexivity. Qed.
Example base3 : Base "." = ".". Proof. reflexivity. Qed.
Example base4 : Base "a/b//" = "b". Proof. reflexivity. Qed.
Example dir1 : Dir "/app/data" = "/app". Proof. reflexivity. Qed.
Example dir2 : Dir "/app" = "/". Proof. reflexivity. Qed.
Example dir3 : Dir "app" = ".". Proof. reflexivity. Qed.
Example dir4 : Dir "/a/b/" = "/a/b". Proof. reflexivity. Qed.
Example dir5 : Dir "" = ".". Proof. reflexivity. Qed.
Example rel1 : Rel "/tmp/proj" "/tmp/proj/sub/b.txt" = Some "sub/b.txt".
Proof. reflexivity. Qed.
Example rel2 : Rel "/tmp/proj" "/tmp/proj" = Some ".". Proof. reflexivity. Qed.
Example rel3 : Rel "/" "/a" = Some "a". Proof. reflexivity. Qed.
Example rel4 : Rel "." "a/b" = Some "a/b". Proof. reflexivity. Qed.
Example rel5 : Rel ".." "../a" = Some "a". Proof. reflexivity. Qed.
Example rel6 : Rel "/a/b" "/a/c/d" = Some "../c/d". Proof. reflexivity. Qed.
Example rel7 : Rel "a" "/a" = None. Proof. reflexivity. Qed.
Example rel8 : Rel "../.." "../a" = None. Proof. reflexivity. Qed.
Example rel9 : Rel "a/b" "a" = Some "..". Proof. reflexivity. Qed.

End PathTests.
